(** * Hyperliquid signal executor: sizing, pricing and exit monitoring

    A shallow embedding of [src/hyperliquid-api/main.py] and the properties
    of its order-sizing engine, exit monitor and signal intake.

    Python [float]s are IEEE-754 binary64 values, embedded as the Standard
    Library's [spec_float] with its executable arithmetic at precision 53;
    the decimal conversions ([round(x, n)] and the ['.5g'] format) are
    computed on the exact rational value of the float.  Logging has no
    effect on any result and is left out. *)

From Stdlib Require Import ZArith QArith Qround Qabs Lia Bool List.
From Stdlib Require Import Lqa Morphisms Qpower.
From Stdlib Require Import Floats.SpecFloat.
From Stdlib Require Import Ascii String DecimalString.
From Stdlib Require DecimalZ DecimalPos.
From stdpp Require Import base option strings gmap.

Open Scope Z_scope.

(** ** Python exceptions and fallible results *)

Inductive exn : Type :=
  | ZeroDivisionError
  | OverflowError
  | KeyError
  | TypeError
  | ValueError
  | AttributeError
  | SdkError.        (* any exception raised inside the exchange SDK *)

Inductive result (A : Type) : Type :=
  | Ok (a : A)
  | Raise (e : exn).
Arguments Ok {A} a.
Arguments Raise {A} e.

Definition is_ok {A} (r : result A) : bool :=
  match r with Ok _ => true | Raise _ => false end.

(** ** Binary64 floats *)

Module PyFloat.

Definition prec : Z := 53.
Definition emax : Z := 1024.

Abbreviation float := spec_float.

Definition fmul : float -> float -> float := SFmul prec emax.
Definition fadd : float -> float -> float := SFadd prec emax.
Definition fsub : float -> float -> float := SFsub prec emax.
Definition fdiv_ieee : float -> float -> float := SFdiv prec emax.

(** [a < b], [a <= b], [a == b]; [a >= b] is [fle b a]. *)
Definition flt (a b : float) : bool := SFltb a b.
Definition fle (a b : float) : bool := SFleb a b.
Definition feq (a b : float) : bool := SFeqb a b.
Definition fge (a b : float) : bool := fle b a.

Definition is_zero (x : float) : bool :=
  match x with S754_zero _ => true | _ => false end.

(** [bool(x)]: every float but the two zeros is truthy, NaN included. *)
Definition truthy (x : float) : bool := negb (is_zero x).

Definition is_finite (x : float) : bool :=
  match x with S754_zero _ | S754_finite _ _ _ => true | _ => false end.

Definition sign_of (x : float) : bool :=
  match x with
  | S754_zero s | S754_infinity s | S754_finite s _ _ => s
  | S754_nan => false
  end.

(** [a / b] raises on a zero divisor of either sign. *)
Definition py_div (a b : float) : result float :=
  if is_zero b then Raise ZeroDivisionError else Ok (fdiv_ieee a b).

(** [max(a, b)] keeps its first argument unless the second is greater. *)
Definition py_max (a b : float) : float := if flt a b then b else a.

Definition py_abs (x : float) : float := SFabs x.

Definition of_Z (z : Z) : float := binary_normalize prec emax z 0 false.

(** The float literals of the source, each the binary64 value nearest to
    the decimal written there. *)
Definition f0 : float := S754_zero false.
Definition f1 : float := Eval vm_compute in of_Z 1.
Definition f10 : float := Eval vm_compute in of_Z 10.
Definition f100 : float := Eval vm_compute in of_Z 100.
Definition f1_01 : float := Eval vm_compute in fdiv_ieee (of_Z 101) (of_Z 100).
Definition f1_1 : float := Eval vm_compute in fdiv_ieee (of_Z 11) (of_Z 10).
Definition f0_02 : float := Eval vm_compute in fdiv_ieee (of_Z 2) (of_Z 100).
Definition f0_001 : float := Eval vm_compute in fdiv_ieee (of_Z 1) (of_Z 1000).
Definition f0_0001 : float := Eval vm_compute in fdiv_ieee (of_Z 1) (of_Z 10000).

(** *** Exact values and correctly rounded conversion *)

Definition pow2 (k : Z) : Q := Qpower 2 k.
Definition pow10 (k : Z) : Q := Qpower 10 k.

(** The magnitude of a float as a rational; zero for the non-finite. *)
Definition mag (x : float) : Q :=
  match x with
  | S754_finite _ m e => inject_Z (Zpos m) * pow2 e
  | _ => 0
  end.

(** Round to the nearest integer, ties to even. *)
Definition rne (q : Q) : Z :=
  let f := Qfloor q in
  match Qcompare (q - inject_Z f) (1 # 2) with
  | Lt => f
  | Gt => f + 1
  | Eq => if Z.even f then f else f + 1
  end.

(** [ilog2 q] is the [z] with [2^z <= q < 2^(z+1)], for [q > 0]. *)
Definition ilog2 (q : Q) : Z :=
  let z := Z.log2 (Qnum q) - Z.log2 (Zpos (Qden q)) in
  if Qle_bool (pow2 z) q then z else z - 1.

(** Largest [z], at most [fuel] below the start, with [10^z <= q]. *)
Fixpoint ilog10_from (fuel : nat) (z : Z) (q : Q) : Z :=
  match fuel with
  | O => z
  | S fuel' => if Qle_bool (pow10 z) q then z else ilog10_from fuel' (z - 1) q
  end.

(** [ilog10 q] is the [z] with [10^z <= q < 10^(z+1)], for [q > 0]:
    the candidates around [log10(2) * ilog2 q] are tried first, and the
    downward search is the general case. *)
Definition in_decade (z : Z) (q : Q) : bool :=
  Qle_bool (pow10 z) q && negb (Qle_bool (pow10 (z + 1)) q).

Definition ilog10 (q : Q) : Z :=
  let z := (ilog2 q * 30103) / 100000 in
  if in_decade z q then z
  else if in_decade (z + 1) q then z + 1
  else if in_decade (z - 1) q then z - 1
  else
    let b := Z.abs (ilog2 q) + 1 in
    ilog10_from (Z.to_nat (2 * b)) b q.

(** Assemble a float from a sign, an integer significand of at most
    [2^53] and an exponent; the significand [2^53] carries into the next
    binade and an exponent above 971 overflows to infinity. *)
Definition assemble (s : bool) (m e : Z) : float :=
  if m <=? 0 then S754_zero s
  else
    let '(m', e') := if m =? 2 ^ 53 then (2 ^ 52, e + 1) else (m, e) in
    if e' <=? 971 then S754_finite s (Z.to_pos m') e' else S754_infinity s.

(** The binary64 value nearest to [(-1)^s * q], ties to even: what
    [float(str)] returns for a decimal string of value [q]. *)
Definition nearest (s : bool) (q : Q) : float :=
  if Qle_bool q 0 then S754_zero s
  else
    let e := Z.max (ilog2 q - 52) (-1074) in
    assemble s (rne (q / pow2 e)) e.

(** [q] rounded half-even to [k] decimal places ([k] may be negative). *)
Definition round_places (k : Z) (q : Q) : Q :=
  Qred (inject_Z (rne (q * pow10 k)) / pow10 k).

(** [q > 0] rounded half-even to five significant decimal digits. *)
Definition round_sig5 (q : Q) : Q := round_places (4 - ilog10 q) q.

(** [float(f"{x:.5g}")]: the format is exact for NaN, the infinities and
    the zeros; a finite value is printed with five significant digits,
    correctly rounded, and read back. *)
Definition fmt5g (x : float) : float :=
  match x with
  | S754_finite s _ _ => nearest s (round_sig5 (mag x))
  | _ => x
  end.

(** [round(x, k)] for a float [x] and an int [k]: non-finite values and
    [k > 323] return [x]; [k < -308] returns a zero of the sign of [x];
    otherwise the value is printed with [k] decimals, correctly rounded,
    and read back, and an infinite result raises [OverflowError]. *)
Definition py_round (x : float) (k : Z) : result float :=
  match x with
  | S754_finite s _ _ =>
      if 323 <? k then Ok x
      else if k <? -308 then Ok (S754_zero s)
      else
        match nearest s (round_places k (mag x)) with
        | S754_infinity _ => Raise OverflowError
        | y => Ok y
        end
  | _ => Ok x
  end.

(** [10 ** (-d)] for a decimal count [d]: the float nearest to [10^-d]
    (for [d = 0] Python yields the int [1], embedded as the equal float). *)
Definition pow10_neg (d : N) : float := nearest false (pow10 (- Z.of_N d)).

(** [int(x)]: truncation toward zero. *)
Definition py_int (x : float) : result Z :=
  match x with
  | S754_zero _ => Ok 0
  | S754_finite s m e =>
      let a := if 0 <=? e then Z.shiftl (Zpos m) e else Z.shiftr (Zpos m) (- e) in
      Ok (if s then - a else a)
  | S754_infinity _ => Raise OverflowError
  | S754_nan => Raise ValueError
  end.

End PyFloat.
Import PyFloat.


(** ** The exchange and the trader's state

    The exchange SDK is an oracle: the [n]-th call made to it is answered
    by the field of that name at tick [n], either with a value or with an
    exception.  Values that the program only reads through [float(...)]
    are given by [Parsed] when the conversion succeeds and [Unparsable]
    when it raises. *)

Record MetaAsset : Type := {
  ma_name : option string;          (* asset['name'] *)
  ma_szDecimals : option N;         (* asset.get('szDecimals', 4) *)
  ma_maxLeverage : option Z;        (* asset.get('maxLeverage', 1) *)
  ma_onlyIsolated : option bool     (* asset.get('onlyIsolated', False) *)
}.

Record AssetSpec : Type := {
  asset_id : Z;
  sz_decimals : N;
  max_leverage : Z;
  only_isolated : bool
}.

Inductive Field : Type :=
  | Absent
  | Unparsable
  | Parsed (f : float).

Inductive AllMids : Type :=
  | MidsNotDict
  | MidsDict (mids : gmap string Field).

Record AssetPosition : Type := {
  coin : string;                    (* pos['position']['coin'] *)
  szi : Field                       (* pos['position']['szi'] *)
}.

Record UserState : Type := {
  assetPositions : option (list AssetPosition);
  marginSummary : option Field;     (* marginSummary.get('accountValue') *)
  withdrawable : Field
}.

Inductive Tif : Type := Ioc | Gtc.

Record OrderRequest : Type := {
  o_symbol : string;
  o_is_buy : bool;
  o_size : float;
  o_price : float;
  o_tif : Tif
}.

(** What the callers observe of an order result: its truth value, whether
    it is a dict, and its ['status'] entry. *)
Inductive OrderResult : Type :=
  | OrderFalsy
  | OrderNotDict
  | OrderDict (status : option string).

Record Exchange : Type := {
  info_meta : nat -> result (option (list MetaAsset));
  info_all_mids : nat -> result AllMids;
  info_user_state : nat -> result (option UserState);
  exchange_order : nat -> OrderRequest -> result OrderResult;
  datetime_now : nat -> Z;          (* now(timezone.utc), in microseconds *)
  time_time : nat -> float;         (* time.time() *)
  trader_init : nat -> result unit  (* HyperliquidTrader(...) *)
}.

(** A trader object ([_asset_specs]) together with the interaction so
    far: the number of calls made and the orders submitted. *)
Record TraderState : Type := {
  _asset_specs : option (gmap string AssetSpec);
  tick : nat;
  sent : list OrderRequest
}.

(** State and exception monad: a computation maps a state to a result
    and the state it leaves behind, also when it raises. *)
Definition Comp (S A : Type) : Type := S -> result A * S.

Definition ret {S A} (a : A) : Comp S A := fun st => (Ok a, st).
Definition raise {S A} (e : exn) : Comp S A := fun st => (Raise e, st).
Definition bind {S A B} (m : Comp S A) (k : A -> Comp S B) : Comp S B :=
  fun st =>
    match m st with
    | (Ok a, st') => k a st'
    | (Raise e, st') => (Raise e, st')
    end.
Definition lift {S A} (r : result A) : Comp S A := fun st => (r, st).

(** [try: body except Exception: handler]; the state changes made by the
    body before it raised are kept. *)
Definition try_except {S A} (body : Comp S A) (handler : exn -> Comp S A) : Comp S A :=
  fun st =>
    match body st with
    | (Ok a, st') => (Ok a, st')
    | (Raise e, st') => handler e st'
    end.

Abbreviation M := (Comp TraderState).

Declare Scope py_scope.
Delimit Scope py_scope with py.
Notation "'do' x <- m ; k" := (bind m (fun x => k))
  (at level 10, x name, m at level 100, k at level 200) : py_scope.
Notation "'do_' m ; k" := (bind m (fun _ => k))
  (at level 10, m at level 100, k at level 200) : py_scope.
Open Scope py_scope.

(** One call to the SDK: it advances the tick whatever the outcome. *)
Definition call {A} (oracle : nat -> result A) : M A :=
  fun st =>
    (oracle (tick st),
     {| _asset_specs := _asset_specs st; tick := S (tick st); sent := sent st |}).

Definition set_asset_specs (sp : gmap string AssetSpec) : M unit :=
  fun st => (Ok tt, {| _asset_specs := Some sp; tick := tick st; sent := sent st |}).

Definition new_trader (t : nat) (orders : list OrderRequest) : TraderState :=
  {| _asset_specs := None; tick := t; sent := orders |}.

(** ** class HyperliquidTrader *)

Section Trader.

Variable ex : Exchange.

(** The dict built from [meta['universe']]: a later asset of the same
    name replaces an earlier one; an asset without a name raises. *)
Fixpoint load_universe (idx : Z) (universe : list MetaAsset)
    (acc : gmap string AssetSpec) : result (gmap string AssetSpec) :=
  match universe with
  | [] => Ok acc
  | asset :: rest =>
      match ma_name asset with
      | None => Raise KeyError
      | Some name =>
          load_universe (idx + 1) rest
            (<[ name := {| asset_id := idx;
                           sz_decimals := default 4%N (ma_szDecimals asset);
                           max_leverage := default 1 (ma_maxLeverage asset);
                           only_isolated := default false (ma_onlyIsolated asset) |} ]> acc)
      end
  end.

Definition get_asset_specs : M (gmap string AssetSpec) :=
  fun st =>
    match _asset_specs st with
    | Some sp => (Ok sp, st)
    | None =>
        (try_except
           (do meta <- call (info_meta ex);
            do sp <- match meta with
                     | Some universe => lift (load_universe 0 universe ∅)
                     | None => ret ∅
                     end;
            do_ set_asset_specs sp;
            ret sp)
           (fun _ => do_ set_asset_specs ∅; ret ∅)) st
    end.

Definition get_min_order_size (symbol : string) (current_price : float) : M float :=
  try_except
    (do asset_specs <- get_asset_specs;
     match asset_specs !! symbol with
     | None =>
         let min_usd_size := f10 in
         let min_token_size := f0_0001 in
         do q <- lift (py_div min_usd_size current_price);
         ret (py_max q min_token_size)
     | Some spec =>
         let min_lot_size := pow10_neg (sz_decimals spec) in
         let min_usd_size := f10 in
         do min_size_for_usd <- lift (py_div min_usd_size current_price);
         ret (py_max min_lot_size min_size_for_usd)
     end)
    (fun _ =>
       do q <- lift (py_div f10 current_price);
       ret (py_max q f0_001)).

Definition validate_and_adjust_size (symbol : string) (size current_price : float)
    : M float :=
  try_except
    (do min_size <- get_min_order_size symbol current_price;
     if flt size min_size then ret (fmul min_size f1_01)
     else
       do asset_specs <- get_asset_specs;
       match asset_specs !! symbol with
       | Some spec => lift (py_round size (Z.of_N (sz_decimals spec)))
       | None => ret size
       end)
    (fun _ => ret size).

Definition format_price (price : float) (symbol : string) : M float :=
  try_except
    (let formatted_price := fmt5g price in
     do asset_specs <- get_asset_specs;
     match asset_specs !! symbol with
     | Some spec =>
         let decimals := if 10000 <=? asset_id spec then 8 else 6 in
         let final_decimals := decimals - Z.of_N (sz_decimals spec) in
         lift (py_round formatted_price final_decimals)
     | None => ret formatted_price
     end)
    (fun _ => ret (fmt5g price)).

Definition float_of_field (v : Field) : result float :=
  match v with
  | Parsed f => Ok f
  | Unparsable => Raise ValueError
  | Absent => Raise KeyError
  end.

Definition get_current_price (symbol : string) : M (option float) :=
  try_except
    (do all_mids <- call (info_all_mids ex);
     match all_mids with
     | MidsNotDict => ret None
     | MidsDict mids =>
         match mids !! symbol with
         | Some v => do price <- lift (float_of_field v); ret (Some price)
         | None => ret None
         end
     end)
    (fun _ => ret None).

(** Truth value of an optional float: [None] and the zeros are falsy. *)
Definition some_truthy (p : option float) : bool :=
  match p with Some x => truthy x | None => false end.

Definition get_market_price (symbol : string) (is_buy : bool) : M (option float) :=
  try_except
    (do current_price <- get_current_price symbol;
     match current_price with
     | Some p =>
         if truthy p then
           let slippage := f0_02 in
           let market_price :=
             if is_buy then fmul p (fadd f1 slippage)
             else fmul p (fsub f1 slippage) in
           do formatted_price <- format_price market_price symbol;
           ret (Some formatted_price)
         else ret None
     | None => ret None
     end)
    (fun _ => ret None).

Inductive OrderType : Type := Market | Limit.

Definition submit (req : OrderRequest) : M OrderResult :=
  fun st =>
    (exchange_order ex (tick st) req,
     {| _asset_specs := _asset_specs st; tick := S (tick st);
        sent := sent st ++ [req] |}).

(** [place_order] returns the SDK's result, or [None] on any exception. *)
Definition place_order (symbol : string) (is_buy : bool) (size price : float)
    (order_type : OrderType) : M (option OrderResult) :=
  try_except
    (do price <- match order_type with
                 | Market =>
                     do market_price <- get_market_price symbol is_buy;
                     match market_price with
                     | Some mp => if truthy mp then ret mp else format_price price symbol
                     | None => format_price price symbol
                     end
                 | Limit => format_price price symbol
                 end;
     do size <- validate_and_adjust_size symbol size price;
     let order_type_param := match order_type with Market => Ioc | Limit => Gtc end in
     do order_result <- submit {| o_symbol := symbol; o_is_buy := is_buy;
                                  o_size := size; o_price := price;
                                  o_tif := order_type_param |};
     ret (Some order_result))
    (fun _ => ret None).

Definition get_position (symbol : string) : M (option AssetPosition) :=
  try_except
    (do positions <- call (info_user_state ex);
     match positions with
     | Some us =>
         match assetPositions us with
         | Some l => ret (List.find (fun pos => String.eqb (coin pos) symbol) l)
         | None => ret None
         end
     | None => ret None
     end)
    (fun _ => ret None).

Record VaultInfo : Type := {
  total_account_value : float;
  vault_withdrawable : float
}.

Definition get_vault_balance : M (option VaultInfo) :=
  try_except
    (do user_state <- call (info_user_state ex);
     match user_state with
     | None => ret None
     | Some us =>
         do total <- match marginSummary us with
                     | Some Absent => ret f0
                     | Some v => lift (float_of_field v)
                     | None => ret f0
                     end;
         do cash <- match withdrawable us with
                    | Absent => ret f0
                    | v => lift (float_of_field v)
                    end;
         ret (Some {| total_account_value := total; vault_withdrawable := cash |})
     end)
    (fun _ => ret None).

Definition calculate_position_size (symbol : string) (current_price percentage : float)
    : M (float * float) :=
  try_except
    (do vault_info <- get_vault_balance;
     match vault_info with
     | None =>
         do fallback_size <- lift (py_div f100 current_price);
         ret (f100, fallback_size)
     | Some vi =>
         let total_value := total_account_value vi in
         do fraction <- lift (py_div percentage f100);
         let position_size_usd := fmul total_value fraction in
         do min_order_size <- get_min_order_size symbol current_price;
         let min_position_usd := fmul min_order_size current_price in
         let position_size_usd :=
           if flt position_size_usd min_position_usd
           then fmul min_position_usd f1_1 else position_size_usd in
         do position_size <- lift (py_div position_size_usd current_price);
         do position_size <- validate_and_adjust_size symbol position_size current_price;
         let position_size_usd := fmul position_size current_price in
         ret (position_size_usd, position_size)
     end)
    (fun _ =>
       do min_size <- (if String.eqb symbol "" then ret f0_001
                       else get_min_order_size symbol current_price);
       let fallback_usd := if truthy min_size then fmul min_size current_price else f100 in
       ret (fallback_usd, min_size)).

Definition order_truthy (r : option OrderResult) : bool :=
  match r with
  | Some OrderFalsy | None => false
  | Some _ => true
  end.

Definition close_position (symbol : string) : M (option OrderResult) :=
  try_except
    (do position <- get_position symbol;
     match position with
     | None => ret None
     | Some pos =>
         do pos_size <- lift (float_of_field (szi pos));
         let is_buy := flt pos_size f0 in
         do market_price <- get_market_price symbol is_buy;
         do market_price <-
           (if some_truthy market_price then ret market_price
            else
              do market_price <- get_current_price symbol;
              if some_truthy market_price then
                do formatted <- format_price (default f0 market_price) symbol;
                ret (Some formatted)
              else ret market_price);
         match market_price with
         | Some mp =>
             if truthy mp
             then place_order symbol is_buy (py_abs pos_size) mp Market
             else ret None
         | None => ret None
         end
     end)
    (fun _ => ret None).

End Trader.

(** ** Process-wide state: the registry and the monitor *)

(** A [datetime]: naive (no offset) or aware, in microseconds. *)
Inductive pydatetime : Type :=
  | Naive (wall_us : Z)
  | Aware (utc_us : Z).

(** [a >= b]: an aware and a naive datetime cannot be ordered. *)
Definition datetime_ge (a b : pydatetime) : result bool :=
  match a, b with
  | Aware x, Aware y => Ok (y <=? x)
  | Naive x, Naive y => Ok (y <=? x)
  | _, _ => Raise TypeError
  end.

Record TrackedPosition : Type := {
  symbol : string;
  is_buy : bool;
  tp1 : float;
  tp2 : float;
  sl : float;
  max_exit_time : pydatetime;
  entry_price : float;
  order_result : OrderResult
}.

(** A Python dict with string keys, in insertion order: assigning to a
    key that is present keeps its place, a new key goes last. *)
Section Dict.
Context {V : Type}.

Fixpoint dict_get (k : string) (d : list (string * V)) : option V :=
  match d with
  | [] => None
  | (k', v) :: rest => if String.eqb k' k then Some v else dict_get k rest
  end.

Fixpoint dict_set (k : string) (v : V) (d : list (string * V)) : list (string * V) :=
  match d with
  | [] => [(k, v)]
  | (k', v') :: rest =>
      if String.eqb k' k then (k', v) :: rest else (k', v') :: dict_set k v rest
  end.

Fixpoint dict_remove (k : string) (d : list (string * V)) : list (string * V) :=
  match d with
  | [] => []
  | (k', v') :: rest =>
      if String.eqb k' k then dict_remove k rest else (k', v') :: dict_remove k rest
  end.

(** [del d[k]] raises [KeyError] when [k] is absent. *)
Definition dict_del (k : string) (d : list (string * V)) : result (list (string * V)) :=
  match dict_get k d with
  | Some _ => Ok (dict_remove k d)
  | None => Raise KeyError
  end.

End Dict.

Inductive CloseReason : Type :=
  | TP1_hit
  | TP2_hit
  | SL_hit
  | Max_exit_time_reached.

(** The globals of the module, the trader object of the monitor thread,
    the interaction with the exchange so far, and the monitor's
    "Closing position for ..." lines, which record the close reason. *)
Record Server : Type := {
  active_positions : list (string * TrackedPosition);
  monitoring_active : bool;
  monitor_specs : option (gmap string AssetSpec);
  calls : nat;
  orders : list OrderRequest;
  closing : list (string * CloseReason)
}.

Section Monitor.

Variable ex : Exchange.

(** A method call on the monitor thread's trader. *)
Definition monitor_trader {A} (m : M A) : Comp Server A :=
  fun sv =>
    let '(r, ts) := m {| _asset_specs := monitor_specs sv; tick := calls sv;
                         sent := orders sv |} in
    (r, {| active_positions := active_positions sv;
           monitoring_active := monitoring_active sv;
           monitor_specs := _asset_specs ts;
           calls := tick ts;
           orders := sent ts;
           closing := closing sv |}).

Definition set_active_positions (d : list (string * TrackedPosition)) : Comp Server unit :=
  fun sv =>
    (Ok tt, {| active_positions := d;
               monitoring_active := monitoring_active sv;
               monitor_specs := monitor_specs sv;
               calls := calls sv;
               orders := orders sv;
               closing := closing sv |}).

Definition del_active_position (signal_id : string) : Comp Server unit :=
  fun sv =>
    match dict_del signal_id (active_positions sv) with
    | Ok d => set_active_positions d sv
    | Raise e => (Raise e, sv)
    end.

Definition log_closing (sym : string) (reason : CloseReason) : Comp Server unit :=
  fun sv =>
    (Ok tt, {| active_positions := active_positions sv;
               monitoring_active := monitoring_active sv;
               monitor_specs := monitor_specs sv;
               calls := calls sv;
               orders := orders sv;
               closing := closing sv ++ [(sym, reason)] |}).

(** Lines 414-439: the price checks, first match wins.  The result is
    the pair [(should_close, close_reason)], the reason being [None]
    for the empty string. *)
Definition check_price_exit (is_buy_signal : bool) (current_price tp1 tp2 sl : float)
    : bool * option CloseReason :=
  if is_buy_signal then
    if fge current_price tp1 then (true, Some TP1_hit)
    else if fge current_price tp2 then (true, Some TP2_hit)
    else if fle current_price sl then (true, Some SL_hit)
    else (false, None)
  else
    if fle current_price tp1 then (true, Some TP1_hit)
    else if fle current_price tp2 then (true, Some TP2_hit)
    else if fge current_price sl then (true, Some SL_hit)
    else (false, None).

(** Lines 414-444: the price checks, then the time check, which
    overwrites both variables. *)
Definition check_exit (trade_data : TrackedPosition) (current_price : float)
    (now : pydatetime) : result (bool * option CloseReason) :=
  let '(should_close, close_reason) :=
    check_price_exit (is_buy trade_data) current_price
      (tp1 trade_data) (tp2 trade_data) (sl trade_data) in
  match datetime_ge now (max_exit_time trade_data) with
  | Ok true => Ok (true, Some Max_exit_time_reached)
  | Ok false => Ok (should_close, close_reason)
  | Raise e => Raise e
  end.

Definition utc_now : Comp Server pydatetime :=
  monitor_trader (do t <- call (fun n => Ok (datetime_now ex n)); ret (Aware t)).

(** The body of the [for] loop, for one item of the snapshot. *)
Definition monitor_entry (signal_id : string) (trade_data : TrackedPosition)
    : Comp Server unit :=
  do current_price <- monitor_trader (get_current_price ex (symbol trade_data));
  match current_price with
  | None => ret tt
  | Some price =>
      if negb (truthy price) then ret tt
      else
        do position <- monitor_trader (get_position ex (symbol trade_data));
        match position with
        | None => del_active_position signal_id
        | Some _ =>
            do now <- utc_now;
            do verdict <- lift (check_exit trade_data price now);
            match verdict with
            | (true, close_reason) =>
                do_ match close_reason with
                    | Some reason => log_closing (symbol trade_data) reason
                    | None => ret tt
                    end;
                do close_result <- monitor_trader (close_position ex (symbol trade_data));
                if order_truthy close_result
                then del_active_position signal_id
                else ret tt
            | (false, _) => ret tt
            end
        end
  end.

Fixpoint for_each (items : list (string * TrackedPosition)) : Comp Server unit :=
  match items with
  | [] => ret tt
  | (signal_id, trade_data) :: rest =>
      do_ monitor_entry signal_id trade_data;
      for_each rest
  end.

(** One pass of the [while monitoring_active] loop: the items are a
    snapshot of the registry, and an exception ends the pass. *)
Definition monitor_cycle : Server -> Server :=
  fun sv =>
    if monitoring_active sv then
      snd (try_except (for_each (active_positions sv)) (fun _ => ret tt) sv)
    else sv.

End Monitor.

(** ** The webhook: [receive_signal] *)

#[warnings="-register-all"]
Inductive json : Type :=
  | JNull
  | JBool (b : bool)
  | JInt (z : Z)
  | JFloat (f : float)
  | JStr (s : string)
  | JList (items : list json)
  | JObj (fields : list (string * json)).

Definition json_truthy (j : json) : bool :=
  match j with
  | JNull => false
  | JBool b => b
  | JInt z => negb (z =? 0)
  | JFloat f => truthy f
  | JStr s => negb (String.eqb s "")
  | JList items => match items with [] => false | _ => true end
  | JObj fields => match fields with [] => false | _ => true end
  end.

(** [str.lower()] and [str.upper()] on the ASCII letters; a character
    outside ASCII is left as it is. *)
Definition lower_ascii (c : ascii) : ascii :=
  let n := nat_of_ascii c in
  if (Nat.leb 65 n && Nat.leb n 90)%bool then ascii_of_nat (n + 32) else c.

Definition upper_ascii (c : ascii) : ascii :=
  let n := nat_of_ascii c in
  if (Nat.leb 97 n && Nat.leb n 122)%bool then ascii_of_nat (n - 32) else c.

Fixpoint str_map (f : ascii -> ascii) (s : string) : string :=
  match s with
  | EmptyString => EmptyString
  | String c rest => String (f c) (str_map f rest)
  end.

Definition lower (s : string) : string := str_map lower_ascii s.
Definition upper (s : string) : string := str_map upper_ascii s.

(** [s.replace('Z', '+00:00')]. *)
Fixpoint replace_Z (s : string) : string :=
  match s with
  | EmptyString => EmptyString
  | String c rest =>
      if Ascii.eqb c "Z"%char then ("+00:00" ++ replace_Z rest)%string
      else String c (replace_Z rest)
  end.

(** [str(n)] for an int. *)
Definition str_of_int (n : Z) : string := NilZero.string_of_int (Z.to_int n).

Record Environ : Type := {
  HYPERLIQUID_PRIVATE_KEY : option string;
  VAULT_ADDRESS : option string;
  TESTNET : option string;
  VAULT_RISK_PERCENTAGE : option string
}.

Inductive ErrorKind : Type :=
  | No_JSON_data_provided
  | Invalid_data_format
  | Missing_required_field (field : string)
  | Error_parsing_signal_data (e : exn)
  | Error_parsing_Max_Exit_Time (e : exn)
  | Invalid_signal_message (signal_message : string)
  | Configuration_error
  | Trader_initialization_error
  | Could_not_get_current_price
  | Price_fetch_error
  | Position_size_calculation_error
  | Failed_to_place_order_no_result
  | Invalid_order_result_format
  | Failed_to_place_order
  | Order_placement_error
  | Unhandled (e : exn).

Record Accepted : Type := {
  r_signal_id : string;
  r_order_result : OrderResult;
  r_position_size : float;
  r_entry_price : float
}.

(** A response: an error with its HTTP status, or the 200 answer. *)
Inductive Reply : Type :=
  | Error (status : Z) (kind : ErrorKind)
  | Success (body : Accepted).

Record Signal : Type := {
  s_signal_message : string;
  s_is_buy : bool;
  s_symbol : string;
  s_tp1 : float;
  s_tp2 : float;
  s_sl : float;
  s_current_price : float;
  s_max_exit_time : pydatetime
}.

Section Intake.

(** The standard-library parsers behind [float(str)] and
    [datetime.fromisoformat(str)]; [None] is a [ValueError]. *)
Variable float_of_string : string -> option float.
Variable fromisoformat : string -> option pydatetime.

Variable ex : Exchange.
Variable environ : Environ.

(** [try: body except (KeyError, TypeError, ValueError): handler]. *)
Definition try_except_parse {S A} (body : Comp S A) (handler : exn -> Comp S A)
    : Comp S A :=
  fun st =>
    match body st with
    | (Raise KeyError, st') => handler KeyError st'
    | (Raise TypeError, st') => handler TypeError st'
    | (Raise ValueError, st') => handler ValueError st'
    | other => other
    end.

Definition json_get (k : string) (j : json) : option json :=
  match j with
  | JObj fields => dict_get k fields
  | _ => None
  end.

(** [d[k]]. *)
Definition json_item (k : string) (j : json) : result json :=
  match j with
  | JObj fields =>
      match dict_get k fields with Some v => Ok v | None => Raise KeyError end
  | _ => Raise TypeError
  end.

(** [float(v)]. *)
Definition py_float (v : json) : result float :=
  match v with
  | JFloat f => Ok f
  | JInt z =>
      match of_Z z with
      | S754_infinity _ => Raise OverflowError
      | f => Ok f
      end
  | JBool b => Ok (if b then f1 else f0)
  | JStr s =>
      match float_of_string s with Some f => Ok f | None => Raise ValueError end
  | JNull | JList _ | JObj _ => Raise TypeError
  end.

Definition py_str_lower (v : json) : result string :=
  match v with JStr s => Ok (lower s) | _ => Raise AttributeError end.

Definition py_str_upper (v : json) : result string :=
  match v with JStr s => Ok (upper s) | _ => Raise AttributeError end.

Definition py_fromisoformat (v : json) : result pydatetime :=
  match v with
  | JStr s =>
      match fromisoformat (replace_Z s) with
      | Some t => Ok t
      | None => Raise ValueError
      end
  | _ => Raise AttributeError
  end.

Definition required_fields : list string :=
  ["Signal Message"; "Token Mentioned"; "TP1"; "TP2"; "SL"; "Max Exit Time"]%string.

Definition first_missing (signal_data : json) : option string :=
  List.find (fun field => match json_get field signal_data with
                          | Some _ => false
                          | None => true
                          end)
    required_fields.

(** Lines 484-490. *)
Definition extract_basic (signal_data : json)
    : Comp unit (string * string * float * float * float * float) :=
  do v <- lift (json_item "Signal Message" signal_data);
  do signal_message <- lift (py_str_lower v);
  do v <- lift (json_item "Token Mentioned" signal_data);
  do sym <- lift (py_str_upper v);
  do v <- lift (json_item "TP1" signal_data);
  do tp1 <- lift (py_float v);
  do v <- lift (json_item "TP2" signal_data);
  do tp2 <- lift (py_float v);
  do v <- lift (json_item "SL" signal_data);
  do sl <- lift (py_float v);
  do current_price <- lift (py_float (default (JInt 0) (json_get "Current Price" signal_data)));
  ret (signal_message, sym, tp1, tp2, sl, current_price).

(** Lines 500-511. *)
Definition extract_max_exit_time (signal_data : json) : Comp unit pydatetime :=
  do max_exit_str <- lift (json_item "Max Exit Time" signal_data);
  match max_exit_str with
  | JObj fields =>
      match dict_get "$date" fields with
      | Some date_string => lift (py_fromisoformat date_string)
      | None => raise ValueError
      end
  | JStr _ => lift (py_fromisoformat max_exit_str)
  | _ => raise ValueError
  end.

(** Lines 464-522: the validation of the payload, which touches no
    state.  [inl] is an early return, [inr] the validated signal. *)
Definition validate_signal (signal_data : json) : Comp unit (Z * ErrorKind + Signal) :=
  if negb (json_truthy signal_data) then ret (inl (400, No_JSON_data_provided))
  else
    match signal_data with
    | JObj _ =>
        match first_missing signal_data with
        | Some field => ret (inl (400, (Missing_required_field field)))
        | None =>
            do basic <- try_except_parse
                          (do b <- extract_basic signal_data; ret (inr b))
                          (fun e => ret (inl (400, (Error_parsing_signal_data e))));
            match basic with
            | inl reply => ret (inl reply)
            | inr (signal_message, sym, tp1, tp2, sl, current_price) =>
                do exit_time <- try_except_parse
                                  (do t <- extract_max_exit_time signal_data; ret (inr t))
                                  (fun e => ret (inl (400, (Error_parsing_Max_Exit_Time e))));
                match exit_time with
                | inl reply => ret (inl reply)
                | inr max_exit_time =>
                    let is_buy := String.eqb signal_message "buy" in
                    if (String.eqb signal_message "buy" || String.eqb signal_message "sell")%bool
                    then ret (inr {| s_signal_message := signal_message;
                                     s_is_buy := is_buy;
                                     s_symbol := sym;
                                     s_tp1 := tp1; s_tp2 := tp2; s_sl := sl;
                                     s_current_price := current_price;
                                     s_max_exit_time := max_exit_time |})
                    else ret (inl (400, (Invalid_signal_message signal_message)))
                end
            end
        end
    | _ => ret (inl (400, Invalid_data_format))
    end.

Definition env_truthy (v : option string) : bool :=
  match v with Some s => negb (String.eqb s "") | None => false end.

Definition load_config : result unit :=
  if (env_truthy (HYPERLIQUID_PRIVATE_KEY environ) && env_truthy (VAULT_ADDRESS environ))%bool
  then Ok tt else Raise ValueError.

Definition risk_percentage : result float :=
  match VAULT_RISK_PERCENTAGE environ with
  | None => Ok f10
  | Some s =>
      match float_of_string s with Some f => Ok f | None => Raise ValueError end
  end.

Record Placed : Type := {
  p_order_result : OrderResult;
  p_position_size : float;
  p_entry_price : float
}.

(** Lines 532-577, on the trader created for the request. *)
Definition execute_signal (sg : Signal) : M (Z * ErrorKind + Placed) :=
  do constructed <- try_except (do_ call (trader_init ex); ret true) (fun _ => ret false);
  if negb constructed then ret (inl (500, Trader_initialization_error))
  else
    do priced <-
      (if feq (s_current_price sg) f0 then
         try_except
           (do current_price <- get_current_price ex (s_symbol sg);
            match current_price with
            | Some p =>
                if truthy p then ret (inr p)
                else ret (inl (400, Could_not_get_current_price))
            | None => ret (inl (400, Could_not_get_current_price))
            end)
           (fun _ => ret (inl (500, Price_fetch_error)))
       else ret (inr (s_current_price sg)));
    match priced with
    | inl reply => ret (inl reply)
    | inr current_price =>
        do sized <-
          try_except
            (do pct <- lift risk_percentage;
             do sizes <- calculate_position_size ex (s_symbol sg) current_price pct;
             ret (inr sizes))
            (fun _ => ret (inl (500, Position_size_calculation_error)));
        match sized with
        | inl reply => ret (inl reply)
        | inr (position_size_usd, position_size) =>
            try_except
              (do order_result <- place_order ex (s_symbol sg) (s_is_buy sg) position_size
                                    current_price Market;
               match order_result with
               | None | Some OrderFalsy =>
                   ret (inl (500, Failed_to_place_order_no_result))
               | Some OrderNotDict =>
                   ret (inl (500, Invalid_order_result_format))
               | Some (OrderDict status) =>
                   if bool_decide (status = Some "ok"%string)
                   then ret (inr {| p_order_result := OrderDict status;
                                    p_position_size := position_size;
                                    p_entry_price := current_price |})
                   else ret (inl (500, Failed_to_place_order))
               end)
              (fun _ => ret (inl (500, Order_placement_error)))
        end
    end.

(** A method call on a trader created for the request: its cache starts
    empty and is dropped with it. *)
Definition request_trader {A} (m : M A) : Comp Server A :=
  fun sv =>
    let '(r, ts) := m (new_trader (calls sv) (orders sv)) in
    (r, {| active_positions := active_positions sv;
           monitoring_active := monitoring_active sv;
           monitor_specs := monitor_specs sv;
           calls := tick ts;
           orders := sent ts;
           closing := closing sv |}).

(** Lines 592-598: the monitor thread is started once, with a trader
    of its own. *)
Definition start_monitoring : Comp Server unit :=
  fun sv =>
    if monitoring_active sv then (Ok tt, sv)
    else (Ok tt, {| active_positions := active_positions sv;
                    monitoring_active := true;
                    monitor_specs := None;
                    calls := calls sv;
                    orders := orders sv;
                    closing := closing sv |}).

(** The dict stored for a signal, lines 581-590. *)
Definition tracked (sg : Signal) (entry : float) (res : OrderResult)
    : TrackedPosition :=
  {| symbol := s_symbol sg;
     is_buy := s_is_buy sg;
     tp1 := s_tp1 sg; tp2 := s_tp2 sg; sl := s_sl sg;
     max_exit_time := s_max_exit_time sg;
     entry_price := entry;
     order_result := res |}.

(** The reading of [time.time()] by the request that ended in state
    [after]: it is the last call that a successful request makes. *)
Definition request_clock (after : Server) : float :=
  time_time ex (pred (calls after)).

(** Lines 580-590. *)
Definition register (sg : Signal) (pl : Placed) : Comp Server string :=
  do t <- request_trader (call (fun n => Ok (time_time ex n)));
  do seconds <- lift (py_int t);
  let signal_id := (s_symbol sg ++ "_" ++ str_of_int seconds)%string in
  do_ (fun sv =>
         set_active_positions
           (dict_set signal_id
              (tracked sg (p_entry_price pl) (p_order_result pl))
              (active_positions sv)) sv);
  ret signal_id.

Definition handle_signal (signal_data : json) : Comp Server Reply :=
  do validated <- lift (fst (validate_signal signal_data tt));
  match validated with
  | inl (status, kind) => ret (Error status kind)
  | inr sg =>
      match load_config with
      | Raise _ => ret (Error 500 Configuration_error)
      | Ok _ =>
          do placed <- request_trader (execute_signal sg);
          match placed with
          | inl (status, kind) => ret (Error status kind)
          | inr pl =>
              do signal_id <- register sg pl;
              do_ start_monitoring;
              ret (Success {| r_signal_id := signal_id;
                              r_order_result := p_order_result pl;
                              r_position_size := p_position_size pl;
                              r_entry_price := p_entry_price pl |})
          end
      end
  end.

(** [receive_signal]: the handler under its outermost [try], which
    turns any exception left into a 500. *)
Definition receive_signal (signal_data : json) (sv : Server) : Reply * Server :=
  match handle_signal signal_data sv with
  | (Ok reply, sv') => (reply, sv')
  | (Raise e, sv') => (Error 500 (Unhandled e), sv')
  end.

End Intake.

(** ** A sample exchange and sample requests *)

Module Sample.

Definition universe : list MetaAsset :=
  [ {| ma_name := Some "BTC"%string; ma_szDecimals := Some 5%N;
       ma_maxLeverage := Some 40; ma_onlyIsolated := None |};
    {| ma_name := Some "ETH"%string; ma_szDecimals := Some 4%N;
       ma_maxLeverage := Some 25; ma_onlyIsolated := None |} ].

Definition price_111 : float := Eval vm_compute in of_Z 111.
Definition price_50000 : float := Eval vm_compute in of_Z 50000.
Definition size_0_5 : float := Eval vm_compute in fdiv_ieee (of_Z 1) (of_Z 2).

Definition exchange : Exchange :=
  {| info_meta := fun _ => Ok (Some universe);
     info_all_mids := fun _ => Ok (MidsDict {[ "BTC"%string := Parsed price_111 ]});
     info_user_state := fun _ =>
       Ok (Some {| assetPositions := Some [ {| coin := "BTC"; szi := Parsed size_0_5 |} ];
                   marginSummary := Some (Parsed (of_Z 1000));
                   withdrawable := Parsed (of_Z 1000) |});
     exchange_order := fun _ _ => Ok (OrderDict (Some "ok"%string));
     datetime_now := fun _ => 1000;
     time_time := fun _ => of_Z 1700000000;
     trader_init := fun _ => Ok tt |}.

Definition trader : TraderState := new_trader 0 [].

Definition specs : gmap string AssetSpec :=
  match fst (get_asset_specs exchange trader) with
  | Ok sp => sp
  | Raise _ => ∅
  end.

Definition loaded : TraderState := snd (get_asset_specs exchange trader).

(** A long position with [tp1 = 110], [tp2 = 120], [sl = 90]. *)
Definition position (deadline : pydatetime) : TrackedPosition :=
  {| symbol := "BTC"; is_buy := true;
     tp1 := of_Z 110; tp2 := of_Z 120; sl := of_Z 90;
     max_exit_time := deadline;
     entry_price := of_Z 100;
     order_result := OrderDict (Some "ok"%string) |}.

Definition server (deadline : pydatetime) : Server :=
  {| active_positions := [("BTC_1700000000"%string, position deadline)];
     monitoring_active := true;
     monitor_specs := None;
     calls := 0;
     orders := [];
     closing := [] |}.

Definition idle : Server :=
  {| active_positions := []; monitoring_active := false; monitor_specs := None;
     calls := 0; orders := []; closing := [] |}.

Definition environ : Environ :=
  {| HYPERLIQUID_PRIVATE_KEY := Some "0xkey"%string;
     VAULT_ADDRESS := Some "0xvault"%string;
     TESTNET := None;
     VAULT_RISK_PERCENTAGE := None |}.

Definition float_of_string (s : string) : option float := None.

Definition fromisoformat (s : string) : option pydatetime :=
  if String.eqb s "2030-01-01T00:00:00+00:00" then Some (Aware 1893456000000000)
  else if String.eqb s "2030-01-01T00:00:00" then Some (Naive 1893456000000000)
  else None.

Definition payload (message deadline : string) : json :=
  JObj [ ("Signal Message", JStr message); ("Token Mentioned", JStr "btc");
         ("TP1", JInt 110); ("TP2", JInt 120); ("SL", JInt 90);
         ("Max Exit Time", JObj [("$date", JStr deadline)]);
         ("Current Price", JInt 100) ]%string.

Definition utc_deadline : string := "2030-01-01T00:00:00Z".

Definition handle (req : json) (sv : Server) : Reply * Server :=
  receive_signal float_of_string fromisoformat exchange environ req sv.

Definition accepted (answer : Reply * Server) : Accepted :=
  match fst answer with
  | Success acc => acc
  | Error _ _ =>
      {| r_signal_id := ""; r_order_result := OrderFalsy;
         r_position_size := f0; r_entry_price := f0 |}
  end.

Definition validated (req : json) : Signal :=
  match fst (validate_signal float_of_string fromisoformat req tt) with
  | Ok (inr sg) => sg
  | _ =>
      {| s_signal_message := ""; s_is_buy := false; s_symbol := "";
         s_tp1 := f0; s_tp2 := f0; s_sl := f0; s_current_price := f0;
         s_max_exit_time := Naive 0 |}
  end.

Definition first_answer : Reply * Server := handle (payload "buy" utc_deadline) idle.
Definition second_answer : Reply * Server :=
  handle (payload "Buy" utc_deadline) (snd first_answer).

(** The monitor's pass over the sample registry, step by step. *)
Definition watched : Server := server (Aware 2000).
Definition after_price : Server :=
  snd (monitor_trader (get_current_price exchange "BTC") watched).
Definition after_position : Server :=
  snd (monitor_trader (get_position exchange "BTC") after_price).

(** A size of more decimals than the five of the symbol, and a price
    of more than five digits. *)
Definition size_0_123456 : float := Eval vm_compute in nearest false (123456 # 1000000).
Definition size_0_12346 : float := Eval vm_compute in nearest false (12346 # 100000).
Definition price_50123_456 : float := Eval vm_compute in nearest false (50123456 # 1000).
Definition price_50123 : float := Eval vm_compute in of_Z 50123.

End Sample.

(** ** Values of floats and of decimals

    The definitions that the properties of [fmt5g] and [py_round] are
    stated with: rounding onto a grid, and rounding to a floating format
    of a given base and precision. *)

(** Rounding to the nearest multiple of [c], ties to the even multiple. *)
Definition rgrid (c q : Q) : Q := (inject_Z (rne (q / c)) * c)%Q.

(** The exponent of the last digit kept is not below [emin], when the
    format has one. *)
Definition clamp (emin : option Z) (x : Z) : Z :=
  match emin with Some m => Z.max x m | None => x end.

(** A format of base [beta] keeps [p + 1] digits; [ilog] is the integer
    logarithm in that base. *)
Definition gexp (ilog : Q -> Z) (p : Z) (emin : option Z) (q : Q) : Z :=
  clamp emin (ilog q - p).

Definition fround (beta : Z) (ilog : Q -> Z) (p : Z) (emin : option Z) (q : Q) : Q :=
  rgrid (inject_Z beta ^ gexp ilog p emin q) q.

Definition in_format (beta : Z) (ilog : Q -> Z) (p : Z) (emin : option Z) (a : Q)
    : Prop :=
  exists n : Z, (a == inject_Z n * inject_Z beta ^ gexp ilog p emin a)%Q.

(** The value of the float nearest to [q]. *)
Definition fl (q : Q) : Q := fround 2 ilog2 52 (Some (-1074)) q.

(** [q] rounded to five significant decimal digits. *)
Definition r5 (q : Q) : Q := fround 10 ilog10 4 None q.

Definition gexp2 (q : Q) : Z := gexp ilog2 52 (Some (-1074)) q.
Definition gexp10 (q : Q) : Z := gexp ilog10 4 None q.

(** A value of at most five significant decimal digits. *)
Definition sig5 (a : Q) : Prop := in_format 10 ilog10 4 None a.

(** A binary64 value. *)
Definition float_value (a : Q) : Prop := in_format 2 ilog2 52 (Some (-1074)) a.

(** The significand that [nearest] computes. *)
Definition significand (q : Q) : Z := rne (q / pow2 (gexp2 q)).

(** The largest finite binary64 value. *)
Definition max_float : Z := (2 ^ 53 - 1) * 2 ^ 971.

(** The price that [format_price] computes from the printed price
    [formatted] for a symbol with [k] final decimals: the rounded value,
    and the printed one when the rounding raises. *)
Definition rounded_price (k : Z) (formatted : float) : float :=
  match py_round formatted k with
  | Ok r => r
  | Raise _ => formatted
  end.

(** ** The size adjustment as the specification states it *)

(** The size rounded to the size decimals of a symbol of the cache, and
    the size itself for a symbol that is not in it. *)
Definition rounded_size (sp : gmap string AssetSpec) (symbol : string)
    (size r : float) : Prop :=
  match sp !! symbol with
  | Some spec => py_round size (Z.of_N (sz_decimals spec)) = Ok r
  | None => r = size
  end.

(** [validate_and_adjust_size] returns 1.01 times the minimum order size
    when the size is below that minimum, and the rounded size otherwise;
    a minimum that could not be computed has no size below it. *)
Definition adjusted_as_specified (ex : Exchange) (sp : gmap string AssetSpec)
    (symbol : string) (size current_price : float) (st : TraderState) : Prop :=
  exists r,
    fst (validate_and_adjust_size ex symbol size current_price st) = Ok r
    /\ match fst (get_min_order_size ex symbol current_price st) with
       | Ok min_size =>
           if flt size min_size then r = fmul min_size f1_01
           else rounded_size sp symbol size r
       | Raise _ => rounded_size sp symbol size r
       end.

(** ** What an operation leaves unchanged

    [preserves R m] says that the state after [m] is related by [R] to
    the state before it, whether [m] returns or raises. *)
Definition preserves {S A : Type} (R : S -> S -> Prop) (m : Comp S A) : Prop :=
  forall st, R st (snd (m st)).

(** [m] never raises. *)
Definition returns {S A : Type} (m : Comp S A) : Prop :=
  forall st, exists a st', m st = (Ok a, st').

(** A trader that has only been read from: no order was submitted, the
    clock of SDK calls did not go back, and a loaded cache is kept. *)
Definition reads (st st' : TraderState) : Prop :=
  sent st' = sent st
  /\ (tick st <= tick st')%nat
  /\ (forall sp, _asset_specs st = Some sp -> _asset_specs st' = Some sp).

(** The value of [format_price] under the cache [sp]. *)
Definition format_with (sp : gmap string AssetSpec) (symbol : string)
    (price : float) : float :=
  match sp !! symbol with
  | Some spec =>
      rounded_price
        ((if 10000 <=? asset_id spec then 8 else 6) - Z.of_N (sz_decimals spec))
        (fmt5g price)
  | None => fmt5g price
  end.

(** The registry [d'] holds nothing that [d] does not hold. *)
Definition registry_within (d' d : list (string * TrackedPosition)) : Prop :=
  forall k v, dict_get k d' = Some v -> dict_get k d = Some v.

(** What the monitor may have done while it examined the entry
    [signal_id] of a position in [sym]: the entry may be gone from the
    registry, the flag is as it was, and at most [n] orders were added,
    each an immediate-or-cancel order for [sym]. *)
Definition entry_effect (signal_id sym : string) (n : nat) (sv sv' : Server) : Prop :=
  (active_positions sv' = active_positions sv
   \/ active_positions sv' = dict_remove signal_id (active_positions sv))
  /\ monitoring_active sv' = monitoring_active sv
  /\ exists new,
       orders sv' = orders sv ++ new /\ (length new <= n)%nat
       /\ Forall (fun req => o_symbol req = sym /\ o_tif req = Ioc) new.

(** What a pass of the monitor over [items] may have done. *)
Definition pass_effect (items : list (string * TrackedPosition)) (sv sv' : Server)
    : Prop :=
  registry_within (active_positions sv') (active_positions sv)
  /\ (length (active_positions sv') <= length (active_positions sv))%nat
  /\ monitoring_active sv' = monitoring_active sv
  /\ exists new,
       orders sv' = orders sv ++ new /\ (length new <= length items)%nat
       /\ Forall (fun req =>
                    o_tif req = Ioc
                    /\ exists id td, In (id, td) items /\ o_symbol req = symbol td)
            new.

(** A server that a request has only read from: the registry, the flag,
    the orders, the close log and the monitor's cache are as they were. *)
Definition untouched (sv sv' : Server) : Prop :=
  active_positions sv' = active_positions sv
  /\ monitoring_active sv' = monitoring_active sv
  /\ orders sv' = orders sv
  /\ closing sv' = closing sv
  /\ monitor_specs sv' = monitor_specs sv.

(** [c in s] for a character and a string. *)
Fixpoint has_char (c : ascii) (s : string) : bool :=
  match s with
  | EmptyString => false
  | String c' rest => Ascii.eqb c' c || has_char c rest
  end.

(** ** The diagnostic routes

    [/vault-balance], [/asset-specs] and [/test-price/<symbol>]; each
    creates a trader of its own for the request. *)

Module Routes.

Inductive RouteError : Type :=
  | Could_not_retrieve_vault_balance
  | Could_not_get_price (symbol : string)
  | Route_exception (e : exn).

Record PositionExample : Type := {
  pe_pct : Z;
  pe_usd : float;
  pe_btc : float
}.

Inductive VaultReply : Type :=
  | VaultError (status : Z) (kind : RouteError)
  | VaultOk (vault_info : VaultInfo) (btc_price : option float)
      (position_size_examples : list PositionExample).

Record AssetInfo : Type := {
  ai_symbol : string;
  ai_specs : AssetSpec;
  ai_current_price : float;
  ai_formatted_price : float;
  ai_buy_market_price : option float;
  ai_sell_market_price : option float;
  ai_min_order_size : float;
  ai_min_order_usd : float
}.

Inductive SpecsReply : Type :=
  | SpecsError (status : Z) (kind : RouteError)
  | SpecsOk (all_specs : gmap string AssetSpec) (sample_asset_info : list AssetInfo).

Record PriceTest : Type := {
  pt_original : float;
  pt_formatted : float;
  pt_buy_market : option float;
  pt_sell_market : option float
}.

Inductive PriceReply : Type :=
  | PriceError (status : Z) (kind : RouteError)
  | PriceOk (symbol : string) (current_price : float)
      (asset_specs : option AssetSpec) (price_tests : list PriceTest).

Definition f1_05 : float := Eval vm_compute in fdiv_ieee (of_Z 105) (of_Z 100).
Definition f0_95 : float := Eval vm_compute in fdiv_ieee (of_Z 95) (of_Z 100).

Section Routes.

Variable ex : Exchange.
Variable environ : Environ.

(** Lines 672-677: the loop over the percentages. *)
Fixpoint position_examples (pcts : list Z) (btc_price : float)
    : M (list PositionExample) :=
  match pcts with
  | [] => ret []
  | pct :: rest =>
      do sizes <- calculate_position_size ex "BTC" btc_price (of_Z pct);
      do usd <- lift (py_round (fst sizes) 2);
      do btc <- lift (py_round (snd sizes) 8);
      do more <- position_examples rest btc_price;
      ret ({| pe_pct := pct; pe_usd := usd; pe_btc := btc |} :: more)
  end.

(** [get_vault_balance], the handler of [/vault-balance]. *)
Definition get_vault_balance : Comp Server VaultReply :=
  try_except
    (do_ lift (load_config environ);
     request_trader
       (do_ call (trader_init ex);
        do vault_info <- get_vault_balance ex;
        match vault_info with
        | None => ret (VaultError 500 Could_not_retrieve_vault_balance)
        | Some vi =>
            do btc_price <- get_current_price ex "BTC";
            do examples <-
              (if some_truthy btc_price
               then position_examples [5; 10; 15; 20] (default f0 btc_price)
               else ret []);
            ret (VaultOk vi btc_price examples)
        end))
    (fun e => ret (VaultError 500 (Route_exception e))).

(** Lines 768-778: the loop over the test prices. *)
Fixpoint price_tests (symbol : string) (test_prices : list float)
    : M (list PriceTest) :=
  match test_prices with
  | [] => ret []
  | test_price :: rest =>
      do formatted <- format_price ex test_price symbol;
      do buy_market <- get_market_price ex symbol true;
      do sell_market <- get_market_price ex symbol false;
      do more <- price_tests symbol rest;
      ret ({| pt_original := test_price; pt_formatted := formatted;
              pt_buy_market := buy_market; pt_sell_market := sell_market |} :: more)
  end.

(** [test_price_formatting], the handler of [/test-price/<symbol>]. *)
Definition test_price_formatting (symbol : string) : Comp Server PriceReply :=
  try_except
    (do_ lift (load_config environ);
     request_trader
       (do_ call (trader_init ex);
        do current_price <- get_current_price ex symbol;
        if some_truthy current_price then
          let price := default f0 current_price in
          do results <-
            price_tests symbol [price; fmul price f1_05; fmul price f0_95];
          do asset_specs <- get_asset_specs ex;
          ret (PriceOk symbol price (asset_specs !! symbol) results)
        else ret (PriceError 404 (Could_not_get_price symbol))))
    (fun e => ret (PriceError 500 (Route_exception e))).

(** Lines 722-742: the loop over the sample assets. *)
Fixpoint sample_asset_info (symbols : list string)
    (asset_specs : gmap string AssetSpec) : M (list AssetInfo) :=
  match symbols with
  | [] => ret []
  | symbol :: rest =>
      do here <-
        match asset_specs !! symbol with
        | Some spec =>
            do current_price <- get_current_price ex symbol;
            if some_truthy current_price then
              let price := default f0 current_price in
              do min_size <- get_min_order_size ex symbol price;
              let min_usd := fmul min_size price in
              do formatted_price <- format_price ex price symbol;
              do buy_market_price <- get_market_price ex symbol true;
              do sell_market_price <- get_market_price ex symbol false;
              ret [ {| ai_symbol := symbol;
                       ai_specs := spec;
                       ai_current_price := price;
                       ai_formatted_price := formatted_price;
                       ai_buy_market_price := buy_market_price;
                       ai_sell_market_price := sell_market_price;
                       ai_min_order_size := min_size;
                       ai_min_order_usd := min_usd |} ]
            else ret []
        | None => ret []
        end;
      do more <- sample_asset_info rest asset_specs;
      ret (here ++ more)
  end.

(** [get_asset_specs], the handler of [/asset-specs]. *)
Definition get_asset_specs : Comp Server SpecsReply :=
  try_except
    (do_ lift (load_config environ);
     request_trader
       (do_ call (trader_init ex);
        do asset_specs <- get_asset_specs ex;
        do asset_info <-
          sample_asset_info ["BTC"; "ETH"; "SOL"; "VIRTUAL"]%string asset_specs;
        ret (SpecsOk asset_specs asset_info)))
    (fun e => ret (SpecsError 500 (Route_exception e))).

End Routes.

End Routes.

(** ** Further sample data

    An exchange that lists no position, a request for a second symbol,
    and a request whose message is a number. *)

Module Scenario.

Definition flat_exchange : Exchange :=
  {| info_meta := info_meta Sample.exchange;
     info_all_mids := info_all_mids Sample.exchange;
     info_user_state := fun _ =>
       Ok (Some {| assetPositions := Some [];
                   marginSummary := Some (Parsed (of_Z 1000));
                   withdrawable := Parsed (of_Z 1000) |});
     exchange_order := exchange_order Sample.exchange;
     datetime_now := datetime_now Sample.exchange;
     time_time := time_time Sample.exchange;
     trader_init := trader_init Sample.exchange |}.

Definition flat_after_price : Server :=
  snd (monitor_trader (get_current_price flat_exchange "BTC") Sample.watched).
Definition flat_after_position : Server :=
  snd (monitor_trader (get_position flat_exchange "BTC") flat_after_price).

Definition buy_answer : result (option float) * TraderState :=
  get_market_price Sample.exchange "BTC" true Sample.trader.

Definition buy_price : float :=
  match fst buy_answer with
  | Ok (Some mp) => mp
  | _ => f0
  end.

Definition payload_eth : json :=
  JObj [ ("Signal Message", JStr "sell"); ("Token Mentioned", JStr "eth");
         ("TP1", JInt 90); ("TP2", JInt 80); ("SL", JInt 110);
         ("Max Exit Time", JObj [("$date", JStr Sample.utc_deadline)]);
         ("Current Price", JInt 100) ]%string.

Definition eth_answer : Reply * Server :=
  Sample.handle payload_eth (snd Sample.first_answer).

Definition numeric_message : list (string * json) :=
  [ ("Signal Message", JInt 1); ("Token Mentioned", JStr "btc");
    ("TP1", JInt 110); ("TP2", JInt 120); ("SL", JInt 90);
    ("Max Exit Time", JObj [("$date", JStr Sample.utc_deadline)]) ]%string.

End Scenario.


(** A string of ASCII characters only.  On such a string [lower] and
    [upper] are [str.lower()] and [str.upper()]; a character outside
    ASCII they leave as it is, where Python may change it. *)
Fixpoint is_ascii (s : string) : bool :=
  match s with
  | EmptyString => true
  | String c rest => (nat_of_ascii c <? 128)%nat && is_ascii rest
  end.

(** ** Requests and positions at the edges

    A request whose token is a number, and the sample registry with a
    deadline that was given without a UTC offset. *)

Module Edge.


Definition naive_server : Server := Sample.server (Naive 2000).
Definition naive_after_price : Server :=
  snd (monitor_trader (get_current_price Sample.exchange "BTC") naive_server).
Definition naive_after_position : Server :=
  snd (monitor_trader (get_position Sample.exchange "BTC") naive_after_price).

Definition buy_answer : Reply * Server :=
  Sample.handle (Sample.payload "Buy" Sample.utc_deadline) Sample.idle.

End Edge.

(** * Properties *)

(** ** Rounding theory *)

(** [lra] with the halves it meets made explicit. *)
Ltac qlra := unfold Qdiv in *; change (/ 2)%Q with (1 # 2)%Q in *; lra.

Section Rne.
Open Scope Q_scope.

Lemma inject_Z_succ (n : Z) : inject_Z (n + 1) == inject_Z n + 1.
Proof. rewrite inject_Z_plus. reflexivity. Qed.

Lemma injZ_add (a b : Z) : inject_Z (a + b) == inject_Z a + inject_Z b.
Proof. rewrite inject_Z_plus. reflexivity. Qed.

Lemma injZ_opp (a : Z) : inject_Z (- a) == - inject_Z a.
Proof. rewrite inject_Z_opp. reflexivity. Qed.

Lemma injZ_mul (a b : Z) : inject_Z (a * b) == inject_Z a * inject_Z b.
Proof. rewrite inject_Z_mult. reflexivity. Qed.

Lemma Qfloor_bounds (q : Q) : inject_Z (Qfloor q) <= q < inject_Z (Qfloor q) + 1.
Proof.
  split; [apply Qfloor_le|].
  pose proof (Qlt_floor q) as H. pose proof (inject_Z_succ (Qfloor q)) as E. lra.
Qed.

Lemma inject_Z_lt_1 (a b : Z) : inject_Z a < inject_Z b + 1 -> (a <= b)%Z.
Proof.
  intros H. apply Z.lt_succ_r. rewrite Zlt_Qlt.
  pose proof (inject_Z_succ b) as E. unfold Z.succ. lra.
Qed.

Global Instance rne_proper : Proper (Qeq ==> eq) rne.
Proof.
  intros q q' H. unfold rne. rewrite (Qfloor_comp q q' H).
  assert (E : (q - inject_Z (Qfloor q') ?= 1 # 2) = (q' - inject_Z (Qfloor q') ?= 1 # 2)).
  { apply Qcompare_comp; [|reflexivity]. lra. }
  rewrite E. reflexivity.
Qed.

Ltac int_eq := apply Z.le_antisymm; apply inject_Z_lt_1; lra.

(** [rne q] is an integer nearest to [q], and the even one at a tie. *)
Lemma rne_char (q : Q) (n : Z) :
  rne q = n <->
  (inject_Z n - (1#2) < q < inject_Z n + (1#2))
  \/ (Z.even n = true /\ (q == inject_Z n + (1#2) \/ q == inject_Z n - (1#2))).
Proof.
  pose proof (Qfloor_bounds q) as [Hlo Hhi].
  unfold rne. set (f := Qfloor q) in *.
  pose proof (inject_Z_succ f) as Hs.
  assert (Hodd : Z.even (f + 1) = negb (Z.even f)).
  { rewrite Z.even_add. destruct (Z.even f); reflexivity. }
  destruct (Qcompare_spec (q - inject_Z f) (1#2)) as [He|Hl|Hg].
  - destruct (Z.even f) eqn:Ev.
    + split.
      * intros <-. right. split; [exact Ev|]. left. lra.
      * intros [[H1 H2]|[Hev [H|H]]]; [int_eq|int_eq|].
        assert (n = f + 1)%Z as -> by int_eq.
        rewrite Hodd in Hev. discriminate.
    + split.
      * intros <-. right. rewrite Hodd. split; [reflexivity|]. right. lra.
      * intros [[H1 H2]|[Hev [H|H]]].
        -- assert (n = f) as -> by int_eq. lra.
        -- assert (n = f) as -> by int_eq. congruence.
        -- int_eq.
  - split.
    + intros <-. left. lra.
    + intros [[H1 H2]|[Hev [H|H]]]; [int_eq| |int_eq].
      assert (n = f) as -> by int_eq. lra.
  - split.
    + intros <-. left. lra.
    + intros [[H1 H2]|[Hev [H|H]]]; [int_eq| |int_eq].
      assert (n = f) as -> by int_eq. lra.
Qed.

Lemma rne_err (q : Q) :
  inject_Z (rne q) - (1#2) <= q <= inject_Z (rne q) + (1#2).
Proof.
  destruct (proj1 (rne_char q (rne q)) eq_refl) as [H|[_ [H|H]]]; lra.
Qed.

Lemma rne_near (q : Q) (n : Z) :
  inject_Z n - (1#2) < q < inject_Z n + (1#2) -> rne q = n.
Proof. intros H. apply rne_char. left. exact H. Qed.

Lemma rne_Z (n : Z) : rne (inject_Z n) = n.
Proof. apply rne_near. lra. Qed.

Lemma rne_mono (q q' : Q) : q <= q' -> (rne q <= rne q')%Z.
Proof.
  intros H. pose proof (rne_err q) as E. pose proof (rne_err q') as E'.
  destruct (Z_le_gt_dec (rne q) (rne q')) as [|Hgt]; [assumption|].
  assert (Hge : inject_Z (rne q') + 1 <= inject_Z (rne q)).
  { pose proof (inject_Z_succ (rne q')) as Hs.
    assert (rne q' + 1 <= rne q)%Z as Hz by lia.
    rewrite Zle_Qle in Hz. lra. }
  assert (Heq : q == q') by lra.
  rewrite (rne_proper _ _ Heq) in Hgt. lia.
Qed.

Lemma rne_opp (q : Q) : rne (- q) = (- rne q)%Z.
Proof.
  apply rne_char. pose proof (injZ_opp (rne q)) as Ho.
  destruct (proj1 (rne_char q (rne q)) eq_refl) as [H|[Hev [H|H]]].
  - left. lra.
  - right. rewrite Z.even_opp. split; [exact Hev|]. right. lra.
  - right. rewrite Z.even_opp. split; [exact Hev|]. left. lra.
Qed.

Lemma rne_shift (q : Q) (k : Z) :
  rne (q + inject_Z (2 * k)) = (rne q + 2 * k)%Z.
Proof.
  apply rne_char. pose proof (injZ_add (rne q) (2 * k)) as Hp.
  assert (Hev2 : Z.even (rne q + 2 * k) = Z.even (rne q)).
  { rewrite Z.even_add, Z.even_mul. simpl. destruct (Z.even (rne q)); reflexivity. }
  destruct (proj1 (rne_char q (rne q)) eq_refl) as [H|[Hev [H|H]]].
  - left. lra.
  - right. rewrite Hev2. split; [exact Hev|]. left. lra.
  - right. rewrite Hev2. split; [exact Hev|]. right. lra.
Qed.

(** Reflection about an integer: ties included. *)
Lemma rne_reflect (q : Q) (n : Z) :
  rne (inject_Z (2 * n) - q) = (2 * n - rne q)%Z.
Proof.
  assert (H : inject_Z (2 * n) - q == - q + inject_Z (2 * n)) by lra.
  rewrite (rne_proper _ _ H), rne_shift, rne_opp. lia.
Qed.

Lemma rne_ge (q : Q) (n : Z) : inject_Z n <= q -> (n <= rne q)%Z.
Proof. intros H. rewrite <- (rne_Z n). apply rne_mono. exact H. Qed.

Lemma rne_le (q : Q) (n : Z) : q <= inject_Z n -> (rne q <= n)%Z.
Proof. intros H. rewrite <- (rne_Z n). apply rne_mono. exact H. Qed.

End Rne.

Section Grid.
Open Scope Q_scope.

Lemma Qdiv_mul_cancel (q c : Q) : 0 < c -> (q / c) * c == q.
Proof. intros H. field. lra. Qed.

Lemma Qmul_div_cancel (q c : Q) : 0 < c -> (q * c) / c == q.
Proof. intros H. field. lra. Qed.

Lemma Qdiv_le_mono (q q' c : Q) : 0 < c -> q <= q' -> q / c <= q' / c.
Proof.
  intros Hc H. unfold Qdiv. apply Qmult_le_compat_r; [exact H|].
  apply Qlt_le_weak, Qinv_lt_0_compat, Hc.
Qed.

Lemma rgrid_proper (c c' q q' : Q) :
  c == c' -> q == q' -> rgrid c q == rgrid c' q'.
Proof.
  intros Hc Hq. unfold rgrid.
  assert (E : q / c == q' / c') by (rewrite Hc, Hq; reflexivity).
  rewrite (rne_proper _ _ E). rewrite Hc. reflexivity.
Qed.

Lemma rgrid_err (c q : Q) :
  0 < c -> rgrid c q - c / 2 <= q <= rgrid c q + c / 2.
Proof.
  intros Hc. unfold rgrid. pose proof (rne_err (q / c)) as [H1 H2].
  pose proof (Qdiv_mul_cancel q c Hc) as E.
  set (x := q / c) in *. set (n := inject_Z (rne x)) in *.
  assert (A1 : (n - (1#2)) * c <= x * c) by (apply Qmult_le_compat_r; lra).
  assert (A2 : x * c <= (n + (1#2)) * c) by (apply Qmult_le_compat_r; lra).
  assert (R1 : (n - (1#2)) * c == n * c - c / 2) by field.
  assert (R2 : (n + (1#2)) * c == n * c + c / 2) by field.
  split; lra.
Qed.

Lemma rgrid_mono (c q q' : Q) : 0 < c -> q <= q' -> rgrid c q <= rgrid c q'.
Proof.
  intros Hc H. unfold rgrid.
  apply Qmult_le_compat_r; [|lra].
  rewrite <- Zle_Qle. apply rne_mono, Qdiv_le_mono; assumption.
Qed.

Lemma rgrid_multiple (c : Q) (n : Z) :
  0 < c -> rgrid c (inject_Z n * c) == inject_Z n * c.
Proof.
  intros Hc. unfold rgrid.
  rewrite (rne_proper _ _ (Qmul_div_cancel (inject_Z n) c Hc)), rne_Z. reflexivity.
Qed.

(** No multiple of [c] is nearer to [q] than [rgrid c q]. *)
Lemma rgrid_nearest_above (c q : Q) (n : Z) :
  0 < c -> q <= inject_Z n * c -> rgrid c q <= inject_Z n * c.
Proof.
  intros Hc H. rewrite <- (rgrid_multiple c n Hc). apply rgrid_mono; assumption.
Qed.

Lemma rgrid_nearest_below (c q : Q) (n : Z) :
  0 < c -> inject_Z n * c <= q -> inject_Z n * c <= rgrid c q.
Proof.
  intros Hc H. rewrite <- (rgrid_multiple c n Hc). apply rgrid_mono; assumption.
Qed.

Lemma rgrid_nonneg (c q : Q) : 0 < c -> 0 <= q -> 0 <= rgrid c q.
Proof.
  intros Hc H. pose proof (rgrid_nearest_below c q 0 Hc) as H0.
  change (inject_Z 0) with 0 in H0. lra.
Qed.

(** [rne x] is at least as near to [x] as any integer. *)
Lemma rne_closest_below (x : Q) (n : Z) :
  inject_Z n <= x -> inject_Z (rne x) <= 2 * x - inject_Z n.
Proof.
  intros H. pose proof (rne_err x) as [E1 E2].
  destruct (Z_le_gt_dec (rne x) n) as [Hle|Hgt].
  - rewrite Zle_Qle in Hle. lra.
  - assert (Hz : (n + 1 <= rne x)%Z) by lia.
    rewrite Zle_Qle in Hz. pose proof (inject_Z_succ n). lra.
Qed.

Lemma rne_closest_above (x : Q) (n : Z) :
  x <= inject_Z n -> 2 * x - inject_Z n <= inject_Z (rne x).
Proof.
  intros H. pose proof (rne_err x) as [E1 E2].
  destruct (Z_le_gt_dec n (rne x)) as [Hle|Hgt].
  - rewrite Zle_Qle in Hle. lra.
  - assert (Hz : (rne x + 1 <= n)%Z) by lia.
    rewrite Zle_Qle in Hz. pose proof (inject_Z_succ (rne x)). lra.
Qed.

Lemma rgrid_closest_below (c q : Q) (n : Z) :
  0 < c -> inject_Z n * c <= q -> rgrid c q <= 2 * q - inject_Z n * c.
Proof.
  intros Hc H. unfold rgrid.
  pose proof (Qdiv_mul_cancel q c Hc) as E.
  assert (Hx : inject_Z n <= q / c).
  { apply (Qmult_le_r _ _ c Hc). lra. }
  pose proof (rne_closest_below _ _ Hx) as Hr.
  assert (A : inject_Z (rne (q / c)) * c <= (2 * (q / c) - inject_Z n) * c).
  { apply Qmult_le_compat_r; lra. }
  assert (R : (2 * (q / c) - inject_Z n) * c == 2 * (q / c * c) - inject_Z n * c) by ring.
  lra.
Qed.

Lemma rgrid_closest_above (c q : Q) (n : Z) :
  0 < c -> q <= inject_Z n * c -> 2 * q - inject_Z n * c <= rgrid c q.
Proof.
  intros Hc H. unfold rgrid.
  pose proof (Qdiv_mul_cancel q c Hc) as E.
  assert (Hx : q / c <= inject_Z n).
  { apply (Qmult_le_r _ _ c Hc). lra. }
  pose proof (rne_closest_above _ _ Hx) as Hr.
  assert (A : (2 * (q / c) - inject_Z n) * c <= inject_Z (rne (q / c)) * c).
  { apply Qmult_le_compat_r; lra. }
  assert (R : (2 * (q / c) - inject_Z n) * c == 2 * (q / c * c) - inject_Z n * c) by ring.
  lra.
Qed.

End Grid.

Section Powers.
Open Scope Q_scope.

Variable b : Q.
Hypothesis Hb : 1 < b.

Lemma bpow_pos (k : Z) : 0 < b ^ k.
Proof. apply Qpower_0_lt. lra. Qed.

Lemma bpow_add (j k : Z) : b ^ (j + k) == b ^ j * b ^ k.
Proof. apply Qpower_plus. lra. Qed.

Lemma bpow_succ (k : Z) : b ^ (k + 1) == b ^ k * b.
Proof. rewrite bpow_add. reflexivity. Qed.

Lemma bpow_le (j k : Z) : (j <= k)%Z -> b ^ j <= b ^ k.
Proof. intros H. apply Qpower_le_compat_l; [exact H|lra]. Qed.

Lemma bpow_lt (j k : Z) : (j < k)%Z -> b ^ j < b ^ k.
Proof. intros H. apply Qpower_lt_compat_l; [exact H|lra]. Qed.

Lemma bpow_lt_inv (j k : Z) : b ^ j < b ^ k -> (j < k)%Z.
Proof. intros H. apply (Qpower_lt_compat_l_inv b); [exact H|lra]. Qed.

Lemma bpow_le_inv (j k : Z) : b ^ j <= b ^ k -> (j <= k)%Z.
Proof. intros H. apply (Qpower_le_compat_l_inv b); [exact H|lra]. Qed.

(** The integer logarithm is determined by its bounds. *)
Lemma ilog_unique (q : Q) (z z' : Z) :
  b ^ z <= q < b ^ (z + 1) -> b ^ z' <= q < b ^ (z' + 1) -> z = z'.
Proof.
  intros [H1 H2] [H3 H4].
  assert (z < z' + 1)%Z by (apply bpow_lt_inv; lra).
  assert (z' < z + 1)%Z by (apply bpow_lt_inv; lra).
  lia.
Qed.

Lemma ilog_le (q q' : Q) (z z' : Z) :
  b ^ z <= q < b ^ (z + 1) -> b ^ z' <= q' < b ^ (z' + 1) -> q <= q' ->
  (z <= z')%Z.
Proof.
  intros [H1 H2] [H3 H4] H.
  assert (z < z' + 1)%Z by (apply bpow_lt_inv; lra).
  lia.
Qed.

End Powers.

Section Logs.
Open Scope Q_scope.

Lemma pow2_pos (k : Z) : 0 < pow2 k.
Proof. apply bpow_pos. reflexivity. Qed.

Lemma pow10_pos (k : Z) : 0 < pow10 k.
Proof. apply bpow_pos. reflexivity. Qed.

Lemma pow2_Z (k : Z) : (0 <= k)%Z -> pow2 k == inject_Z (2 ^ k).
Proof. intros H. unfold pow2. rewrite (Zpower_Qpower 2 k H). reflexivity. Qed.

Lemma pow10_Z (k : Z) : (0 <= k)%Z -> pow10 k == inject_Z (10 ^ k).
Proof. intros H. unfold pow10. rewrite (Zpower_Qpower 10 k H). reflexivity. Qed.

Lemma Q_as_fraction (q : Q) : q * inject_Z (Zpos (Qden q)) == inject_Z (Qnum q).
Proof.
  destruct q as [n d]. unfold Qeq, Qmult, inject_Z. simpl. lia.
Qed.

Lemma ilog2_spec (q : Q) : 0 < q -> pow2 (ilog2 q) <= q < pow2 (ilog2 q + 1).
Proof.
  intros Hq.
  pose proof (Q_as_fraction q) as Hf.
  set (n := Qnum q) in *. set (d := Zpos (Qden q)) in *.
  assert (Hn : (0 < n)%Z).
  { destruct q as [n' d']. unfold Qlt in Hq. simpl in *. subst n. lia. }
  assert (Hd : (0 < d)%Z) by (subst d; lia).
  pose proof (Z.log2_spec n Hn) as [Hn1 Hn2].
  pose proof (Z.log2_spec d Hd) as [Hd1 Hd2].
  pose proof (Z.log2_nonneg n) as Hln. pose proof (Z.log2_nonneg d) as Hld.
  unfold Z.succ in *.
  rewrite Zle_Qle in Hn1, Hd1. rewrite Zlt_Qlt in Hn2, Hd2.
  rewrite <- pow2_Z in Hn1, Hn2, Hd1, Hd2 by lia.
  assert (HdQ : 0 < inject_Z d) by (rewrite <- (Zlt_Qlt 0); exact Hd).
  unfold ilog2. fold n d. set (a := Z.log2 n) in *. set (c := Z.log2 d) in *.
  assert (Hup : q < pow2 (a - c + 1)).
  { assert (E : pow2 (a + 1) == pow2 (a - c + 1) * pow2 c).
    { unfold pow2. rewrite <- bpow_add by reflexivity. 
      replace (a - c + 1 + c)%Z with (a + 1)%Z by lia. reflexivity. }
    pose proof (pow2_pos (a - c + 1)) as Hp.
    assert (A : pow2 (a - c + 1) * pow2 c <= pow2 (a - c + 1) * inject_Z d).
    { apply Qmult_le_l; assumption. }
    apply (Qmult_lt_r _ _ (inject_Z d) HdQ). lra. }
  assert (Hlow : pow2 (a - c - 1) <= q).
  { assert (E : pow2 a == pow2 (a - c - 1) * pow2 (c + 1)).
    { unfold pow2. rewrite <- bpow_add by reflexivity.
      replace (a - c - 1 + (c + 1))%Z with a by lia. reflexivity. }
    pose proof (pow2_pos (a - c - 1)) as Hp.
    assert (A : pow2 (a - c - 1) * inject_Z d <= pow2 (a - c - 1) * pow2 (c + 1)).
    { apply Qmult_le_l; lra. }
    apply (Qmult_le_r _ _ (inject_Z d) HdQ). lra. }
  destruct (Qle_bool (pow2 (a - c)) q) eqn:Hb.
  - apply Qle_bool_iff in Hb. split; assumption.
  - assert (Hlt : q < pow2 (a - c)).
    { apply Qnot_le_lt. intros H. apply Qle_bool_iff in H. congruence. }
    replace (a - c - 1 + 1)%Z with (a - c)%Z by lia. split; assumption.
Qed.

End Logs.

Section Log10.
Open Scope Q_scope.

Lemma Qle_bool_false (a b : Q) : Qle_bool a b = false -> b < a.
Proof.
  intros H. apply Qnot_le_lt. intros H'. apply Qle_bool_iff in H'. congruence.
Qed.

Lemma pow2_le_pow10 (n : Z) : (0 <= n)%Z -> pow2 n <= pow10 n.
Proof.
  intros H. rewrite pow2_Z, pow10_Z by exact H. rewrite <- Zle_Qle.
  apply Z.pow_le_mono_l. lia.
Qed.

Lemma pow10_le_pow2_neg (n : Z) : (0 <= n)%Z -> pow10 (- n) <= pow2 (- n).
Proof.
  intros H. unfold pow10, pow2. rewrite !Qpower_opp.
  pose proof (pow2_le_pow10 n H) as Hle.
  pose proof (pow2_pos n) as H2. pose proof (pow10_pos n) as H10.
  unfold pow2, pow10 in *.
  apply (Qmult_le_r _ _ (10 ^ n) H10).
  rewrite Qmult_comm, Qmult_inv_r by lra.
  apply (Qmult_le_r _ _ (2 ^ n) H2).
  assert (E : / 2 ^ n * 10 ^ n * 2 ^ n == 10 ^ n) by (field; lra).
  lra.
Qed.

Lemma ilog10_from_spec (fuel : nat) (z : Z) (q : Q) :
  q < pow10 (z + 1) -> pow10 (z - Z.of_nat fuel) <= q ->
  pow10 (ilog10_from fuel z q) <= q < pow10 (ilog10_from fuel z q + 1).
Proof.
  revert z. induction fuel as [|fuel IH]; intros z Hup Hlow.
  - simpl. replace (z - Z.of_nat 0)%Z with z in Hlow by lia. split; assumption.
  - simpl ilog10_from. destruct (Qle_bool (pow10 z) q) eqn:Hb.
    + apply Qle_bool_iff in Hb. split; assumption.
    + apply Qle_bool_false in Hb. apply IH.
      * replace (z - 1 + 1)%Z with z by lia. exact Hb.
      * replace (z - 1 - Z.of_nat fuel)%Z with (z - Z.of_nat (S fuel))%Z by lia.
        exact Hlow.
Qed.

Lemma in_decade_spec (z : Z) (q : Q) :
  in_decade z q = true -> pow10 z <= q < pow10 (z + 1).
Proof.
  unfold in_decade. intros H. apply andb_true_iff in H as [H1 H2].
  apply Qle_bool_iff in H1. apply negb_true_iff, Qle_bool_false in H2.
  split; assumption.
Qed.

Lemma ilog10_spec (q : Q) : 0 < q -> pow10 (ilog10 q) <= q < pow10 (ilog10 q + 1).
Proof.
  intros Hq. unfold ilog10.
  destruct (in_decade _ q) eqn:E1; [apply in_decade_spec, E1|].
  destruct (in_decade (_ + 1) q) eqn:E2; [apply in_decade_spec, E2|].
  destruct (in_decade (_ - 1) q) eqn:E3; [apply in_decade_spec, E3|].
  pose proof (ilog2_spec q Hq) as [L U].
  set (z := ilog2 q) in *. set (b := (Z.abs z + 1)%Z).
  apply ilog10_from_spec.
  - assert (pow2 (z + 1) <= pow2 b) by (apply bpow_le; [reflexivity|lia]).
    assert (pow2 b <= pow10 b) by (apply pow2_le_pow10; lia).
    assert (pow10 b < pow10 (b + 1)) by (apply bpow_lt; [reflexivity|lia]).
    lra.
  - rewrite Z2Nat.id by lia. replace (b - 2 * b)%Z with (- b)%Z by lia.
    assert (pow10 (- b) <= pow2 (- b)) by (apply pow10_le_pow2_neg; lia).
    assert (pow2 (- b) <= pow2 z) by (apply bpow_le; [reflexivity|lia]).
    lra.
Qed.

Lemma ilog2_unique (q : Q) (z : Z) : pow2 z <= q < pow2 (z + 1) -> ilog2 q = z.
Proof.
  intros H. assert (Hq : 0 < q) by (pose proof (pow2_pos z); lra).
  apply (ilog_unique 2 ltac:(reflexivity) q); [apply ilog2_spec, Hq|exact H].
Qed.

Lemma ilog10_unique (q : Q) (z : Z) : pow10 z <= q < pow10 (z + 1) -> ilog10 q = z.
Proof.
  intros H. assert (Hq : 0 < q) by (pose proof (pow10_pos z); lra).
  apply (ilog_unique 10 ltac:(reflexivity) q); [apply ilog10_spec, Hq|exact H].
Qed.

Lemma ilog2_mono (q q' : Q) : 0 < q -> q <= q' -> (ilog2 q <= ilog2 q')%Z.
Proof.
  intros Hq H.
  apply (ilog_le 2 ltac:(reflexivity) q q'); [apply ilog2_spec|apply ilog2_spec|]; lra.
Qed.

Lemma ilog10_mono (q q' : Q) : 0 < q -> q <= q' -> (ilog10 q <= ilog10 q')%Z.
Proof.
  intros Hq H.
  apply (ilog_le 10 ltac:(reflexivity) q q'); [apply ilog10_spec|apply ilog10_spec|]; lra.
Qed.

Lemma ilog2_proper (q q' : Q) : 0 < q -> q == q' -> ilog2 q = ilog2 q'.
Proof.
  intros Hq H. symmetry. apply ilog2_unique. pose proof (ilog2_spec q Hq). lra.
Qed.

Lemma ilog10_proper (q q' : Q) : 0 < q -> q == q' -> ilog10 q = ilog10 q'.
Proof.
  intros Hq H. symmetry. apply ilog10_unique. pose proof (ilog10_spec q Hq). lra.
Qed.

End Log10.

(** ** Rounding to a floating format

    A format of base [beta] keeps [p + 1] digits: the value [q] is rounded
    on the grid of step [beta ^ gexp q], where [gexp q] is the exponent of
    the last digit kept, not below [emin] when there is one. *)

Section Format.
Open Scope Q_scope.

Variable beta : Z.
Hypothesis Hbeta : (2 <= beta)%Z.
Variable ilog : Q -> Z.
Hypothesis ilog_spec :
  forall q, 0 < q -> inject_Z beta ^ ilog q <= q < inject_Z beta ^ (ilog q + 1).
Variable p : Z.
Hypothesis Hp : (0 <= p)%Z.
Variable emin : option Z.

Local Abbreviation b := (inject_Z beta).
Local Abbreviation clamp := (clamp emin).
Local Abbreviation gexp := (gexp ilog p emin).
Local Abbreviation fround := (fround beta ilog p emin).
Local Abbreviation in_format := (in_format beta ilog p emin).

Lemma base_gt_1 : 1 < b.
Proof. change 1 with (inject_Z 1). rewrite <- Zlt_Qlt. lia. Qed.

Lemma bp_pos (k : Z) : 0 < b ^ k.
Proof. apply bpow_pos, base_gt_1. Qed.

Lemma bp_nested (j k : Z) :
  (j <= k)%Z -> b ^ k == inject_Z (beta ^ (k - j)) * b ^ j.
Proof.
  intros H. rewrite (Zpower_Qpower beta (k - j)) by lia.
  rewrite <- bpow_add by apply base_gt_1.
  replace (k - j + j)%Z with k by lia. reflexivity.
Qed.

Lemma multiple_nested (j k n : Z) :
  (j <= k)%Z -> exists n', inject_Z n * b ^ k == inject_Z n' * b ^ j.
Proof.
  intros H. exists (n * beta ^ (k - j))%Z.
  rewrite (bp_nested j k H), injZ_mul. ring.
Qed.

Lemma clamp_ge (x : Z) : (x <= clamp x)%Z.
Proof. unfold clamp. destruct emin; lia. Qed.

Lemma clamp_mono (x y : Z) : (x <= y)%Z -> (clamp x <= clamp y)%Z.
Proof. unfold clamp. destruct emin; lia. Qed.

Lemma clamp_lt_exact (x y : Z) : (clamp x < clamp y)%Z -> clamp y = y /\ (x < y)%Z.
Proof. unfold clamp. destruct emin; lia. Qed.

Lemma clamp_idem (x : Z) : (clamp (clamp x - p) <= clamp x)%Z.
Proof. unfold clamp. destruct emin; lia. Qed.

Lemma clamp_succ (x : Z) : clamp (x + 1) = (x + 1)%Z \/ clamp (x + 1) = clamp x.
Proof. unfold clamp. destruct emin; lia. Qed.

Lemma ilog_mono (q q' : Q) : 0 < q -> q <= q' -> (ilog q <= ilog q')%Z.
Proof.
  intros Hq H.
  apply (ilog_le b base_gt_1 q q'); [apply ilog_spec|apply ilog_spec|]; lra.
Qed.

Lemma ilog_uniq (q : Q) (z : Z) : b ^ z <= q < b ^ (z + 1) -> ilog q = z.
Proof.
  intros H. assert (Hq : 0 < q) by (pose proof (bp_pos z); lra).
  apply (ilog_unique b base_gt_1 q); [apply ilog_spec, Hq|exact H].
Qed.

Lemma ilog_proper (q q' : Q) : 0 < q -> q == q' -> ilog q = ilog q'.
Proof.
  intros Hq H. symmetry. apply ilog_uniq. pose proof (ilog_spec q Hq). lra.
Qed.

Lemma gexp_mono (q q' : Q) : 0 < q -> q <= q' -> (gexp q <= gexp q')%Z.
Proof.
  intros Hq H. unfold gexp. apply clamp_mono.
  pose proof (ilog_mono q q' Hq H). lia.
Qed.

Lemma gexp_proper (q q' : Q) : 0 < q -> q == q' -> gexp q = gexp q'.
Proof. intros Hq H. unfold gexp. rewrite (ilog_proper q q' Hq H). reflexivity. Qed.

Lemma fround_proper (q q' : Q) : 0 < q -> q == q' -> fround q == fround q'.
Proof.
  intros Hq H. unfold fround. rewrite (gexp_proper q q' Hq H).
  apply rgrid_proper; [reflexivity|exact H].
Qed.

(** Where the exponent changes between [q] and [q'], a power of the base
    lies between them, and it is on both grids. *)
Lemma gexp_lt_power (q q' : Q) :
  0 < q -> 0 < q' -> (gexp q < gexp q')%Z ->
  q < b ^ ilog q' /\ b ^ ilog q' <= q'
  /\ (gexp q < ilog q')%Z /\ (gexp q' <= ilog q')%Z.
Proof.
  intros Hq Hq' Hlt. unfold gexp in *.
  apply clamp_lt_exact in Hlt as Hc. destruct Hc as [Hex Hz].
  pose proof (ilog_spec q Hq) as [L U]. pose proof (ilog_spec q' Hq') as [L' U'].
  assert (Hpow : b ^ (ilog q + 1) <= b ^ ilog q').
  { apply bpow_le; [apply base_gt_1|lia]. }
  repeat split; try lra; lia.
Qed.

Lemma fround_mono (q q' : Q) : 0 < q -> q <= q' -> fround q <= fround q'.
Proof.
  intros Hq H. assert (Hq' : 0 < q') by lra.
  pose proof (gexp_mono q q' Hq H) as He.
  destruct (Z.eq_dec (gexp q) (gexp q')) as [E|E].
  - unfold fround. rewrite E. apply rgrid_mono; [apply bp_pos|exact H].
  - destruct (gexp_lt_power q q' Hq Hq' ltac:(lia)) as (H1 & H2 & H3 & H4).
    apply (Qle_trans _ (b ^ ilog q')).
    + unfold fround.
      destruct (multiple_nested (gexp q) (ilog q') 1 ltac:(lia)) as [n' En].
      rewrite Qmult_1_l in En. rewrite En. apply rgrid_nearest_above; [apply bp_pos|].
      rewrite <- En. lra.
    + unfold fround.
      destruct (multiple_nested (gexp q') (ilog q') 1 ltac:(lia)) as [n' En].
      rewrite Qmult_1_l in En. rewrite En. apply rgrid_nearest_below; [apply bp_pos|].
      rewrite <- En. lra.
Qed.

Lemma fround_fix (a : Q) : in_format a -> fround a == a.
Proof.
  intros [n Hn]. unfold fround.
  rewrite (rgrid_proper _ _ _ _ (Qeq_refl _) Hn).
  rewrite rgrid_multiple by apply bp_pos. symmetry. exact Hn.
Qed.

Lemma fround_nonneg (q : Q) : 0 <= q -> 0 <= fround q.
Proof. intros H. apply rgrid_nonneg; [apply bp_pos|exact H]. Qed.

Lemma fround_err (q : Q) :
  fround q - b ^ gexp q / 2 <= q <= fround q + b ^ gexp q / 2.
Proof. apply rgrid_err, bp_pos. Qed.

(** A format value above [q] is on the grid of [q]. *)
Lemma in_format_on_grid (a q : Q) :
  in_format a -> 0 < q -> q <= a -> exists n, a == inject_Z n * b ^ gexp q.
Proof.
  intros [n Hn] Hq H.
  destruct (multiple_nested (gexp q) (gexp a) n (gexp_mono q a Hq H)) as [n' En].
  exists n'. rewrite <- En. exact Hn.
Qed.

Lemma in_format_intro (a : Q) (n j : Z) :
  a == inject_Z n * b ^ j -> (gexp a <= j)%Z -> in_format a.
Proof.
  intros Ha Hj. destruct (multiple_nested (gexp a) j n Hj) as [n' En].
  exists n'. rewrite <- En. exact Ha.
Qed.

Lemma fround_closest_above (a q : Q) :
  in_format a -> 0 < q -> q <= a -> 2 * q - a <= fround q /\ fround q <= a.
Proof.
  intros Ha Hq H. destruct (in_format_on_grid a q Ha Hq H) as [n Hn].
  unfold fround. rewrite Hn in H |- *. split.
  - apply rgrid_closest_above; [apply bp_pos|exact H].
  - apply rgrid_nearest_above; [apply bp_pos|exact H].
Qed.

Lemma fround_closest_below (a q : Q) :
  in_format a -> 0 < a -> a <= q -> a <= fround q /\ fround q <= 2 * q - a.
Proof.
  intros Ha Hq H. assert (Hq' : 0 < q) by lra.
  pose proof (gexp_mono a q Hq H) as He.
  destruct (Z.eq_dec (gexp a) (gexp q)) as [E|E].
  - destruct Ha as [n Hn]. rewrite E in Hn. unfold fround.
    rewrite Hn in H |- *. split.
    + apply rgrid_nearest_below; [apply bp_pos|exact H].
    + apply rgrid_closest_below; [apply bp_pos|exact H].
  - destruct (gexp_lt_power a q Hq Hq' ltac:(lia)) as (H1 & H2 & H3 & H4).
    destruct (multiple_nested (gexp q) (ilog q) 1 H4) as [n' En].
    rewrite Qmult_1_l in En. unfold fround. rewrite En in H1, H2. split.
    + apply (Qle_trans _ (inject_Z n' * b ^ gexp q)); [lra|].
      apply rgrid_nearest_below; [apply bp_pos|exact H2].
    + pose proof (rgrid_closest_below (b ^ gexp q) q n' (bp_pos _) H2). lra.
Qed.

(** The rounded value is a value of the format. *)
Lemma fround_in_format (q : Q) : 0 < q -> 0 < fround q -> in_format (fround q).
Proof.
  intros Hq Hr. pose proof (ilog_spec q Hq) as [L U].
  set (z := ilog q) in *. set (e := gexp q).
  assert (He : e = clamp (z - p)) by reflexivity.
  pose proof (bp_pos e) as Hc.
  destruct (Z_le_gt_dec e z) as [Hez|Hez].
  - destruct (multiple_nested e z 1 Hez) as [n1 E1]. rewrite Qmult_1_l in E1.
    destruct (multiple_nested e (z + 1) 1 ltac:(lia)) as [n2 E2].
    rewrite Qmult_1_l in E2.
    assert (Hlo : b ^ z <= fround q).
    { unfold fround. fold e. rewrite E1. apply rgrid_nearest_below; [exact Hc|].
      rewrite <- E1. exact L. }
    assert (Hhi : fround q <= b ^ (z + 1)).
    { unfold fround. fold e. rewrite E2. apply rgrid_nearest_above; [exact Hc|].
      rewrite <- E2. lra. }
    destruct (Qlt_le_dec (fround q) (b ^ (z + 1))) as [Hlt|Hge].
    + assert (Ez : ilog (fround q) = z) by (apply ilog_uniq; split; assumption).
      exists (rne (q / b ^ e)). unfold gexp. rewrite Ez. fold z. rewrite <- He.
      reflexivity.
    + assert (Eq : fround q == b ^ (z + 1)) by lra.
      assert (Ez : ilog (fround q) = (z + 1)%Z).
      { apply ilog_uniq. split; [lra|].
        assert (b ^ (z + 1) < b ^ (z + 1 + 1)) by (apply bpow_lt; [apply base_gt_1|lia]).
        lra. }
      apply (in_format_intro _ 1 (z + 1)); [rewrite Qmult_1_l; exact Eq|].
      unfold gexp. rewrite Ez.
      replace (z + 1 - p)%Z with (z - p + 1)%Z by lia.
      destruct (clamp_succ (z - p)) as [-> | ->]; lia.
  - assert (Hqc : q < b ^ e).
    { assert (b ^ (z + 1) <= b ^ e) by (apply bpow_le; [apply base_gt_1|lia]). lra. }
    assert (Hn1 : (rne (q / b ^ e) <= 1)%Z).
    { apply rne_le. apply (Qmult_le_r _ _ (b ^ e) Hc).
      rewrite Qdiv_mul_cancel by exact Hc. change (inject_Z 1) with 1. lra. }
    assert (Hn0 : (1 <= rne (q / b ^ e))%Z).
    { unfold fround in Hr. fold e in Hr. unfold rgrid in Hr.
      destruct (Z_le_gt_dec 1 (rne (q / b ^ e))) as [|Hgt]; [assumption|].
      assert (Hz : (rne (q / b ^ e) <= 0)%Z) by lia.
      rewrite Zle_Qle in Hz. change (inject_Z 0) with 0 in Hz.
      assert (inject_Z (rne (q / b ^ e)) * b ^ e <= 0 * b ^ e).
      { apply Qmult_le_compat_r; lra. }
      lra. }
    assert (Eq : fround q == b ^ e).
    { unfold fround. fold e. unfold rgrid.
      replace (rne (q / b ^ e)) with 1%Z by lia. change (inject_Z 1) with 1. ring. }
    assert (Ez : ilog (fround q) = e).
    { apply ilog_uniq. split; [lra|].
      assert (b ^ e < b ^ (e + 1)) by (apply bpow_lt; [apply base_gt_1|lia]).
      lra. }
    apply (in_format_intro _ 1 e); [rewrite Qmult_1_l; exact Eq|].
    unfold gexp. rewrite Ez, He. apply clamp_idem.
Qed.

Lemma fround_idem (q : Q) :
  0 < q -> 0 < fround q -> fround (fround q) == fround q.
Proof. intros Hq Hr. apply fround_fix, fround_in_format; assumption. Qed.

(** Two values of the format are at least one step of the lower apart. *)
Lemma format_spacing (a a' : Q) :
  in_format a -> in_format a' -> 0 < a -> a < a' -> a + b ^ gexp a <= a'.
Proof.
  intros [n Hn] Ha' Ha Hlt.
  destruct (in_format_on_grid a' a Ha' Ha ltac:(lra)) as [n' Hn'].
  pose proof (bp_pos (gexp a)) as Hc.
  assert (Hnn : (n < n')%Z).
  { rewrite Zlt_Qlt. apply (Qmult_lt_r _ _ (b ^ gexp a) Hc). lra. }
  assert (Hs : (n + 1 <= n')%Z) by lia.
  rewrite Zle_Qle, inject_Z_succ in Hs.
  assert ((inject_Z n + 1) * b ^ gexp a <= inject_Z n' * b ^ gexp a).
  { apply Qmult_le_compat_r; lra. }
  assert (R : (inject_Z n + 1) * b ^ gexp a == inject_Z n * b ^ gexp a + b ^ gexp a) by ring.
  lra.
Qed.

(** Away from [emin] the step is at most [q / beta ^ p]. *)
Lemma step_le (q : Q) :
  0 < q -> gexp q = (ilog q - p)%Z -> b ^ gexp q * b ^ p <= q.
Proof.
  intros Hq E. rewrite E, <- bpow_add by apply base_gt_1.
  replace (ilog q - p + p)%Z with (ilog q) by lia. apply ilog_spec, Hq.
Qed.

Lemma step_gt (q : Q) : 0 < q -> q < b ^ gexp q * b ^ (p + 1).
Proof.
  intros Hq. rewrite <- bpow_add by apply base_gt_1.
  pose proof (ilog_spec q Hq) as [_ U].
  assert (b ^ (ilog q + 1) <= b ^ (gexp q + (p + 1))).
  { apply bpow_le; [apply base_gt_1|]. unfold gexp.
    pose proof (clamp_ge (ilog q - p)). lia. }
  lra.
Qed.

Lemma fround_le_double (q : Q) : 0 <= q -> fround q <= 2 * q.
Proof.
  intros Hq. unfold fround.
  pose proof (rgrid_closest_below (b ^ gexp q) q 0 (bp_pos _)) as H.
  change (inject_Z 0) with 0 in H. lra.
Qed.

(** A positive rounded value is at least one step. *)
Lemma fround_ge_step (q : Q) : 0 < fround q -> b ^ gexp q <= fround q.
Proof.
  intros Hr. unfold fround, rgrid in *. pose proof (bp_pos (gexp q)) as Hc.
  set (n := rne (q / b ^ gexp q)) in *.
  destruct (Z_le_gt_dec 1 n) as [Hn|Hn].
  - rewrite Zle_Qle in Hn. change (inject_Z 1) with 1 in Hn.
    assert (1 * b ^ gexp q <= inject_Z n * b ^ gexp q).
    { apply Qmult_le_compat_r; lra. }
    lra.
  - assert (Hz : (n <= 0)%Z) by lia.
    rewrite Zle_Qle in Hz. change (inject_Z 0) with 0 in Hz.
    assert (inject_Z n * b ^ gexp q <= 0 * b ^ gexp q).
    { apply Qmult_le_compat_r; lra. }
    lra.
Qed.

Lemma fround_lower (q : Q) : 0 < fround q -> q <= (3 # 2) * fround q.
Proof.
  intros Hr. pose proof (fround_ge_step q Hr) as H1.
  pose proof (fround_err q) as [_ H2].
  set (c := b ^ gexp q) in *. set (r := fround q) in *. qlra.
Qed.

(** If [A] rounds down to [y] and [A'] is below [y], no farther from it
    than [A], then [A'] rounds up to [y], unless [y] is a power of the
    base, below which the grid is finer. *)
Lemma crux_down (A A' y : Q) :
  0 < A' -> A' <= y -> y <= A -> y == fround A -> y - A' <= A - y ->
  fround A' == y
  \/ (A - A' <= b ^ gexp y /\ b ^ gexp y * b ^ p == y
      /\ y - b ^ gexp y / 2 <= A' /\ A' < y).
Proof.
  intros HA' H1 H2 Hy Hd.
  assert (Hy0 : 0 < y) by qlra. assert (HA : 0 < A) by qlra.
  pose proof (gexp_mono y A Hy0 H2) as Hge.
  assert (HeA : gexp A = gexp y).
  { destruct (Z.eq_dec (gexp A) (gexp y)) as [E|E]; [exact E|].
    destruct (gexp_lt_power y A Hy0 HA ltac:(lia)) as (P1 & P2 & P3 & P4).
    destruct (multiple_nested (gexp A) (ilog A) 1 P4) as [n' En].
    rewrite Qmult_1_l in En.
    assert (b ^ ilog A <= fround A).
    { unfold fround. rewrite En. apply rgrid_nearest_below; [apply bp_pos|].
      rewrite <- En. exact P2. }
    qlra. }
  set (c := b ^ gexp y) in *. pose proof (bp_pos (gexp y)) as Hc. fold c in Hc.
  set (n := rne (A / c)).
  assert (Hyn : y == inject_Z n * c).
  { rewrite Hy. unfold fround, rgrid. rewrite HeA. reflexivity. }
  assert (HerrA : A - y <= c / 2).
  { pose proof (fround_err A) as [_ E]. rewrite HeA in E. fold c in E. qlra. }
  pose proof (gexp_mono A' y HA' H1) as Hge'.
  destruct (Z.eq_dec (gexp A') (gexp y)) as [E|E].
  - left. unfold fround. rewrite E. fold c. unfold rgrid. rewrite Hyn.
    assert (Hr : rne (A' / c) = n).
    { apply Z.le_antisymm.
      - apply rne_le. apply (Qmult_le_r _ _ c Hc).
        rewrite Qdiv_mul_cancel by exact Hc. qlra.
      - assert (Hrefl : rne (inject_Z (2 * n) - A / c) = n).
        { rewrite rne_reflect. fold n. lia. }
        rewrite <- Hrefl. apply rne_mono.
        apply (Qmult_le_r _ _ c Hc).
        rewrite Qdiv_mul_cancel by exact Hc.
        assert (R : (inject_Z (2 * n) - A / c) * c == 2 * (inject_Z n * c) - A / c * c).
        { rewrite injZ_mul. change (inject_Z 2) with 2. ring. }
        rewrite R, Qdiv_mul_cancel by exact Hc. qlra. }
    rewrite Hr. reflexivity.
  - right.
    destruct (gexp_lt_power A' y HA' Hy0 ltac:(lia)) as (P1 & P2 & P3 & P4).
    assert (Hex : gexp y = (ilog y - p)%Z).
    { unfold gexp in *. apply (clamp_lt_exact (ilog A' - p)). lia. }
    destruct (multiple_nested (gexp y) (ilog y) 1 P4) as [n' En].
    rewrite Qmult_1_l in En. fold c in En.
    assert (Hpow : y == b ^ ilog y).
    { destruct (Qlt_le_dec (b ^ ilog y) y) as [Hlt|Hle]; [|qlra].
      exfalso. rewrite En, Hyn in Hlt.
      assert (Hnn : (n' < n)%Z).
      { rewrite Zlt_Qlt. apply (Qmult_lt_r _ _ c Hc). exact Hlt. }
      assert (Hs : (n' + 1 <= n)%Z) by lia.
      rewrite Zle_Qle, inject_Z_succ in Hs.
      assert ((inject_Z n' + 1) * c <= inject_Z n * c).
      { apply Qmult_le_compat_r; qlra. }
      assert (R : (inject_Z n' + 1) * c == inject_Z n' * c + c) by ring.
      rewrite En in P1. qlra. }
    repeat split; try qlra.
    unfold c. rewrite Hex, <- bpow_add by apply base_gt_1.
    replace (ilog y - p + p)%Z with (ilog y) by lia. symmetry. exact Hpow.
Qed.

(** The mirror image has no exception: above [y] the grid is not finer. *)
Lemma crux_up (A A' y : Q) :
  0 < A -> A <= y -> y <= A' -> 0 < y -> y == fround A -> A' - y <= y - A ->
  fround A' == y.
Proof.
  intros HA H1 H2 Hy0 Hy Hd.
  assert (Hfmt : in_format y).
  { destruct (fround_in_format A HA) as [n Hn]; [qlra|].
    pose proof (gexp_proper y (fround A) Hy0 Hy) as Eg.
    exists n. rewrite Eg. qlra. }
  destruct Hfmt as [n Hyn].
  set (c := b ^ gexp y) in *. pose proof (bp_pos (gexp y)) as Hc. fold c in Hc.
  pose proof (gexp_mono A y HA H1) as HgA.
  assert (HerrA : y - A <= b ^ gexp A / 2).
  { pose proof (fround_err A) as [E _]. qlra. }
  assert (HcA : b ^ gexp A <= c) by (apply bpow_le; [apply base_gt_1|exact HgA]).
  pose proof (ilog_spec y Hy0) as [Ly Uy].
  assert (Hez : (gexp y <= ilog y + 1)%Z).
  { destruct (Z_le_gt_dec (gexp y) (ilog y + 1)) as [|Hgt]; [assumption|exfalso].
    assert (b ^ (ilog y + 1) <= c) by (apply bpow_le; [apply base_gt_1|lia]).
    assert (Hn1 : (1 <= n)%Z).
    { destruct (Z_le_gt_dec 1 n) as [|Hg]; [assumption|].
      assert (Hz : (n <= 0)%Z) by lia.
      rewrite Zle_Qle in Hz. change (inject_Z 0) with 0 in Hz.
      assert (inject_Z n * c <= 0 * c) by (apply Qmult_le_compat_r; qlra). qlra. }
    rewrite Zle_Qle in Hn1. change (inject_Z 1) with 1 in Hn1.
    assert (1 * c <= inject_Z n * c) by (apply Qmult_le_compat_r; qlra). qlra. }
  destruct (multiple_nested (gexp y) (ilog y + 1) 1 Hez) as [n' En].
  rewrite Qmult_1_l in En. fold c in En.
  assert (Hnext : y + c <= b ^ (ilog y + 1)).
  { rewrite En, Hyn in Uy |- *.
    assert (Hnn : (n < n')%Z).
    { rewrite Zlt_Qlt. apply (Qmult_lt_r _ _ c Hc). exact Uy. }
    assert (Hs : (n + 1 <= n')%Z) by lia.
    rewrite Zle_Qle, inject_Z_succ in Hs.
    assert ((inject_Z n + 1) * c <= inject_Z n' * c).
    { apply Qmult_le_compat_r; qlra. }
    assert (R : (inject_Z n + 1) * c == inject_Z n * c + c) by ring. qlra. }
  assert (HA'up : A' < b ^ (ilog y + 1)) by qlra.
  assert (EgA' : gexp A' = gexp y).
  { unfold gexp. f_equal. f_equal. apply ilog_uniq. split; qlra. }
  unfold fround. rewrite EgA'. fold c. unfold rgrid. rewrite Hyn.
  assert (Hr : rne (A' / c) = n).
  { apply Z.le_antisymm.
    - destruct (Z.eq_dec (gexp A) (gexp y)) as [E|E].
      + assert (Hn : rne (A / c) = n).
        { assert (E1 : fround A == inject_Z n * c) by qlra.
          unfold fround, rgrid in E1. rewrite E in E1. fold c in E1.
          apply (proj1 (inject_Z_injective _ _)).
          apply (proj1 (Qmult_inj_r _ _ c ltac:(qlra))). exact E1. }
        assert (Hrefl : rne (inject_Z (2 * n) - A / c) = n).
        { rewrite rne_reflect, Hn. lia. }
        rewrite <- Hrefl. apply rne_mono.
        apply (Qmult_le_r _ _ c Hc).
        rewrite Qdiv_mul_cancel by exact Hc.
        assert (R : (inject_Z (2 * n) - A / c) * c == 2 * (inject_Z n * c) - A / c * c).
        { rewrite injZ_mul. change (inject_Z 2) with 2. ring. }
        rewrite R, Qdiv_mul_cancel by exact Hc. qlra.
      + assert (Hfiner : b ^ gexp A * b <= c).
        { rewrite <- bpow_succ by apply base_gt_1.
          apply bpow_le; [apply base_gt_1|lia]. }
        pose proof base_gt_1 as Hb1.
        pose proof (bp_pos (gexp A)) as HcA0.
        assert (2 * b ^ gexp A <= c).
        { assert (b ^ gexp A * 2 <= b ^ gexp A * b).
          { apply Qmult_le_l; [exact HcA0|].
            change 2 with (inject_Z 2). rewrite <- Zle_Qle. exact Hbeta. }
          qlra. }
        apply Z.eq_le_incl. apply rne_near.
        split; apply (Qmult_lt_r _ _ c Hc); rewrite Qdiv_mul_cancel by exact Hc.
        * assert (R : (inject_Z n - (1 # 2)) * c == inject_Z n * c - c / 2) by field.
          qlra.
        * assert (R : (inject_Z n + (1 # 2)) * c == inject_Z n * c + c / 2) by field.
          qlra.
    - apply rne_ge. apply (Qmult_le_r _ _ c Hc).
      rewrite Qdiv_mul_cancel by exact Hc. qlra. }
  rewrite Hr. reflexivity.
Qed.

Lemma fround_ge_pow (q : Q) :
  0 < q -> (gexp q <= ilog q)%Z -> b ^ ilog q <= fround q.
Proof.
  intros Hq He. destruct (multiple_nested (gexp q) (ilog q) 1 He) as [n En].
  rewrite Qmult_1_l in En. unfold fround. rewrite En.
  apply rgrid_nearest_below; [apply bp_pos|].
  rewrite <- En. apply ilog_spec, Hq.
Qed.

Lemma clamp_pred (x : Z) : (clamp x - 1 <= clamp (x - 1))%Z.
Proof. unfold clamp. destruct emin; lia. Qed.

(** A value close enough to a value [a] of the format rounds to [a]. *)
Lemma fround_recover (a q : Q) :
  in_format a -> 0 < a -> 0 < q -> (gexp a <= ilog a)%Z ->
  2 * (a - q) < b ^ (gexp a - 1) -> 2 * (q - a) < b ^ (gexp a - 1) ->
  fround q == a.
Proof.
  intros Ha Ha0 Hq Hez Hlo Hhi.
  pose proof (ilog_spec a Ha0) as [La Ua].
  assert (Hstep : b ^ (gexp a - 1) < b ^ gexp a).
  { apply bpow_lt; [apply base_gt_1|lia]. }
  destruct (Qlt_le_dec a q) as [Hlt|Hle].
  - destruct (fround_closest_below a q Ha Ha0 ltac:(lra)) as [C1 C2].
    destruct (Qlt_le_dec a (fround q)) as [Hr|Hr]; [exfalso|lra].
    assert (Hfr : in_format (fround q)) by (apply fround_in_format; lra).
    pose proof (format_spacing a (fround q) Ha Hfr Ha0 Hr). lra.
  - destruct (fround_closest_above a q Ha Hq Hle) as [C1 C2].
    destruct (Qlt_le_dec (fround q) a) as [Hr|Hr]; [exfalso|lra].
    assert (Hpow : b ^ (ilog a - 1) * 2 <= b ^ ilog a).
    { replace (ilog a) with (ilog a - 1 + 1)%Z at 2 by lia.
      rewrite bpow_succ by apply base_gt_1.
      apply Qmult_le_l; [apply bp_pos|].
      change 2 with (inject_Z 2). rewrite <- Zle_Qle. exact Hbeta. }
    assert (Hg : b ^ (gexp a - 1) <= b ^ (ilog a - 1)).
    { apply bpow_le; [apply base_gt_1|lia]. }
    assert (Hr0 : b ^ (ilog a - 1) <= fround q) by lra.
    pose proof (bp_pos (ilog a - 1)) as Hp1.
    assert (Hfr : in_format (fround q)) by (apply fround_in_format; lra).
    pose proof (format_spacing (fround q) a Hfr Ha ltac:(lra) Hr) as Hsp.
    assert (Hge : (gexp a - 1 <= gexp (fround q))%Z).
    { unfold gexp.
      assert (ilog a - 1 <= ilog (fround q))%Z.
      { pose proof (ilog_spec (fround q) ltac:(lra)) as [_ U].
        apply Z.lt_succ_r. unfold Z.succ.
        apply (bpow_lt_inv b base_gt_1). lra. }
      pose proof (clamp_pred (ilog a - p)).
      pose proof (clamp_mono (ilog a - p - 1) (ilog (fround q) - p) ltac:(lia)).
      lia. }
    assert (b ^ (gexp a - 1) <= b ^ gexp (fround q)).
    { apply bpow_le; [apply base_gt_1|exact Hge]. }
    lra.
Qed.

End Format.

(** ** Binary64 and five significant digits *)

Section Binary64.
Open Scope Q_scope.

Lemma two_le_2 : (2 <= 2)%Z. Proof. lia. Qed.
Lemma two_le_10 : (2 <= 10)%Z. Proof. lia. Qed.
Lemma zero_le_52 : (0 <= 52)%Z. Proof. lia. Qed.
Lemma zero_le_4 : (0 <= 4)%Z. Proof. lia. Qed.

Ltac fmt_side :=
  solve [ exact two_le_2 | exact two_le_10 | exact ilog2_spec | exact ilog10_spec
        | exact zero_le_52 | exact zero_le_4 | eassumption ].

Ltac by_format L :=
  intros; unfold fl, r5, sig5, float_value, gexp2, gexp10, pow2, pow10 in *;
  eapply L; fmt_side.

Lemma pow2_52 : pow2 52 == 4503599627370496.
Proof. reflexivity. Qed.

Lemma pow10_5 : pow10 (4 + 1) == 100000.
Proof. reflexivity. Qed.

Lemma fl_mono (q q' : Q) : 0 < q -> q <= q' -> fl q <= fl q'.
Proof. by_format fround_mono. Qed.

Lemma fl_idem (q : Q) : 0 < q -> 0 < fl q -> fl (fl q) == fl q.
Proof. by_format fround_idem. Qed.

Lemma fl_proper (q q' : Q) : 0 < q -> q == q' -> fl q == fl q'.
Proof. by_format fround_proper. Qed.

Lemma fl_fix (a : Q) : float_value a -> fl a == a.
Proof. by_format fround_fix. Qed.

Lemma fl_float_value (q : Q) : 0 < q -> 0 < fl q -> float_value (fl q).
Proof. by_format fround_in_format. Qed.

Lemma fl_err (q : Q) :
  fl q - pow2 (gexp2 q) / 2 <= q <= fl q + pow2 (gexp2 q) / 2.
Proof. by_format fround_err. Qed.

Lemma fl_le_double (q : Q) : 0 <= q -> fl q <= 2 * q.
Proof. by_format fround_le_double. Qed.

Lemma fl_lower (q : Q) : 0 < fl q -> q <= (3 # 2) * fl q.
Proof. by_format fround_lower. Qed.

Lemma fl_nonneg (q : Q) : 0 <= q -> 0 <= fl q.
Proof. by_format fround_nonneg. Qed.

Lemma gexp2_mono (q q' : Q) : 0 < q -> q <= q' -> (gexp2 q <= gexp2 q')%Z.
Proof. by_format gexp_mono. Qed.

Lemma fl_crux_up (A A' y : Q) :
  0 < A -> A <= y -> y <= A' -> 0 < y -> y == fl A -> A' - y <= y - A ->
  fl A' == y.
Proof.
  intros. unfold fl in *.
  eapply (crux_up 2 two_le_2 ilog2 ilog2_spec 52 zero_le_52 (Some (-1074)%Z) A A' y);
    eassumption.
Qed.

Lemma fl_crux_down (A A' y : Q) :
  0 < A' -> A' <= y -> y <= A -> y == fl A -> y - A' <= A - y ->
  fl A' == y
  \/ (A - A' <= pow2 (gexp2 y) /\ pow2 (gexp2 y) * pow2 52 == y
      /\ y - pow2 (gexp2 y) / 2 <= A' /\ A' < y).
Proof.
  intros. unfold fl, gexp2, pow2 in *.
  eapply (crux_down 2 two_le_2 ilog2 ilog2_spec 52 zero_le_52 (Some (-1074)%Z) A A' y);
    eassumption.
Qed.

Lemma r5_proper (q q' : Q) : 0 < q -> q == q' -> r5 q == r5 q'.
Proof. by_format fround_proper. Qed.

Lemma r5_fix (a : Q) : sig5 a -> r5 a == a.
Proof. by_format fround_fix. Qed.

Lemma r5_closest_below (a q : Q) :
  sig5 a -> 0 < a -> a <= q -> a <= r5 q /\ r5 q <= 2 * q - a.
Proof. by_format fround_closest_below. Qed.

Lemma r5_closest_above (a q : Q) :
  sig5 a -> 0 < q -> q <= a -> 2 * q - a <= r5 q /\ r5 q <= a.
Proof. by_format fround_closest_above. Qed.

Lemma sig5_spacing (a a' : Q) :
  sig5 a -> sig5 a' -> 0 < a -> a < a' -> a + pow10 (gexp10 a) <= a'.
Proof. by_format format_spacing. Qed.

Lemma sig5_step_gt (q : Q) : 0 < q -> q < pow10 (gexp10 q) * pow10 (4 + 1).
Proof. by_format step_gt. Qed.

Lemma sig5_intro (a : Q) (n j : Z) :
  a == inject_Z n * pow10 j -> (gexp10 a <= j)%Z -> sig5 a.
Proof. by_format in_format_intro. Qed.

Lemma gexp10_le (q : Q) : (gexp10 q <= ilog10 q)%Z.
Proof. unfold gexp10, gexp, clamp. lia. Qed.

Lemma gexp10_eq (q : Q) : gexp10 q = (ilog10 q - 4)%Z.
Proof. reflexivity. Qed.

Lemma r5_ge_pow (q : Q) : 0 < q -> pow10 (ilog10 q) <= r5 q.
Proof.
  intros Hq. pose proof (gexp10_le q).
  revert Hq H. by_format fround_ge_pow.
Qed.

Lemma r5_pos (q : Q) : 0 < q -> 0 < r5 q.
Proof.
  intros Hq. pose proof (r5_ge_pow q Hq). pose proof (pow10_pos (ilog10 q)). lra.
Qed.

Lemma r5_sig5 (q : Q) : 0 < q -> sig5 (r5 q).
Proof.
  intros Hq. pose proof (r5_pos q Hq). revert Hq H. by_format fround_in_format.
Qed.

Lemma r5_recover (a q : Q) :
  sig5 a -> 0 < a -> 0 < q ->
  2 * (a - q) < pow10 (gexp10 a - 1) -> 2 * (q - a) < pow10 (gexp10 a - 1) ->
  r5 q == a.
Proof.
  intros Ha Ha0 Hq H1 H2. pose proof (gexp10_le a) as Hg.
  revert Ha Ha0 Hq Hg H1 H2. by_format fround_recover.
Qed.

(** Two values of five digits are not within an ulp of a power of two. *)
Lemma sig5_apart (a a' y : Q) :
  sig5 a -> sig5 a' -> 0 < a' -> a' < a ->
  a - a' <= pow2 (gexp2 y) -> pow2 (gexp2 y) * pow2 52 == y ->
  y - pow2 (gexp2 y) / 2 <= a' -> False.
Proof.
  intros Ha Ha' H0 Hlt Hd Hy Hlow.
  pose proof (sig5_spacing a' a Ha' Ha H0 Hlt) as Hsp.
  pose proof (sig5_step_gt a' H0) as Hst.
  rewrite pow10_5 in Hst. rewrite pow2_52 in Hy.
  pose proof (pow2_pos (gexp2 y)) as Hc.
  set (c := pow2 (gexp2 y)) in *. set (d := pow10 (gexp10 a')) in *.
  qlra.
Qed.

(** Reading back a printed float: the five-digit rounding of a float
    that is itself the nearest to a five-digit value yields that float. *)
Lemma fl_r5_fl (A : Q) :
  sig5 A -> 0 < A -> 0 < fl A -> fl (r5 (fl A)) == fl A.
Proof.
  intros HA HA0 Hy0. set (y := fl A) in *.
  pose proof (fl_idem A HA0 Hy0) as Hyy. fold y in Hyy.
  pose proof (r5_pos y Hy0) as HA'0. pose proof (r5_sig5 y Hy0) as HA'.
  destruct (Qlt_le_dec A y) as [Hlt|Hle].
  - destruct (r5_closest_below A y HA HA0 ltac:(lra)) as [C1 C2].
    destruct (Qlt_le_dec y (r5 y)) as [Hr|Hr].
    + apply (fl_crux_up A (r5 y) y); try lra. reflexivity.
    + pose proof (fl_mono A (r5 y) HA0 C1) as M1.
      pose proof (fl_mono (r5 y) y HA'0 Hr) as M2. fold y in M1. lra.
  - destruct (r5_closest_above A y HA Hy0 Hle) as [C1 C2].
    destruct (Qlt_le_dec (r5 y) y) as [Hr|Hr].
    + destruct (fl_crux_down A (r5 y) y HA'0 ltac:(lra) Hle ltac:(reflexivity) ltac:(lra))
        as [Hok|(D1 & D2 & D3 & D4)]; [exact Hok|exfalso].
      apply (sig5_apart A (r5 y) y HA HA' HA'0 ltac:(lra) D1 D2 D3).
    + pose proof (fl_mono y (r5 y) Hy0 Hr) as M1.
      pose proof (fl_mono (r5 y) A HA'0 C2) as M2. fold y in M2. lra.
Qed.

Lemma pow10_nested (j k n : Z) :
  (j <= k)%Z -> exists n', inject_Z n * pow10 k == inject_Z n' * pow10 j.
Proof. intros H. exact (multiple_nested 10 two_le_10 j k n H). Qed.

(** Rounding the float of a five-digit value [A] to a decimal grid that
    is not coarser than the last digit of [A] gives a float that prints
    as [A] again. *)
Lemma fine_grid_prints_back (A g : Q) (n : Z) :
  sig5 A -> 0 < A -> 0 < g -> A == inject_Z n * g ->
  0 < fl A -> 0 < rgrid g (fl A) -> 0 < fl (rgrid g (fl A)) ->
  fl (r5 (fl (rgrid g (fl A)))) == fl A.
Proof.
  intros HA HA0 Hg HAg Hy0 HB0 Hz0.
  set (y := fl A) in *. set (B := rgrid g y) in *. set (z := fl B) in *.
  pose proof (fl_idem A HA0 Hy0) as Hyy. fold y in Hyy.
  assert (Hsame : z == y -> fl (r5 z) == y).
  { intros E. rewrite (fl_proper (r5 z) (r5 y)).
    - apply fl_r5_fl; assumption.
    - apply r5_pos, Hz0.
    - apply r5_proper; assumption. }
  destruct (Qlt_le_dec A y) as [Hlt|Hle].
  - assert (C1 : A <= B).
    { unfold B. rewrite HAg. apply rgrid_nearest_below; [exact Hg|]. rewrite <- HAg. lra. }
    assert (C2 : B <= 2 * y - A).
    { unfold B. rewrite HAg. apply rgrid_closest_below; [exact Hg|]. rewrite <- HAg. lra. }
    apply Hsame. destruct (Qlt_le_dec y B) as [Hr|Hr].
    + apply (fl_crux_up A B y); try lra. reflexivity.
    + pose proof (fl_mono A B HA0 C1) as M1. pose proof (fl_mono B y HB0 Hr) as M2.
      fold y z in M1, M2. lra.
  - assert (C1 : 2 * y - A <= B).
    { unfold B. rewrite HAg. apply rgrid_closest_above; [exact Hg|]. rewrite <- HAg. lra. }
    assert (C2 : B <= A).
    { unfold B. rewrite HAg. apply rgrid_nearest_above; [exact Hg|]. rewrite <- HAg. lra. }
    destruct (Qlt_le_dec B y) as [Hr|Hr].
    + destruct (fl_crux_down A B y HB0 ltac:(lra) Hle ltac:(reflexivity) ltac:(lra))
        as [Hok|(D1 & D2 & D3 & D4)]; [apply Hsame; exact Hok|].
      assert (Hzy : z <= y).
      { pose proof (fl_mono B y HB0 ltac:(lra)) as M. fold z in M. lra. }
      assert (HBz : B - z <= pow2 (gexp2 y) / 2).
      { pose proof (fl_err B) as [_ E]. fold z in E.
        assert (pow2 (gexp2 B) <= pow2 (gexp2 y)).
        { apply bpow_le; [reflexivity|]. apply gexp2_mono; lra. }
        qlra. }
      pose proof (sig5_step_gt A HA0) as Hst.
      assert (Hd : pow10 (gexp10 A) == pow10 (gexp10 A - 1) * 10).
      { replace (gexp10 A) with (gexp10 A - 1 + 1)%Z at 1 by lia.
        unfold pow10. rewrite bpow_succ by reflexivity. reflexivity. }
      rewrite pow10_5 in Hst. rewrite pow2_52 in D2.
      pose proof (pow2_pos (gexp2 y)) as Hc. pose proof (pow10_pos (gexp10 A - 1)) as Hd0.
      assert (Hrec : r5 z == A).
      { apply r5_recover; try assumption.
        - set (c := pow2 (gexp2 y)) in *. set (d := pow10 (gexp10 A - 1)) in *.
          set (d' := pow10 (gexp10 A)) in *. qlra.
        - set (c := pow2 (gexp2 y)) in *. set (d := pow10 (gexp10 A - 1)) in *. qlra. }
      rewrite (fl_proper (r5 z) A); [reflexivity|apply r5_pos, Hz0|exact Hrec].
    + apply Hsame.
      pose proof (fl_mono y B Hy0 Hr) as M1. pose proof (fl_mono B A HB0 C2) as M2.
      fold y z in M1, M2. lra.
Qed.

(** The float of a multiple of [g] that is not huge against [g] rounds
    to that multiple again, and so to itself. *)
Lemma grid_float_stable (B g : Q) (n : Z) :
  0 < g -> B == inject_Z n * g -> 0 < B -> B <= 100000 * g -> 0 < fl B ->
  fl (rgrid g (fl B)) == fl B.
Proof.
  intros Hg HBg HB0 Hbig Hz0. set (z := fl B) in *.
  pose proof (fl_idem B HB0 Hz0) as Hzz. fold z in Hzz.
  pose proof (fl_lower B Hz0) as Hlow. fold z in Hlow.
  pose proof (fl_le_double B ltac:(lra)) as Hdbl. fold z in Hdbl.
  set (B' := rgrid g z).
  destruct (Qlt_le_dec B z) as [Hlt|Hle].
  - assert (C1 : B <= B').
    { unfold B'. rewrite HBg. apply rgrid_nearest_below; [exact Hg|]. rewrite <- HBg. lra. }
    assert (C2 : B' <= 2 * z - B).
    { unfold B'. rewrite HBg. apply rgrid_closest_below; [exact Hg|]. rewrite <- HBg. lra. }
    destruct (Qlt_le_dec z B') as [Hr|Hr].
    + apply (fl_crux_up B B' z); try lra. reflexivity.
    + pose proof (fl_mono B B' HB0 C1) as M1.
      pose proof (fl_mono B' z ltac:(lra) Hr) as M2. fold z in M1. lra.
  - assert (C1 : 2 * z - B <= B').
    { unfold B'. rewrite HBg. apply rgrid_closest_above; [exact Hg|]. rewrite <- HBg. lra. }
    assert (C2 : B' <= B).
    { unfold B'. rewrite HBg. apply rgrid_nearest_above; [exact Hg|]. rewrite <- HBg. lra. }
    assert (HB'0 : 0 < B') by qlra.
    destruct (Qlt_le_dec B' z) as [Hr|Hr].
    + destruct (fl_crux_down B B' z HB'0 ltac:(lra) Hle ltac:(reflexivity) ltac:(lra))
        as [Hok|(D1 & D2 & D3 & D4)]; [exact Hok|exfalso].
      assert (Hnn : (rne (z / g) < n)%Z).
      { rewrite Zlt_Qlt. apply (Qmult_lt_r _ _ g Hg).
        fold (rgrid g z). fold B'. lra. }
      assert (Hs : (rne (z / g) + 1 <= n)%Z) by lia.
      rewrite Zle_Qle, inject_Z_succ in Hs.
      assert (Hm : (inject_Z (rne (z / g)) + 1) * g <= inject_Z n * g).
      { apply Qmult_le_compat_r; lra. }
      assert (R : (inject_Z (rne (z / g)) + 1) * g == B' + g).
      { unfold B', rgrid. ring. }
      rewrite pow2_52 in D2. pose proof (pow2_pos (gexp2 z)) as Hc.
      set (c := pow2 (gexp2 z)) in *. qlra.
    + pose proof (fl_mono z B' Hz0 Hr) as M1.
      pose proof (fl_mono B' B HB'0 C2) as M2. fold z in M2. lra.
Qed.

(** [format_price] on values: rounding the float of a five-digit value
    [A] to [k] decimals and taking the float of that gives [z]; printing
    [z] with five digits and rounding to [k] decimals gives [z] again. *)
Lemma print_round_stable (A : Q) (k : Z) :
  sig5 A -> 0 < A ->
  0 < fl A -> 0 < rgrid (pow10 (- k)) (fl A) ->
  0 < fl (rgrid (pow10 (- k)) (fl A)) ->
  let z := fl (rgrid (pow10 (- k)) (fl A)) in
  fl (r5 z) == fl A \/ (fl (r5 z) == z /\ fl (rgrid (pow10 (- k)) z) == z).
Proof.
  intros HA HA0 Hy0 HB0 Hz0 z.
  pose proof (pow10_pos (- k)) as Hg. set (g := pow10 (- k)) in *.
  set (y := fl A) in *. set (B := rgrid g y) in *.
  destruct (Z_le_gt_dec (- k) (gexp10 A)) as [Hfine|Hcoarse].
  - left. destruct HA as [n Hn]. fold (gexp10 A) in Hn.
    destruct (pow10_nested (- k) (gexp10 A) n Hfine) as [n' En].
    apply (fine_grid_prints_back A g n'); try assumption.
    + exists n. exact Hn.
    + unfold g. rewrite <- En. exact Hn.
  - right.
    pose proof (sig5_step_gt A HA0) as Hst. rewrite pow10_5 in Hst.
    assert (Hstep : pow10 (gexp10 A) * 10 <= g).
    { unfold g, pow10. rewrite <- bpow_succ by reflexivity.
      apply bpow_le; [reflexivity|lia]. }
    pose proof (fl_le_double A ltac:(lra)) as Hdbl. fold y in Hdbl.
    pose proof (rgrid_err g y Hg) as [Herr _]. fold B in Herr.
    pose proof (pow10_pos (gexp10 A)) as Hd0.
    assert (Hbig : B < 100000 * g).
    { set (d := pow10 (gexp10 A)) in *. qlra. }
    assert (HB5 : sig5 B).
    { apply (sig5_intro B (rne (y / g)) (- k)); [reflexivity|].
      rewrite gexp10_eq.
      assert (ilog10 B < - k + 5)%Z; [|lia].
      apply (bpow_lt_inv 10 ltac:(reflexivity)).
      pose proof (ilog10_spec B HB0) as [L _].
      assert (E : pow10 (- k + 5) == 100000 * g).
      { unfold g, pow10. rewrite bpow_add by reflexivity.
        change (10 ^ 5) with 100000. ring. }
      unfold pow10 in *. lra. }
    split.
    + apply fl_r5_fl; assumption.
    + apply (grid_float_stable B g (rne (y / g))); try assumption; [reflexivity|lra].
Qed.

End Binary64.

(** ** From values to floats *)

Section Floats.
Open Scope Q_scope.

Lemma pow10_opp (k : Z) : pow10 (- k) == / pow10 k.
Proof. unfold pow10. apply Qpower_opp. Qed.

Lemma round_places_rgrid (k : Z) (q : Q) :
  round_places k q == rgrid (pow10 (- k)) q.
Proof.
  unfold round_places, rgrid.
  pose proof (pow10_pos k) as Hk. pose proof (pow10_opp k) as Ho.
  assert (E : q * pow10 k == q / pow10 (- k)).
  { setoid_rewrite Ho. field. lra. }
  setoid_rewrite (Qred_correct _). rewrite (rne_proper _ _ E).
  unfold Qdiv. apply Qmult_comp; [reflexivity|symmetry; exact Ho].
Qed.

Lemma round_sig5_r5 (q : Q) : round_sig5 q == r5 q.
Proof.
  unfold round_sig5. setoid_rewrite (round_places_rgrid _ _).
  unfold r5, fround, gexp, clamp, pow10.
  replace (- (4 - ilog10 q))%Z with (ilog10 q - 4)%Z by lia. reflexivity.
Qed.

Lemma nearest_pos (s : bool) (q : Q) :
  0 < q -> nearest s q = assemble s (significand q) (gexp2 q).
Proof.
  intros Hq. unfold nearest.
  destruct (Qle_bool q 0) eqn:E; [apply Qle_bool_iff in E; lra|]. reflexivity.
Qed.

Lemma nearest_nonpos (s : bool) (q : Q) : q <= 0 -> nearest s q = S754_zero s.
Proof.
  intros Hq. unfold nearest. apply Qle_bool_iff in Hq. rewrite Hq. reflexivity.
Qed.

Lemma fl_significand (q : Q) : fl q == inject_Z (significand q) * pow2 (gexp2 q).
Proof. reflexivity. Qed.

Lemma gexp2_cases (q : Q) :
  (gexp2 q = -1074 /\ ilog2 q - 52 <= -1074)%Z
  \/ (gexp2 q = ilog2 q - 52 /\ -1074 < gexp2 q)%Z.
Proof. unfold gexp2, gexp, clamp. lia. Qed.

Lemma significand_bounds (q : Q) :
  0 < q ->
  (0 <= significand q <= 2 ^ 53)%Z
  /\ (gexp2 q = -1074 \/ 2 ^ 52 <= significand q)%Z.
Proof.
  intros Hq. pose proof (ilog2_spec q Hq) as [L U].
  pose proof (pow2_pos (gexp2 q)) as Hc. unfold significand.
  split; [split|].
  - apply rne_ge. change (inject_Z 0) with 0.
    apply (Qmult_le_r _ _ _ Hc). rewrite Qdiv_mul_cancel by exact Hc. lra.
  - apply rne_le. apply (Qmult_le_r _ _ _ Hc). rewrite Qdiv_mul_cancel by exact Hc.
    rewrite <- pow2_Z by lia. unfold pow2 in *. rewrite <- bpow_add by reflexivity.
    assert (2 ^ (ilog2 q + 1) <= 2 ^ (53 + gexp2 q)).
    { apply bpow_le; [reflexivity|]. destruct (gexp2_cases q); lia. }
    lra.
  - destruct (gexp2_cases q) as [[E _]|[E Hn]]; [left; exact E|right].
    apply rne_ge. apply (Qmult_le_r _ _ _ Hc). rewrite Qdiv_mul_cancel by exact Hc.
    rewrite <- pow2_Z by lia. unfold pow2 in *. rewrite <- bpow_add by reflexivity.
    replace (52 + gexp2 q)%Z with (ilog2 q) by lia. exact L.
Qed.

Lemma pow2_shift (m m' e e' : Z) :
  (e <= e')%Z -> inject_Z m * pow2 e == inject_Z m' * pow2 e' ->
  m = (m' * 2 ^ (e' - e))%Z.
Proof.
  intros He H. apply (proj1 (inject_Z_injective _ _)).
  pose proof (pow2_pos e) as Hc.
  apply (proj1 (Qmult_inj_r _ _ (pow2 e) ltac:(lra))).
  rewrite H, injZ_mul, <- pow2_Z by lia.
  unfold pow2. rewrite <- Qmult_assoc, <- bpow_add by reflexivity.
  replace (e' - e + e)%Z with e' by lia. reflexivity.
Qed.

(** Two normalised pairs of the same value assemble to the same float. *)
Lemma assemble_ext_le (s : bool) (m m' e e' : Z) :
  (0 <= m <= 2 ^ 53)%Z -> (0 <= m' <= 2 ^ 53)%Z ->
  (e' = -1074 \/ 2 ^ 52 <= m')%Z -> (-1074 <= e)%Z -> (e <= e')%Z ->
  inject_Z m * pow2 e == inject_Z m' * pow2 e' ->
  assemble s m e = assemble s m' e'.
Proof.
  intros Hm Hm' Hn' Hemin He H.
  pose proof (pow2_shift m m' e e' He H) as E.
  destruct (Z.eq_dec e e') as [<-|Hne].
  - replace (e - e)%Z with 0%Z in E by lia. rewrite Z.pow_0_r, Z.mul_1_r in E.
    subst m'. reflexivity.
  - assert (Hd : (1 <= e' - e)%Z) by lia.
    assert (Hp : (2 <= 2 ^ (e' - e))%Z).
    { change 2%Z with (2 ^ 1)%Z at 1. apply Z.pow_le_mono_r; lia. }
    assert (Hm'52 : (2 ^ 52 <= m')%Z) by lia.
    assert (H53 : (2 ^ 53 = 2 * 2 ^ 52)%Z) by reflexivity.
    assert (Em : m = (2 ^ 53)%Z) by nia.
    assert (Em' : m' = (2 ^ 52)%Z) by nia.
    assert (Ee : e' = (e + 1)%Z).
    { assert (2 ^ (e' - e) = 2)%Z by nia.
      destruct (Z.eq_dec (e' - e)%Z 1%Z) as [|Hn1]; [lia|].
      assert (2 ^ 2 <= 2 ^ (e' - e))%Z by (apply Z.pow_le_mono_r; lia).
      change (2 ^ 2)%Z with 4%Z in *. lia. }
    rewrite Em, Em', Ee. reflexivity.
Qed.

Lemma assemble_ext (s : bool) (m m' e e' : Z) :
  (0 <= m <= 2 ^ 53)%Z -> (0 <= m' <= 2 ^ 53)%Z ->
  (e = -1074 \/ 2 ^ 52 <= m)%Z -> (e' = -1074 \/ 2 ^ 52 <= m')%Z ->
  (-1074 <= e)%Z -> (-1074 <= e')%Z ->
  inject_Z m * pow2 e == inject_Z m' * pow2 e' ->
  assemble s m e = assemble s m' e'.
Proof.
  intros Hm Hm' Hn Hn' He He' H.
  destruct (Z_le_gt_dec e e').
  - apply assemble_ext_le; assumption.
  - symmetry. apply assemble_ext_le; try assumption; [lia|symmetry; exact H].
Qed.

Lemma gexp2_ge (q : Q) : (-1074 <= gexp2 q)%Z.
Proof. destruct (gexp2_cases q); lia. Qed.

(** The float nearest to [q] depends on the nearest value only. *)
Lemma nearest_ext (s : bool) (q q' : Q) :
  0 < q -> 0 < q' -> fl q == fl q' -> nearest s q = nearest s q'.
Proof.
  intros Hq Hq' H. rewrite !nearest_pos by assumption.
  destruct (significand_bounds q Hq) as [B1 N1].
  destruct (significand_bounds q' Hq') as [B2 N2].
  apply assemble_ext; try assumption; apply gexp2_ge.
Qed.

Lemma assemble_finite (s s' : bool) (m e : Z) (m' : positive) (e' : Z) :
  assemble s m e = S754_finite s' m' e' ->
  s' = s /\ inject_Z (Zpos m') * pow2 e' == inject_Z m * pow2 e.
Proof.
  unfold assemble. destruct (m <=? 0)%Z eqn:E0; [discriminate|].
  apply Z.leb_gt in E0.
  destruct (m =? 2 ^ 53)%Z eqn:E53.
  - apply Z.eqb_eq in E53. destruct (e + 1 <=? 971)%Z; [|discriminate].
    assert (Hp : Zpos (Z.to_pos (2 ^ 52)) = (2 ^ 52)%Z) by reflexivity.
    revert Hp. generalize (Z.to_pos (2 ^ 52)). intros p Hp H.
    injection H as Hs Hm He. split; [symmetry; exact Hs|].
    rewrite <- Hm, <- He, E53, Hp.
    pose proof (bpow_succ 2 eq_refl e) as Hb. unfold pow2.
    change (inject_Z (2 ^ 53)) with (inject_Z (2 ^ 52) * 2).
    setoid_rewrite Hb. ring.
  - destruct (e <=? 971)%Z; [|discriminate].
    intros H. injection H as Hs Hm He. split; [symmetry; exact Hs|].
    rewrite <- Hm, <- He, Z2Pos.id by lia. reflexivity.
Qed.

Lemma nearest_finite (s s' : bool) (q : Q) (m : positive) (e : Z) :
  nearest s q = S754_finite s' m e ->
  s' = s /\ 0 < q /\ mag (S754_finite s' m e) == fl q /\ 0 < fl q.
Proof.
  intros H. destruct (Qlt_le_dec 0 q) as [Hq|Hq].
  - rewrite nearest_pos in H by exact Hq.
    apply assemble_finite in H as [-> E]. rewrite fl_significand.
    repeat split; try assumption. simpl mag. rewrite <- E.
    apply Qmult_lt_0_compat; [reflexivity|apply pow2_pos].
  - rewrite nearest_nonpos in H by exact Hq. discriminate.
Qed.

Lemma mag_finite_pos (s : bool) (m : positive) (e : Z) :
  0 < mag (S754_finite s m e).
Proof. simpl. apply Qmult_lt_0_compat; [reflexivity|apply pow2_pos]. Qed.

End Floats.

(** ** Printing and rounding floats *)

Section Printing.
Open Scope Q_scope.

Lemma nearest_proper (s : bool) (q q' : Q) : q == q' -> nearest s q = nearest s q'.
Proof.
  intros E. destruct (Qlt_le_dec 0 q) as [Hq|Hq].
  - apply nearest_ext; [exact Hq|lra|apply fl_proper; assumption].
  - rewrite !nearest_nonpos by lra. reflexivity.
Qed.

Lemma fl_nonpos (q : Q) : q <= 0 -> fl q <= 0.
Proof.
  intros Hq. rewrite fl_significand.
  pose proof (pow2_pos (gexp2 q)) as Hc.
  assert (significand q <= 0)%Z.
  { apply rne_le. change (inject_Z 0) with 0.
    apply (Qmult_le_r _ _ _ Hc). rewrite Qdiv_mul_cancel by exact Hc. lra. }
  assert (inject_Z (significand q) <= 0) by (change 0 with (inject_Z 0); rewrite <- Zle_Qle; assumption).
  nra.
Qed.

Lemma fmt5g_finite (s : bool) (m : positive) (e : Z) :
  fmt5g (S754_finite s m e) = nearest s (r5 (mag (S754_finite s m e))).
Proof. unfold fmt5g. apply nearest_proper, round_sig5_r5. Qed.

Lemma py_round_finite (s : bool) (m : positive) (e k : Z) :
  (323 <? k)%Z = false -> (k <? -308)%Z = false ->
  py_round (S754_finite s m e) k =
    match nearest s (rgrid (pow10 (- k)) (mag (S754_finite s m e))) with
    | S754_infinity _ => Raise OverflowError
    | y => Ok y
    end.
Proof.
  intros H1 H2. unfold py_round. rewrite H1, H2.
  rewrite (nearest_proper s _ _ (round_places_rgrid k _)). reflexivity.
Qed.

Lemma rounded_price_special (k : Z) (x : float) :
  mag x == 0 -> fmt5g x = x /\ rounded_price k x = x.
Proof.
  destruct x as [s| s| |s m e]; intros H; try (split; reflexivity).
  pose proof (mag_finite_pos s m e). lra.
Qed.

Section Printed.

Variable s : bool.
Variable A : Q.
Hypothesis HA : sig5 A.
Hypothesis HA0 : 0 < A.

(** The float of a five-digit value prints as itself. *)
Lemma printed_prints_back (s' : bool) (m : positive) (e : Z) :
  nearest s A = S754_finite s' m e ->
  fmt5g (S754_finite s' m e) = S754_finite s' m e.
Proof.
  intros HY. destruct (nearest_finite _ _ _ _ _ HY) as (-> & _ & Hy & Hy0).
  rewrite fmt5g_finite.
  set (y := mag (S754_finite s m e)) in *. rewrite <- HY.
  assert (Hy1 : 0 < y) by lra.
  pose proof (r5_proper y (fl A) Hy1 Hy) as E1.
  pose proof (r5_pos y Hy1) as P1.
  pose proof (fl_proper _ _ P1 E1) as E2.
  pose proof (fl_r5_fl A HA HA0 Hy0) as E3.
  apply nearest_ext; [exact P1|exact HA0|lra].
Qed.

(** Rounding the float of a five-digit value to [k] decimals gives a
    float on which printing and rounding have no further effect. *)
Lemma printed_rounded_stable (k : Z) (s1 s2 : bool) (m1 m2 : positive) (e1 e2 : Z) :
  nearest s A = S754_finite s1 m1 e1 ->
  nearest s1 (rgrid (pow10 (- k)) (mag (S754_finite s1 m1 e1))) = S754_finite s2 m2 e2 ->
  let Y := S754_finite s1 m1 e1 in
  let Z := S754_finite s2 m2 e2 in
  fmt5g Z = Y
  \/ (fmt5g Z = Z /\ nearest s2 (rgrid (pow10 (- k)) (mag Z)) = Z).
Proof.
  intros HY HZ Y Z.
  destruct (nearest_finite _ _ _ _ _ HY) as (-> & _ & Hy & Hy0).
  destruct (nearest_finite _ _ _ _ _ HZ) as (-> & HB0 & Hz & Hz0).
  fold Y in HZ, Hy, HB0, Hz, Hz0. fold Z in Hz.
  set (g := pow10 (- k)) in *.
  set (y := mag Y) in *. set (z := mag Z) in *.
  assert (Hy1 : 0 < y) by lra. assert (Hz1 : 0 < z) by lra.
  pose proof (rgrid_proper g g y (fl A) ltac:(reflexivity) Hy) as EB.
  pose proof (fl_proper _ _ HB0 EB) as EfB.
  assert (HB0' : 0 < rgrid g (fl A)) by lra.
  assert (Hz0' : 0 < fl (rgrid g (fl A))) by lra.
  pose proof (print_round_stable A k HA HA0 Hy0 HB0' Hz0') as H. cbv zeta in H.
  fold g in H. set (z' := fl (rgrid g (fl A))) in *.
  assert (Ez : z == z') by lra.
  pose proof (r5_proper z z' Hz1 Ez) as E1.
  pose proof (r5_pos z Hz1) as P1.
  pose proof (fl_proper _ _ P1 E1) as E2.
  assert (EF : fmt5g Z = nearest s (r5 z)) by apply fmt5g_finite.
  rewrite EF. destruct H as [HL|[HR1 HR2]].
  - left. etransitivity; [|exact HY].
    apply nearest_ext; [exact P1|exact HA0|lra].
  - right. split.
    + etransitivity; [|exact HZ]. apply nearest_ext; [exact P1|exact HB0|lra].
    + etransitivity; [|exact HZ].
      pose proof (rgrid_proper g g z z' ltac:(reflexivity) Ez) as E3.
      assert (P3 : 0 < rgrid g z').
      { destruct (Qlt_le_dec 0 (rgrid g z')) as [|Hn]; [assumption|].
        pose proof (fl_nonpos _ Hn). lra. }
      assert (P4 : 0 < rgrid g z) by lra.
      pose proof (fl_proper _ _ P4 E3) as E4.
      apply nearest_ext; [exact P4|exact HB0|lra].
Qed.

End Printed.

(** [fmt5g] is idempotent. *)
Lemma fmt5g_idem (p : float) : fmt5g (fmt5g p) = fmt5g p.
Proof.
  destruct p as [s| s| |s m e]; try reflexivity.
  rewrite fmt5g_finite.
  pose proof (mag_finite_pos s m e) as Hv. set (v := mag _) in *.
  destruct (nearest s (r5 v)) as [s'| s'| |s' m' e'] eqn:HY; try reflexivity.
  apply (printed_prints_back s (r5 v)); [apply r5_sig5|apply r5_pos|]; assumption.
Qed.

Lemma rounded_price_finite (s : bool) (m : positive) (e k : Z) :
  (323 <? k)%Z = false -> (k <? -308)%Z = false ->
  rounded_price k (S754_finite s m e) =
    match nearest s (rgrid (pow10 (- k)) (mag (S754_finite s m e))) with
    | S754_infinity _ => S754_finite s m e
    | y => y
    end.
Proof.
  intros K1 K2. unfold rounded_price. rewrite (py_round_finite _ _ _ _ K1 K2).
  destruct (nearest _ _); reflexivity.
Qed.

(** Printing with five digits and rounding to [k] decimals, with the
    printed value as the fallback, is idempotent. *)
Lemma rounded_price_idem (k : Z) (p : float) :
  let r := rounded_price k (fmt5g p) in
  rounded_price k (fmt5g r) = r.
Proof.
  intros r. subst r.
  destruct p as [s| s| |s m e]; try reflexivity.
  rewrite fmt5g_finite.
  pose proof (mag_finite_pos s m e) as Hv. set (v := mag _) in *.
  pose proof (r5_sig5 v Hv) as HA. pose proof (r5_pos v Hv) as HA0.
  set (A := r5 v) in *.
  destruct (nearest s A) as [s1| s1| |s1 m1 e1] eqn:HY; try reflexivity.
  pose proof (printed_prints_back s A HA HA0 _ _ _ HY) as HYY.
  destruct (323 <? k)%Z eqn:K1.
  { assert (E : rounded_price k (S754_finite s1 m1 e1) = S754_finite s1 m1 e1).
    { unfold rounded_price, py_round. rewrite K1. reflexivity. }
    rewrite E, HYY. exact E. }
  destruct (k <? -308)%Z eqn:K2.
  { assert (E : rounded_price k (S754_finite s1 m1 e1) = S754_zero s1).
    { unfold rounded_price, py_round. rewrite K1, K2. reflexivity. }
    rewrite E. reflexivity. }
  rewrite (rounded_price_finite _ _ _ _ K1 K2).
  destruct (nearest s1 (rgrid (pow10 (- k)) (mag (S754_finite s1 m1 e1))))
    as [s2| s2| |s2 m2 e2] eqn:HZ; try reflexivity.
  - rewrite HYY, (rounded_price_finite _ _ _ _ K1 K2), HZ. reflexivity.
  - destruct (printed_rounded_stable s A HA HA0 k _ _ _ _ _ _ HY HZ) as [HL|[HR1 HR2]].
    + rewrite HL, (rounded_price_finite _ _ _ _ K1 K2), HZ. reflexivity.
    + rewrite HR1, (rounded_price_finite _ _ _ _ K1 K2), HR2. reflexivity.
Qed.

End Printing.

(** ** Rounding to decimals stays in range *)

Section Range.
Open Scope Q_scope.

Lemma max_float_nonneg : 0 <= inject_Z max_float.
Proof.
  change 0 with (inject_Z 0). rewrite <- Zle_Qle.
  apply Z.leb_le. vm_compute. reflexivity.
Qed.

Lemma digits2_pos_lt (m : positive) : (Zpos m < 2 ^ Zpos (digits2_pos m))%Z.
Proof.
  induction m as [m IH|m IH|]; simpl digits2_pos;
    rewrite ?Pos2Z.inj_succ, ?Z.pow_succ_r by lia; lia.
Qed.

Lemma mag_nonneg (x : float) : 0 <= mag x.
Proof.
  destruct x as [s| s| |s m e]; simpl; try lra.
  pose proof (pow2_pos e). assert (0 < inject_Z (Zpos m)) by reflexivity. nra.
Qed.

Lemma mantissa_exponent_le (m e : Z) :
  (0 <= m <= 2 ^ 53 - 1)%Z -> (e <= 971)%Z ->
  inject_Z m * pow2 e <= inject_Z max_float.
Proof.
  intros Hm He. unfold max_float. rewrite injZ_mul, <- (pow2_Z 971) by lia.
  assert (pow2 e <= pow2 971) by (apply bpow_le; [reflexivity|exact He]).
  pose proof (pow2_pos e).
  assert (0 <= inject_Z m) by (change 0 with (inject_Z 0); rewrite <- Zle_Qle; lia).
  assert (inject_Z m <= inject_Z (2 ^ 53 - 1)) by (rewrite <- Zle_Qle; lia).
  nra.
Qed.

Lemma valid_mag_le (x : float) :
  valid_binary prec emax x = true -> mag x <= inject_Z max_float.
Proof.
  destruct x as [s| s| |s m e]; intros H; try exact max_float_nonneg.
  simpl in H. unfold bounded, canonical_mantissa, fexp, SpecFloat.emin, prec, emax in H.
  apply andb_prop in H as [Hc He].
  apply Z.eqb_eq in Hc. apply Z.leb_le in He.
  pose proof (digits2_pos_lt m) as Hd.
  assert (Hd53 : (Zpos (digits2_pos m) <= 53)%Z) by lia.
  assert (2 ^ Zpos (digits2_pos m) <= 2 ^ 53)%Z by (apply Z.pow_le_mono_r; lia).
  simpl mag. apply mantissa_exponent_le; lia.
Qed.

Lemma assemble_mag_le (s : bool) (m e : Z) :
  (0 <= m <= 2 ^ 53)%Z -> mag (assemble s m e) <= inject_Z max_float.
Proof.
  intros Hm. unfold assemble.
  pose proof max_float_nonneg as H0.
  destruct (m <=? 0)%Z eqn:E0; [exact H0|]. apply Z.leb_gt in E0.
  destruct (m =? 2 ^ 53)%Z eqn:E53.
  - destruct (e + 1 <=? 971)%Z eqn:Ee; [|exact H0]. apply Z.leb_le in Ee.
    simpl mag. apply mantissa_exponent_le; [|exact Ee].
    change (Z.pos (Z.to_pos (2 ^ 52))) with (2 ^ 52)%Z. lia.
  - destruct (e <=? 971)%Z eqn:Ee; [|exact H0]. apply Z.leb_le in Ee.
    apply Z.eqb_neq in E53.
    simpl mag. rewrite Z2Pos.id by lia. apply mantissa_exponent_le; lia.
Qed.

Lemma nearest_mag_le (s : bool) (q : Q) : mag (nearest s q) <= inject_Z max_float.
Proof.
  destruct (Qlt_le_dec 0 q) as [Hq|Hq].
  - rewrite nearest_pos by exact Hq. apply assemble_mag_le, significand_bounds, Hq.
  - rewrite nearest_nonpos by exact Hq. exact max_float_nonneg.
Qed.

(** A value within the range of the format does not round to infinity. *)
Lemma nearest_in_range (s s' : bool) (q : Q) :
  q <= inject_Z max_float -> nearest s q <> S754_infinity s'.
Proof.
  intros Hq. destruct (Qlt_le_dec 0 q) as [H0|H0];
    [|rewrite nearest_nonpos by exact H0; discriminate].
  rewrite nearest_pos by exact H0.
  pose proof (ilog2_spec q H0) as [L _].
  assert (Hmax : inject_Z max_float < pow2 1024).
  { rewrite pow2_Z by lia. rewrite <- Zlt_Qlt. reflexivity. }
  assert (Hlog : (ilog2 q <= 1023)%Z).
  { assert (ilog2 q < 1024)%Z; [|lia].
    apply (bpow_lt_inv 2 ltac:(reflexivity)). unfold pow2 in *. lra. }
  assert (He : (gexp2 q <= 971)%Z) by (destruct (gexp2_cases q); lia).
  destruct (significand_bounds q H0) as [[Hm0 Hm1] _].
  unfold assemble. destruct (significand q <=? 0)%Z; [discriminate|].
  destruct (significand q =? 2 ^ 53)%Z eqn:E53.
  - apply Z.eqb_eq in E53.
    destruct (Z.eq_dec (gexp2 q) 971%Z) as [E971|Hne].
    + exfalso. assert (significand q <= 2 ^ 53 - 1)%Z; [|lia].
      unfold significand. apply rne_le. rewrite E971.
      pose proof (pow2_pos 971) as Hc.
      apply (Qmult_le_r _ _ _ Hc). rewrite Qdiv_mul_cancel by exact Hc.
      rewrite pow2_Z, <- injZ_mul by lia. exact Hq.
    + destruct (gexp2 q + 1 <=? 971)%Z eqn:Ee; [discriminate|].
      apply Z.leb_gt in Ee. lia.
  - destruct (gexp2 q <=? 971)%Z eqn:Ee; [discriminate|].
    apply Z.leb_gt in Ee. lia.
Qed.

Lemma rgrid_in_range (k : Z) (q : Q) :
  (0 <= k)%Z -> q <= inject_Z max_float ->
  rgrid (pow10 (- k)) q <= inject_Z max_float.
Proof.
  intros Hk Hq. pose proof (pow10_pos (- k)) as Hg.
  assert (E : inject_Z max_float == inject_Z (max_float * 10 ^ k) * pow10 (- k)).
  { rewrite injZ_mul, <- pow10_Z by exact Hk.
    pose proof (pow10_opp k) as Ho. pose proof (pow10_pos k).
    setoid_rewrite Ho. field. lra. }
  rewrite E. apply rgrid_nearest_above; [exact Hg|]. rewrite <- E. exact Hq.
Qed.

(** [round(x, k)] with [k >= 0] returns for every float of the format. *)
Lemma py_round_returns (x : float) (k : Z) :
  mag x <= inject_Z max_float -> (0 <= k)%Z -> exists r, py_round x k = Ok r.
Proof.
  intros Hx Hk. destruct x as [s| s| |s m e]; try (eexists; reflexivity).
  unfold py_round. destruct (323 <? k)%Z; [eexists; reflexivity|].
  destruct (k <? -308)%Z; [eexists; reflexivity|].
  pose proof (nearest_in_range s) as Hr.
  destruct (nearest s (round_places k (mag (S754_finite s m e)))) as [s'| s'| |s' m' e'] eqn:E;
    try (eexists; reflexivity).
  exfalso. apply (Hr s' _) in E; [exact E|].
  pose proof (round_places_rgrid k (mag (S754_finite s m e))) as Eg.
  pose proof (rgrid_in_range k _ Hk Hx). lra.
Qed.

End Range.


(** ** The metadata cache *)

Lemma get_asset_specs_returns (ex : Exchange) (st : TraderState) :
  exists sp st', get_asset_specs ex st = (Ok sp, st')
                 /\ _asset_specs st' = Some sp /\ sent st' = sent st.
Proof.
  unfold get_asset_specs.
  destruct (_asset_specs st) as [sp|] eqn:Hc.
  - exists sp, st. auto.
  - unfold try_except, bind, call, lift, ret, set_asset_specs; simpl.
    destruct (info_meta ex (tick st)) as [[universe|]|e]; simpl.
    + destruct (load_universe 0 universe ∅) as [sp|e]; simpl; eauto.
    + eauto.
    + eauto.
Qed.

(** Once loaded, the mapping is returned as it is and nothing is fetched. *)
Lemma get_asset_specs_again (ex : Exchange) (st st' : TraderState)
    (sp : gmap string AssetSpec) :
  get_asset_specs ex st = (Ok sp, st') ->
  get_asset_specs ex st' = (Ok sp, st').
Proof.
  intros H.
  destruct (get_asset_specs_returns ex st) as (sp0 & st0 & H0 & Hc & _).
  rewrite H in H0. inversion H0; subst.
  unfold get_asset_specs. rewrite Hc. reflexivity.
Qed.

Ltac run_specs H :=
  unfold try_except, bind, lift, ret; simpl; try rewrite H; simpl.

(** ** Minimum order size *)

(** C2. For a non-zero price, [get_min_order_size] returns
    [max(10^-d, 10/price)] for a symbol of the cache with size decimals [d],
    and [max(10/price, 0.0001)] for a symbol that is not in the cache; the
    only effect is the loading of the cache. *)
Theorem get_min_order_size_spec (ex : Exchange) (st st1 : TraderState)
    (sp : gmap string AssetSpec) (sym : string) (price : float) :
  get_asset_specs ex st = (Ok sp, st1) ->
  is_zero price = false ->
  get_min_order_size ex sym price st =
    (Ok match sp !! sym with
        | Some spec => py_max (pow10_neg (sz_decimals spec)) (fdiv_ieee f10 price)
        | None => py_max (fdiv_ieee f10 price) f0_0001
        end, st1).
Proof.
  intros Hsp Hz. unfold get_min_order_size. run_specs Hsp.
  destruct (sp !! sym) as [spec|]; unfold py_div; rewrite Hz; reflexivity.
Qed.

(** ** Division by a zero price *)

Lemma bind_ok {S A B} (m : Comp S A) (k : A -> Comp S B) st a st' :
  m st = (Ok a, st') -> bind m k st = k a st'.
Proof. intros H. unfold bind. rewrite H. reflexivity. Qed.

Lemma bind_raise {S A B} (m : Comp S A) (k : A -> Comp S B) st e st' :
  m st = (Raise e, st') -> bind m k st = (Raise e, st').
Proof. intros H. unfold bind. rewrite H. reflexivity. Qed.

Lemma try_except_ok {S A} (m : Comp S A) h st a st' :
  m st = (Ok a, st') -> try_except m h st = (Ok a, st').
Proof. intros H. unfold try_except. rewrite H. reflexivity. Qed.

Lemma try_except_raise {S A} (m : Comp S A) h st e st' :
  m st = (Raise e, st') -> try_except m h st = h e st'.
Proof. intros H. unfold try_except. rewrite H. reflexivity. Qed.

Lemma get_min_order_size_zero_price (ex : Exchange) (st : TraderState)
    (sym : string) (s : bool) :
  exists st', get_min_order_size ex sym (S754_zero s) st
              = (Raise ZeroDivisionError, st').
Proof.
  destruct (get_asset_specs_returns ex st) as (sp & st' & H & _).
  exists st'. unfold get_min_order_size. run_specs H.
  destruct (sp !! sym); reflexivity.
Qed.

Lemma get_vault_balance_returns (ex : Exchange) (st : TraderState) :
  exists v st', get_vault_balance ex st = (Ok v, st').
Proof.
  unfold get_vault_balance, try_except, bind, call, lift, ret; simpl.
  destruct (info_user_state ex (tick st)) as [[us|]|e]; simpl; eauto.
  destruct (marginSummary us) as [[| |f]|]; simpl; eauto;
    destruct (withdrawable us); simpl; eauto.
Qed.

(** C4. At a zero price the fallback of [get_min_order_size] divides by
    the price again, so the exception leaves the function; the fallback of
    [calculate_position_size] calls it and fails the same way. *)
Theorem sizing_raises_at_zero_price (ex : Exchange) (st : TraderState)
    (percentage : float) :
  fst (get_min_order_size ex "BTC" f0 st) = Raise ZeroDivisionError
  /\ fst (calculate_position_size ex "BTC" f0 percentage st)
     = Raise ZeroDivisionError.
Proof.
  split.
  { destruct (get_min_order_size_zero_price ex st "BTC" false) as (st' & H).
    unfold f0. rewrite H. reflexivity. }
  unfold calculate_position_size.
  destruct (get_vault_balance_returns ex st) as (v & st1 & Hv).
  match goal with
  | |- fst (try_except ?body ?h st) = _ =>
      assert (Hbody : exists st2, body st = (Raise ZeroDivisionError, st2));
      [ | destruct Hbody as (st2 & Hbody);
          rewrite (try_except_raise _ _ _ _ _ Hbody) ]
  end.
  - rewrite (bind_ok _ _ _ _ _ Hv). destruct v as [vi|].
    + unfold bind at 1. unfold lift at 1, py_div at 1. simpl is_zero. cbv iota.
      destruct (get_min_order_size_zero_price ex st1 "BTC" false) as (st2 & H).
      exists st2. apply bind_raise. exact H.
    + exists st1. reflexivity.
  - simpl String.eqb. cbv iota.
    destruct (get_min_order_size_zero_price ex st2 "BTC" false) as (st3 & H).
    unfold f0. erewrite bind_raise by exact H. reflexivity.
Qed.

(** ** Size adjustment *)

Lemma get_min_order_size_returns (ex : Exchange) (st st1 : TraderState)
    (sp : gmap string AssetSpec) (sym : string) (price : float) :
  get_asset_specs ex st = (Ok sp, st1) ->
  is_zero price = false ->
  exists m, get_min_order_size ex sym price st = (Ok m, st1).
Proof.
  intros Hsp Hz. unfold get_min_order_size. run_specs Hsp.
  destruct (sp !! sym); unfold py_div; rewrite Hz; eexists; reflexivity.
Qed.

(** C3. For a price other than zero and a size that is a binary64
    value, [validate_and_adjust_size] returns 1.01 times the minimum order
    size when the size is below it; otherwise it returns the size rounded
    to the size decimals of the symbol when the cache has the symbol, and
    the size unchanged when it has not.  The rounding never raises, and
    the only effect is the loading of the cache. *)
Theorem validate_and_adjust_size_spec (ex : Exchange) (st st1 : TraderState)
    (sp : gmap string AssetSpec) (sym : string) (size price : float) :
  get_asset_specs ex st = (Ok sp, st1) ->
  is_zero price = false ->
  valid_binary prec emax size = true ->
  adjusted_as_specified ex sp sym size price st
  /\ snd (validate_and_adjust_size ex sym size price st) = st1.
Proof.
  intros Hsp Hz Hv.
  destruct (get_min_order_size_returns ex st st1 sp sym price Hsp Hz) as [m Hm].
  pose proof (get_asset_specs_again ex st st1 sp Hsp) as Hsp1.
  unfold adjusted_as_specified, rounded_size. rewrite Hm. cbn [fst].
  unfold validate_and_adjust_size.
  destruct (flt size m) eqn:Hlt.
  - erewrite try_except_ok.
    2:{ rewrite (bind_ok _ _ _ _ _ Hm), Hlt. reflexivity. }
    split; [eexists; split; reflexivity|reflexivity].
  - destruct (sp !! sym) as [spec|] eqn:Hsym.
    + destruct (py_round_returns size (Z.of_N (sz_decimals spec))
                  (valid_mag_le size Hv) (N2Z.is_nonneg _)) as [r Hr].
      erewrite try_except_ok.
      2:{ rewrite (bind_ok _ _ _ _ _ Hm), Hlt, (bind_ok _ _ _ _ _ Hsp1), Hsym.
          unfold lift. rewrite Hr. reflexivity. }
      split; [exists r; split; [reflexivity|exact Hr]|reflexivity].
    + erewrite try_except_ok.
      2:{ rewrite (bind_ok _ _ _ _ _ Hm), Hlt, (bind_ok _ _ _ _ _ Hsp1), Hsym.
          reflexivity. }
      split; [eexists; split; reflexivity|reflexivity].
Qed.

(** ** Price formatting *)

Lemma fmt5g_in_range (x : float) : (mag (fmt5g x) <= inject_Z max_float)%Q.
Proof.
  destruct x as [s| s| |s m e]; try exact max_float_nonneg.
  apply nearest_mag_le.
Qed.

(** [format_price] returns the rounding of the printed price, or the
    printed price when the rounding raises or the symbol is unknown. *)
Lemma format_price_run (ex : Exchange) (st st1 : TraderState)
    (sp : gmap string AssetSpec) (sym : string) (p : float) :
  get_asset_specs ex st = (Ok sp, st1) ->
  format_price ex p sym st =
    (Ok match sp !! sym with
        | Some spec =>
            rounded_price
              ((if 10000 <=? asset_id spec then 8 else 6) - Z.of_N (sz_decimals spec))
              (fmt5g p)
        | None => fmt5g p
        end, st1).
Proof.
  intros Hsp. unfold format_price, try_except.
  rewrite (bind_ok _ _ _ _ _ Hsp).
  destruct (sp !! sym) as [spec|]; [|reflexivity].
  unfold lift, rounded_price, ret.
  destruct (py_round _ _); reflexivity.
Qed.

(** C6. For a symbol of the cache with asset identifier below 10000 and
    size decimals [s], [format_price] returns the price printed with five
    significant digits and then rounded to [6 - s] decimals, and to
    [8 - s] decimals from identifier 10000 on; that rounding returns
    whenever the number of decimals is not negative.  For an unknown
    symbol the result is the price printed with five significant digits. *)
Theorem format_price_spec (ex : Exchange) (st st1 : TraderState)
    (sp : gmap string AssetSpec) (sym : string) (p : float) :
  get_asset_specs ex st = (Ok sp, st1) ->
  match sp !! sym with
  | Some spec =>
      let decimals := if 10000 <=? asset_id spec then 8 else 6 in
      let final_decimals := decimals - Z.of_N (sz_decimals spec) in
      (forall r, py_round (fmt5g p) final_decimals = Ok r ->
                 format_price ex p sym st = (Ok r, st1))
      /\ (0 <= final_decimals -> exists r, py_round (fmt5g p) final_decimals = Ok r)
  | None => format_price ex p sym st = (Ok (fmt5g p), st1)
  end.
Proof.
  intros Hsp. pose proof (format_price_run ex st st1 sp sym p Hsp) as Hrun.
  destruct (sp !! sym) as [spec|]; [|exact Hrun].
  cbv zeta. split.
  - intros r Hr. rewrite Hrun. unfold rounded_price. rewrite Hr. reflexivity.
  - intros Hk. apply py_round_returns; [apply fmt5g_in_range|exact Hk].
Qed.

(** C7. [format_price] is idempotent: formatting the price that
    [format_price] returned, for the same symbol, returns that price
    again, for every float and every symbol, whatever the cache holds. *)
Theorem format_price_idempotent (ex : Exchange) (st : TraderState)
    (sym : string) (p : float) :
  exists r st1,
    format_price ex p sym st = (Ok r, st1)
    /\ format_price ex r sym st1 = (Ok r, st1).
Proof.
  destruct (get_asset_specs_returns ex st) as (sp & st1 & Hsp & _).
  pose proof (get_asset_specs_again ex st st1 sp Hsp) as Hsp1.
  eexists. exists st1. split; [apply (format_price_run ex st st1 sp sym p Hsp)|].
  rewrite (format_price_run ex st1 st1 sp sym _ Hsp1).
  destruct (sp !! sym) as [spec|].
  - rewrite rounded_price_idem. reflexivity.
  - rewrite fmt5g_idem. reflexivity.
Qed.

(** ** Exit monitor *)

Lemma try_except_ret_total {S A} (m : Comp S A) (d : A) (st : S) :
  exists a st', try_except m (fun _ => ret d) st = (Ok a, st').
Proof.
  unfold try_except, ret. destruct (m st) as [[a|e] st']; eauto.
Qed.

Lemma close_position_returns (ex : Exchange) (sym : string) (st : TraderState) :
  exists r st', close_position ex sym st = (Ok r, st').
Proof. apply try_except_ret_total. Qed.

Lemma monitor_trader_frame {A} (m : M A) (sv : Server) :
  active_positions (snd (monitor_trader m sv)) = active_positions sv
  /\ closing (snd (monitor_trader m sv)) = closing sv
  /\ monitoring_active (snd (monitor_trader m sv)) = monitoring_active sv.
Proof.
  unfold monitor_trader.
  destruct (m _) as [r ts]. simpl. auto.
Qed.

(** Float comparison is transitive (a NaN compares with nothing). *)
Lemma fle_trans (a b c : float) :
  fle a b = true -> fle b c = true -> fle a c = true.
Proof.
  unfold fle, SFleb, SFcompare.
  destruct a as [sa|sa| |sa ma ea], b as [sb|sb| |sb mb eb],
           c as [sc|sc| |sc mc ec];
    try destruct sa; try destruct sb; try destruct sc;
    try (intros; (reflexivity || discriminate));
    change (Pos.compare_cont Eq) with Pos.compare;
    try destruct (Z.compare_spec ea eb);
    try destruct (Z.compare_spec eb ec);
    try destruct (Z.compare_spec ea ec);
    try (intros; (reflexivity || discriminate || lia));
    subst;
    try destruct (Pos.compare_spec ma mb);
    try destruct (Pos.compare_spec mb mc);
    try destruct (Pos.compare_spec ma mc);
    simpl; intros; try (reflexivity || discriminate || lia).
Qed.

(** The price checks alone: the first condition that holds, in the
    order TP1, TP2, SL, gives the reason. *)
Lemma check_price_exit_buy (price t1 t2 s : float) :
  check_price_exit true price t1 t2 s =
    if fge price t1 then (true, Some TP1_hit)
    else if fge price t2 then (true, Some TP2_hit)
    else if fle price s then (true, Some SL_hit)
    else (false, None).
Proof. reflexivity. Qed.

Lemma check_price_exit_sell (price t1 t2 s : float) :
  check_price_exit false price t1 t2 s =
    if fle price t1 then (true, Some TP1_hit)
    else if fle price t2 then (true, Some TP2_hit)
    else if fge price s then (true, Some SL_hit)
    else (false, None).
Proof. reflexivity. Qed.

(** With an aware deadline the verdict is the one of the price checks
    unless the deadline has passed, and then it is the time-based one. *)
Lemma check_exit_aware (td : TrackedPosition) (price : float) (now deadline : Z) :
  max_exit_time td = Aware deadline ->
  check_exit td price (Aware now) =
    Ok (if deadline <=? now then (true, Some Max_exit_time_reached)
        else check_price_exit (is_buy td) price (tp1 td) (tp2 td) (sl td)).
Proof.
  intros H. unfold check_exit. rewrite H. simpl.
  destruct (check_price_exit _ _ _ _ _) as [b r].
  destruct (deadline <=? now); reflexivity.
Qed.

(** C1. A tracked position whose deadline was given without a UTC
    offset is held as a naive datetime; the comparison with the aware
    [now] raises whatever the price, so no verdict is reached.  On the
    sample registry, with the price 111 above [tp1 = 110], the pass of
    the monitor ends there: the position stays, nothing is closed. *)
Theorem check_exit_naive_deadline (sym : string) (buy : bool)
    (t1 t2 s entry price : float) (res : OrderResult) (wall now : Z) :
  check_exit {| symbol := sym; is_buy := buy; tp1 := t1; tp2 := t2; sl := s;
                max_exit_time := Naive wall; entry_price := entry;
                order_result := res |} price (Aware now)
  = Raise TypeError
  /\ (let sv := Sample.server (Naive wall) in
      let sv' := monitor_cycle Sample.exchange sv in
      active_positions sv' = active_positions sv
      /\ orders sv' = [] /\ closing sv' = []).
Proof.
  split.
  - unfold check_exit. simpl.
    destruct (check_price_exit buy price t1 t2 s). reflexivity.
  - vm_compute. auto.
Qed.

Lemma check_exit_reason (td : TrackedPosition) (price : float) (now : pydatetime)
    (should_close : bool) (reason : option CloseReason) :
  check_exit td price now = Ok (should_close, reason) ->
  reason = Some Max_exit_time_reached
  \/ (should_close, reason)
     = check_price_exit (is_buy td) price (tp1 td) (tp2 td) (sl td).
Proof.
  unfold check_exit.
  destruct (check_price_exit _ _ _ _ _) as [b r].
  destruct (datetime_ge now (max_exit_time td)) as [[|]|e]; intros H;
    inversion H; subst; auto.
Qed.

(** C9. With [tp1 <= tp2] on a buy, or [tp1 >= tp2] on a sell, the
    verdict never carries the TP2 reason: a price past TP2 is past TP1,
    which is checked first. *)
Theorem tp2_reason_unreachable (td : TrackedPosition) (price : float)
    (now : pydatetime) (should_close : bool) (reason : option CloseReason) :
  (is_buy td = true /\ fle (tp1 td) (tp2 td) = true)
  \/ (is_buy td = false /\ fge (tp1 td) (tp2 td) = true) ->
  check_exit td price now = Ok (should_close, reason) ->
  reason <> Some TP2_hit.
Proof.
  intros Hord H. apply check_exit_reason in H.
  destruct H as [H|H]; [rewrite H; discriminate|].
  destruct Hord as [[Hb Hle]|[Hb Hge]]; rewrite Hb in H.
  - rewrite check_price_exit_buy in H.
    destruct (fge price (tp1 td)) eqn:H1; [inversion H; discriminate|].
    destruct (fge price (tp2 td)) eqn:H2.
    + unfold fge in *. rewrite (fle_trans _ _ _ Hle H2) in H1. discriminate.
    + destruct (fle price (sl td)); inversion H; discriminate.
  - rewrite check_price_exit_sell in H.
    destruct (fle price (tp1 td)) eqn:H1; [inversion H; discriminate|].
    destruct (fle price (tp2 td)) eqn:H2.
    + unfold fge in *. rewrite (fle_trans _ _ _ H2 Hge) in H1. discriminate.
    + destruct (fge price (sl td)); inversion H; discriminate.
Qed.

Lemma dict_get_remove {V} (k : string) (d : list (string * V)) :
  dict_get k (dict_remove k d) = None.
Proof.
  induction d as [|[k' v] d IH]; simpl; [reflexivity|].
  destruct (String.eqb k' k) eqn:E; [exact IH|].
  simpl. rewrite E. exact IH.
Qed.

Lemma dict_get_remove_other {V} (k k' : string) (d : list (string * V)) :
  k' <> k -> dict_get k' (dict_remove k d) = dict_get k' d.
Proof.
  intros Hne. induction d as [|[k0 v] d IH]; simpl; [reflexivity|].
  destruct (String.eqb k0 k) eqn:E.
  - apply String.eqb_eq in E. subst k0.
    destruct (String.eqb k k') eqn:E'; [apply String.eqb_eq in E'; congruence|].
    exact IH.
  - simpl. destruct (String.eqb k0 k'); [reflexivity|exact IH].
Qed.

(** When the exit check says to close, [close_position] is run
    from the state reached, and the entry is deleted exactly when its
    result is truthy; after a failed close the registry is as it was, so
    the next pass examines the entry again. *)
Theorem monitor_entry_close (ex : Exchange) (sv sv1 sv2 : Server)
    (signal_id : string) (td : TrackedPosition) (price : float)
    (pos : AssetPosition) (reason : CloseReason) :
  dict_get signal_id (active_positions sv) = Some td ->
  monitor_trader (get_current_price ex (symbol td)) sv = (Ok (Some price), sv1) ->
  truthy price = true ->
  monitor_trader (get_position ex (symbol td)) sv1 = (Ok (Some pos), sv2) ->
  check_exit td price (Aware (datetime_now ex (calls sv2))) = Ok (true, Some reason) ->
  let sv3 := snd (log_closing (symbol td) reason (snd (utc_now ex sv2))) in
  let final := snd (monitor_entry ex signal_id td sv) in
  exists close_result sv4,
    monitor_trader (close_position ex (symbol td)) sv3 = (Ok close_result, sv4)
    /\ fst (monitor_entry ex signal_id td sv) = Ok tt
    /\ calls final = calls sv4 /\ orders final = orders sv4
    /\ active_positions final =
         (if order_truthy close_result
          then dict_remove signal_id (active_positions sv)
          else active_positions sv)
    /\ dict_get signal_id (active_positions final) =
         (if order_truthy close_result then None else Some td).
Proof.
  intros Hin Hp Ht Hpos Hex sv3 final.
  assert (Ha1 : active_positions sv1 = active_positions sv).
  { pose proof (monitor_trader_frame (get_current_price ex (symbol td)) sv) as F.
    rewrite Hp in F. apply F. }
  assert (Ha2 : active_positions sv2 = active_positions sv).
  { pose proof (monitor_trader_frame (get_position ex (symbol td)) sv1) as F.
    rewrite Hpos in F. simpl in F. destruct F as [F _]. congruence. }
  assert (Hnow : utc_now ex sv2
                 = (Ok (Aware (datetime_now ex (calls sv2))), snd (utc_now ex sv2))).
  { reflexivity. }
  assert (Ha3 : active_positions sv3 = active_positions sv).
  { subst sv3. simpl. exact Ha2. }
  destruct (close_position_returns ex (symbol td)
              {| _asset_specs := monitor_specs sv3; tick := calls sv3;
                 sent := orders sv3 |}) as (cr & ts & Hc).
  set (sv4 := {| active_positions := active_positions sv3;
                 monitoring_active := monitoring_active sv3;
                 monitor_specs := _asset_specs ts;
                 calls := tick ts; orders := sent ts;
                 closing := closing sv3 |}).
  assert (Hrun : monitor_trader (close_position ex (symbol td)) sv3 = (Ok cr, sv4)).
  { unfold monitor_trader. rewrite Hc. reflexivity. }
  assert (Hentry : monitor_entry ex signal_id td sv =
            (if order_truthy cr then del_active_position signal_id sv4
             else (Ok tt, sv4))).
  { unfold monitor_entry, bind.
    rewrite Hp. rewrite Ht. change (negb true) with false. cbv beta iota.
    rewrite Hpos. cbv beta iota. rewrite Hnow.
    unfold lift at 1. rewrite Hex. cbv beta iota.
    change (log_closing (symbol td) reason (snd (utc_now ex sv2)))
      with (Ok tt, sv3).
    cbv beta iota. rewrite Hrun.
    destruct (order_truthy cr); reflexivity. }
  assert (Hdel : del_active_position signal_id sv4 =
            set_active_positions (dict_remove signal_id (active_positions sv)) sv4).
  { unfold del_active_position, dict_del.
    change (active_positions sv4) with (active_positions sv3).
    rewrite Ha3, Hin. reflexivity. }
  exists cr, sv4. split; [exact Hrun|].
  subst final. rewrite Hentry.
  destruct (order_truthy cr).
  - rewrite Hdel. simpl. repeat split; auto. apply dict_get_remove.
  - cbn [fst snd].
    change (active_positions sv4) with (active_positions sv3).
    rewrite Ha3. repeat split; auto.
Qed.

(** ** Signal intake *)

Section IntakeProperties.

Variable float_of_string : string -> option float.
Variable fromisoformat : string -> option pydatetime.
Variable ex : Exchange.
Variable environ : Environ.

Lemma extract_basic_state (payload : json) :
  snd (extract_basic float_of_string payload tt) = tt.
Proof. destruct (snd _). reflexivity. Qed.


Lemma try_except_parse_cases {A} (body : Comp unit (Z * ErrorKind + A)) (k : exn -> ErrorKind) :
  match fst (try_except_parse body (fun e => ret (inl (400, (k e)))) tt) with
  | Ok (inr a) => exists u, body tt = (Ok (inr a), u)
  | Ok (inl r) => body tt = (Ok (inl r), tt) \/ exists e, r = (400, k e)
  | Raise e => True
  end.
Proof.
  unfold try_except_parse, ret.
  destruct (body tt) as [[[r|a]|[]] []]; simpl; eauto.
Qed.



Lemma dict_get_set {V} (k : string) (v : V) (d : list (string * V)) :
  dict_get k (dict_set k v d) = Some v.
Proof.
  induction d as [|[k' v'] d IH]; simpl.
  - rewrite String.eqb_refl. reflexivity.
  - destruct (String.eqb k' k) eqn:E; simpl; rewrite E; auto.
Qed.

Lemma dict_get_set_other {V} (k k' : string) (v : V) (d : list (string * V)) :
  k' <> k -> dict_get k' (dict_set k v d) = dict_get k' d.
Proof.
  intros Hne. induction d as [|[k0 v0] d IH]; simpl.
  - destruct (String.eqb k k') eqn:E; [apply String.eqb_eq in E; congruence|].
    reflexivity.
  - destruct (String.eqb k0 k) eqn:E; simpl.
    + apply String.eqb_eq in E. subst k0.
      destruct (String.eqb k k') eqn:E'; [apply String.eqb_eq in E'; congruence|].
      reflexivity.
    + destruct (String.eqb k0 k'); auto.
Qed.

Lemma dict_set_present_length {V} (k : string) (v v0 : V) (d : list (string * V)) :
  dict_get k d = Some v0 -> length (dict_set k v d) = length d.
Proof.
  induction d as [|[k' v'] d IH]; simpl; [discriminate|].
  destruct (String.eqb k' k); simpl; auto.
Qed.

(** A request that succeeds read the clock with its last call, and
    stored its position under the symbol and the whole seconds read. *)
Lemma receive_signal_success (payload : json) (sv sv' : Server) (acc : Accepted) :
  receive_signal float_of_string fromisoformat ex environ payload sv
    = (Success acc, sv') ->
  exists sg seconds,
    fst (validate_signal float_of_string fromisoformat payload tt) = Ok (inr sg)
    /\ py_int (time_time ex (pred (calls sv'))) = Ok seconds
    /\ r_signal_id acc = (s_symbol sg ++ "_" ++ str_of_int seconds)%string
    /\ active_positions sv'
       = dict_set (r_signal_id acc) (tracked sg (r_entry_price acc) (r_order_result acc)) (active_positions sv).
Proof.
  unfold receive_signal, handle_signal, bind, lift.
  destruct (fst (validate_signal float_of_string fromisoformat payload tt))
    as [[[status kind]|sg]|e]; try (unfold ret; intros H; inversion H; fail).
  destruct (load_config environ); try (unfold ret; intros H; inversion H; fail).
  unfold request_trader at 1.
  destruct (execute_signal float_of_string ex environ sg
              (new_trader (calls sv) (orders sv))) as [[[[status kind]|pl]|e] ts] eqn:Hx;
    try (unfold ret; intros H; inversion H; fail).
  unfold register, bind, request_trader, call, new_trader, lift,
    set_active_positions, ret. simpl.
  destruct (py_int (time_time ex (tick ts))) as [seconds|e] eqn:Hi;
    [|intros H; inversion H].
  unfold start_monitoring. simpl.
  destruct (monitoring_active sv); intros H; inversion H; subst; simpl;
    exists sg, seconds; rewrite Hi; auto.
Qed.

(** C10. Two successful requests for the same symbol whose clock
    readings fall in the same whole second get the same identifier; the
    second assignment replaces the position stored by the first, and the
    registry has no more entries than before. *)
Theorem same_second_overwrites (payload1 payload2 : json) (sv0 sv1 sv2 : Server)
    (acc1 acc2 : Accepted) (sg1 sg2 : Signal) :
  receive_signal float_of_string fromisoformat ex environ payload1 sv0
    = (Success acc1, sv1) ->
  receive_signal float_of_string fromisoformat ex environ payload2 sv1
    = (Success acc2, sv2) ->
  fst (validate_signal float_of_string fromisoformat payload1 tt) = Ok (inr sg1) ->
  fst (validate_signal float_of_string fromisoformat payload2 tt) = Ok (inr sg2) ->
  s_symbol sg1 = s_symbol sg2 ->
  py_int (request_clock ex sv1) = py_int (request_clock ex sv2) ->
  r_signal_id acc1 = r_signal_id acc2
  /\ dict_get (r_signal_id acc1) (active_positions sv1) = Some (tracked sg1 (r_entry_price acc1) (r_order_result acc1))
  /\ dict_get (r_signal_id acc1) (active_positions sv2) = Some (tracked sg2 (r_entry_price acc2) (r_order_result acc2))
  /\ length (active_positions sv2) = length (active_positions sv1)
  /\ (forall k, k <> r_signal_id acc1 ->
        dict_get k (active_positions sv2) = dict_get k (active_positions sv1)).
Proof.
  intros H1 H2 Hv1 Hv2 Hsym Hclock.
  apply receive_signal_success in H1. apply receive_signal_success in H2.
  destruct H1 as (sg1' & n1 & Hv1' & Hn1 & Hid1 & Hreg1).
  destruct H2 as (sg2' & n2 & Hv2' & Hn2 & Hid2 & Hreg2).
  rewrite Hv1 in Hv1'. rewrite Hv2 in Hv2'.
  inversion Hv1'; inversion Hv2'; subst sg1' sg2'.
  unfold request_clock in Hclock. rewrite Hn1, Hn2 in Hclock.
  inversion Hclock; subst n2.
  assert (Hid : r_signal_id acc1 = r_signal_id acc2).
  { rewrite Hid1, Hid2, Hsym. reflexivity. }
  split; [exact Hid|].
  assert (Hg1 : dict_get (r_signal_id acc1) (active_positions sv1)
                = Some (tracked sg1 (r_entry_price acc1) (r_order_result acc1))).
  { rewrite Hreg1. apply dict_get_set. }
  split; [exact Hg1|].
  rewrite Hreg2, <- Hid.
  split; [apply dict_get_set|].
  split; [exact (dict_set_present_length _ _ _ _ Hg1)|].
  intros k Hk. apply dict_get_set_other. exact Hk.
Qed.

End IntakeProperties.

(** ** Effects of the trader's methods *)

Section Preserves.

Context {S : Type} (R : S -> S -> Prop).
Hypothesis R_refl : forall st, R st st.
Hypothesis R_trans : forall a b c, R a b -> R b c -> R a c.

Lemma preserves_ret {A} (a : A) : preserves R (ret a).
Proof. intros st. apply R_refl. Qed.

Lemma preserves_raise {A} (e : exn) : preserves R (@raise S A e).
Proof. intros st. apply R_refl. Qed.

Lemma preserves_lift {A} (r : result A) : preserves R (lift r).
Proof. intros st. apply R_refl. Qed.

Lemma preserves_bind {A B} (m : Comp S A) (k : A -> Comp S B) :
  preserves R m -> (forall a, preserves R (k a)) -> preserves R (bind m k).
Proof.
  intros Hm Hk st. unfold bind. specialize (Hm st).
  destruct (m st) as [[a|e] st1]; simpl in *; [|exact Hm].
  exact (R_trans _ _ _ Hm (Hk a st1)).
Qed.

Lemma preserves_try_except {A} (m : Comp S A) (h : exn -> Comp S A) :
  preserves R m -> (forall e, preserves R (h e)) -> preserves R (try_except m h).
Proof.
  intros Hm Hh st. unfold try_except. specialize (Hm st).
  destruct (m st) as [[a|e] st1]; simpl in *; [exact Hm|].
  exact (R_trans _ _ _ Hm (Hh e st1)).
Qed.

End Preserves.

Lemma returns_try_except {S A} (m : Comp S A) (h : exn -> Comp S A) :
  (forall e, returns (h e)) -> returns (try_except m h).
Proof.
  intros Hh st. unfold try_except.
  destruct (m st) as [[a|e] st1]; [eauto|apply Hh].
Qed.

Lemma returns_ret {S A} (a : A) : returns (@ret S A a).
Proof. intros st. unfold ret. eauto. Qed.

Lemma returns_bind {S A B} (m : Comp S A) (k : A -> Comp S B) :
  returns m -> (forall a, returns (k a)) -> returns (bind m k).
Proof.
  intros Hm Hk st. destruct (Hm st) as (a & st1 & E).
  unfold bind. rewrite E. apply Hk.
Qed.

Lemma reads_refl (st : TraderState) : reads st st.
Proof. unfold reads. auto. Qed.

Lemma reads_trans (a b c : TraderState) : reads a b -> reads b c -> reads a c.
Proof.
  unfold reads. intros (S1 & T1 & C1) (S2 & T2 & C2).
  split; [congruence|]. split; [lia|]. auto.
Qed.

Lemma reads_call {A} (oracle : nat -> result A) : preserves reads (call oracle).
Proof. intros st. unfold reads, call. simpl. auto. Qed.

(** Rules for computations that only read the trader. *)
Ltac reads_step :=
  first
    [ assumption
    | match goal with H : context [preserves reads] |- _ => solve [apply H] end
    | apply (preserves_ret reads reads_refl)
    | apply (preserves_raise reads reads_refl)
    | apply (preserves_lift reads reads_refl)
    | apply reads_call
    | apply (preserves_bind reads reads_trans); [|intros ?]
    | apply (preserves_try_except reads reads_trans); [|intros ?]
    | progress cbv zeta ].

Ltac reads_auto :=
  repeat first
    [ reads_step
    | match goal with
      | |- preserves reads (match ?x with _ => _ end) => destruct x
      | |- preserves reads (if ?x then _ else _) => destruct x
      | |- preserves reads (let '(_, _) := ?x in _) => destruct x
      end ].

Section TraderEffects.

Variable ex : Exchange.

Lemma reads_get_asset_specs : preserves reads (get_asset_specs ex).
Proof.
  intros st. destruct (get_asset_specs_returns ex st) as (sp & st1 & E & Hc & Hs).
  rewrite E. cbn [snd]. unfold reads. split; [exact Hs|].
  unfold get_asset_specs in E.
  destruct (_asset_specs st) as [sp0|] eqn:Hc0.
  - inversion E; subst. split; [lia|]. intros sp' H'. congruence.
  - split; [|intros sp' H'; discriminate].
    unfold try_except, bind, call, lift, ret, set_asset_specs in E. simpl in E.
    destruct (info_meta ex (tick st)) as [[universe|]|e]; simpl in E.
    + destruct (load_universe 0 universe ∅); inversion E; simpl; lia.
    + inversion E. simpl. lia.
    + inversion E. simpl. lia.
Qed.

Lemma reads_get_min_order_size (sym : string) (price : float) :
  preserves reads (get_min_order_size ex sym price).
Proof.
  pose proof reads_get_asset_specs. unfold get_min_order_size. reads_auto.
Qed.

Lemma reads_validate_and_adjust_size (sym : string) (size price : float) :
  preserves reads (validate_and_adjust_size ex sym size price).
Proof.
  pose proof reads_get_asset_specs. pose proof (reads_get_min_order_size sym price).
  unfold validate_and_adjust_size. reads_auto.
Qed.

Lemma reads_format_price (price : float) (sym : string) :
  preserves reads (format_price ex price sym).
Proof.
  pose proof reads_get_asset_specs. unfold format_price. reads_auto.
Qed.

Lemma reads_get_current_price (sym : string) :
  preserves reads (get_current_price ex sym).
Proof. unfold get_current_price. reads_auto. Qed.

Lemma reads_get_market_price (sym : string) (is_buy : bool) :
  preserves reads (get_market_price ex sym is_buy).
Proof.
  pose proof (reads_get_current_price sym).
  pose proof (fun p => reads_format_price p sym).
  unfold get_market_price. reads_auto.
Qed.

Lemma reads_get_position (sym : string) : preserves reads (get_position ex sym).
Proof. unfold get_position. reads_auto. Qed.

Lemma reads_get_vault_balance : preserves reads (get_vault_balance ex).
Proof. unfold get_vault_balance. reads_auto. Qed.

Lemma reads_calculate_position_size (sym : string) (price percentage : float) :
  preserves reads (calculate_position_size ex sym price percentage).
Proof.
  pose proof reads_get_vault_balance.
  pose proof (reads_get_min_order_size sym price).
  pose proof (fun s => reads_validate_and_adjust_size sym s price).
  unfold calculate_position_size. reads_auto.
Qed.

End TraderEffects.

(** ** The metadata cache, continued *)

Lemma load_universe_raises (universe : list MetaAsset) (idx : Z)
    (acc : gmap string AssetSpec) :
  (exists a, In a universe /\ ma_name a = None) ->
  load_universe idx universe acc = Raise KeyError.
Proof.
  revert idx acc. induction universe as [|a rest IH]; intros idx acc (b & Hin & Hb).
  - destruct Hin.
  - simpl. destruct (ma_name a) as [name|] eqn:Ha; [|reflexivity].
    apply IH. destruct Hin as [->|Hin]; [congruence|eauto].
Qed.

Lemma load_universe_returns (universe : list MetaAsset) (idx : Z)
    (acc : gmap string AssetSpec) :
  (forall a, In a universe -> ma_name a <> None) ->
  exists sp, load_universe idx universe acc = Ok sp.
Proof.
  revert idx acc. induction universe as [|a rest IH]; intros idx acc Hnames; simpl.
  - eauto.
  - destruct (ma_name a) eqn:Ha.
    + apply IH. intros b Hb. apply Hnames. right. exact Hb.
    + exfalso. apply (Hnames a); [left; reflexivity|exact Ha].
Qed.

(** The mapping built from a universe: a name is bound to the entry of
    its last occurrence, numbered from [idx]. *)
Lemma load_universe_lookup (universe : list MetaAsset) (idx : Z)
    (acc sp : gmap string AssetSpec) (name : string) :
  load_universe idx universe acc = Ok sp ->
  match sp !! name with
  | Some spec =>
      (acc !! name = Some spec
       /\ forall a, In a universe -> ma_name a <> Some name)
      \/ exists (i : nat) a,
           universe !! i = Some a /\ ma_name a = Some name
           /\ asset_id spec = idx + Z.of_nat i
           /\ sz_decimals spec = default 4%N (ma_szDecimals a)
           /\ max_leverage spec = default 1 (ma_maxLeverage a)
           /\ only_isolated spec = default false (ma_onlyIsolated a)
           /\ forall (j : nat) a', (i < j)%nat -> universe !! j = Some a' ->
                                   ma_name a' <> Some name
  | None =>
      acc !! name = None /\ forall a, In a universe -> ma_name a <> Some name
  end.
Proof.
  revert idx acc. induction universe as [|a rest IH]; intros idx acc H.
  - simpl in H. inversion H; subst sp.
    destruct (acc !! name); [left|]; split; auto; intros ? [].
  - simpl in H. destruct (ma_name a) as [n|] eqn:Ha; [|discriminate].
    specialize (IH _ _ H).
    destruct (sp !! name) as [spec|].
    + destruct IH as [[Hacc Hno]|(i & b & Hi & Hb & Hid & Hrest)].
      * destruct (decide (n = name)) as [->|Hne].
        -- right. exists 0%nat, a. rewrite lookup_insert_eq in Hacc.
           inversion Hacc; subst spec. simpl.
           repeat split; auto; try lia.
           intros j a' Hj Hl. destruct j; [lia|]. simpl in Hl.
           apply Hno. apply (proj1 (list_elem_of_In _ _)). eapply list_elem_of_lookup_2, Hl.
        -- left. rewrite lookup_insert_ne in Hacc by exact Hne.
           split; [exact Hacc|]. intros b [<-|Hb]; [congruence|auto].
      * right. exists (S i), b. simpl.
        destruct Hrest as (Hsz & Hlev & Hiso & Hlast).
        repeat split; auto; try lia.
        intros j a' Hj Hl. destruct j; [lia|]. simpl in Hl.
        apply (Hlast j a'); [lia|exact Hl].
    + destruct IH as [Hacc Hno].
      destruct (decide (n = name)) as [->|Hne].
      * rewrite lookup_insert_eq in Hacc. discriminate.
      * rewrite lookup_insert_ne in Hacc by exact Hne.
        split; [exact Hacc|]. intros b [<-|Hb]; [congruence|auto].
Qed.

Section Cache.

Variable ex : Exchange.

(** What [get_asset_specs] answers on a trader that has no cache yet. *)
Lemma get_asset_specs_fresh (st : TraderState) :
  _asset_specs st = None ->
  let sp := match info_meta ex (tick st) with
            | Ok (Some universe) =>
                match load_universe 0 universe ∅ with Ok sp => sp | Raise _ => ∅ end
            | _ => ∅
            end in
  get_asset_specs ex st =
    (Ok sp, {| _asset_specs := Some sp; tick := S (tick st); sent := sent st |}).
Proof.
  intros Hc. unfold get_asset_specs. rewrite Hc.
  unfold try_except, bind, call, lift, ret, set_asset_specs. simpl.
  destruct (info_meta ex (tick st)) as [[universe|]|e]; simpl; try reflexivity.
  destruct (load_universe 0 universe ∅); reflexivity.
Qed.

Lemma get_asset_specs_cached (st : TraderState) (sp : gmap string AssetSpec) :
  _asset_specs st = Some sp -> get_asset_specs ex st = (Ok sp, st).
Proof. intros Hc. unfold get_asset_specs. rewrite Hc. reflexivity. Qed.

(** X1. [get_asset_specs] never raises and submits nothing; it asks the
    exchange at most once, and what it answered is answered again with
    no further call.  A fetch that failed, and a universe with an asset
    that has no name, leave the empty mapping in the cache for good. *)
Theorem asset_specs_fetched_once (st : TraderState) :
  exists sp st1,
    get_asset_specs ex st = (Ok sp, st1)
    /\ get_asset_specs ex st1 = (Ok sp, st1)
    /\ sent st1 = sent st
    /\ (tick st1 <= S (tick st))%nat
    /\ (_asset_specs st = None ->
        match info_meta ex (tick st) with
        | Ok (Some universe) =>
            (exists a, In a universe /\ ma_name a = None) -> sp = ∅
        | Ok None => sp = ∅
        | Raise _ => sp = ∅
        end).
Proof.
  destruct (_asset_specs st) as [sp0|] eqn:Hc.
  - exists sp0, st. rewrite (get_asset_specs_cached st sp0 Hc).
    repeat split; auto. discriminate.
  - pose proof (get_asset_specs_fresh st Hc) as H. cbv zeta in H.
    eexists. eexists. split; [exact H|].
    split; [apply get_asset_specs_cached; reflexivity|].
    simpl. repeat split; auto. intros _.
    destruct (info_meta ex (tick st)) as [[universe|]|e]; auto.
    intros Hbad. rewrite (load_universe_raises universe 0 ∅ Hbad). reflexivity.
Qed.

(** X2. On a trader without a cache, the mapping loaded from a universe
    binds a name exactly when an asset of the universe has it, and binds
    it to the entry of the last such asset: the asset identifier is the
    position of that asset in the universe, and the size decimals are its
    [szDecimals], or 4 when it has none. *)
Theorem asset_specs_of_universe (st st1 : TraderState)
    (universe : list MetaAsset) (sp : gmap string AssetSpec) (name : string) :
  _asset_specs st = None ->
  info_meta ex (tick st) = Ok (Some universe) ->
  (forall a, In a universe -> ma_name a <> None) ->
  get_asset_specs ex st = (Ok sp, st1) ->
  match sp !! name with
  | Some spec =>
      exists (i : nat) a,
        universe !! i = Some a /\ ma_name a = Some name
        /\ asset_id spec = Z.of_nat i
        /\ sz_decimals spec = default 4%N (ma_szDecimals a)
        /\ forall (j : nat) a', (i < j)%nat -> universe !! j = Some a' ->
                                ma_name a' <> Some name
  | None => forall a, In a universe -> ma_name a <> Some name
  end.
Proof.
  intros Hc Hm Hnames H.
  pose proof (get_asset_specs_fresh st Hc) as Hf. cbv zeta in Hf.
  rewrite Hm in Hf. rewrite Hf in H.
  destruct (load_universe 0 universe ∅) as [sp0|e] eqn:Hl.
  - inversion H; subst sp0.
    pose proof (load_universe_lookup universe 0 ∅ sp name Hl) as Hk.
    destruct (sp !! name) as [spec|].
    + destruct Hk as [[Hacc _]|(i & a & Hi & Ha & Hid & Hsz & _ & _ & Hlast)].
      * rewrite lookup_empty in Hacc. discriminate.
      * exists i, a. rewrite Z.add_0_l in Hid. repeat split; auto.
    + apply Hk.
  - destruct (load_universe_returns universe 0 ∅ Hnames) as [sp0 E0]. congruence.
Qed.

End Cache.

(** ** Prices and orders *)

Lemma format_with_idem (sp : gmap string AssetSpec) (sym : string) (p : float) :
  format_with sp sym (format_with sp sym p) = format_with sp sym p.
Proof.
  unfold format_with. destruct (sp !! sym) as [spec|].
  - apply rounded_price_idem.
  - apply fmt5g_idem.
Qed.

Section Orders.

Variable ex : Exchange.

Lemma format_price_cached (st : TraderState) (sp : gmap string AssetSpec)
    (sym : string) (p : float) :
  _asset_specs st = Some sp ->
  format_price ex p sym st = (Ok (format_with sp sym p), st).
Proof.
  intros Hc. apply (format_price_run ex st st sp sym p).
  apply get_asset_specs_cached, Hc.
Qed.

(** [format_price] returns the formatted price and leaves the cache
    that it formatted with. *)
Lemma format_price_value (st : TraderState) (sym : string) (p : float) :
  exists sp st1,
    format_price ex p sym st = (Ok (format_with sp sym p), st1)
    /\ _asset_specs st1 = Some sp /\ reads st st1.
Proof.
  destruct (get_asset_specs_returns ex st) as (sp & st1 & E & Hc & _).
  exists sp, st1. split; [exact (format_price_run ex st st1 sp sym p E)|].
  split; [exact Hc|].
  pose proof (reads_get_asset_specs ex st) as H. rewrite E in H. exact H.
Qed.

Lemma get_current_price_run (sym : string) (st : TraderState) :
  get_current_price ex sym st =
    (Ok match info_all_mids ex (tick st) with
        | Ok (MidsDict mids) =>
            match mids !! sym with Some (Parsed p) => Some p | _ => None end
        | _ => None
        end,
     {| _asset_specs := _asset_specs st; tick := S (tick st); sent := sent st |}).
Proof.
  unfold get_current_price, try_except, bind, call, lift, ret. simpl.
  destruct (info_all_mids ex (tick st)) as [[|mids]|e]; try reflexivity.
  destruct (mids !! sym) as [[| |p]|]; reflexivity.
Qed.

(** The price with the slippage of [get_market_price] applied. *)
Lemma get_market_price_run (sym : string) (is_buy : bool) (st : TraderState) :
  exists r st1,
    get_market_price ex sym is_buy st = (Ok r, st1) /\ reads st st1
    /\ match r with
       | Some mp =>
           exists sp p,
             _asset_specs st1 = Some sp
             /\ get_current_price ex sym st
                = (Ok (Some p), {| _asset_specs := _asset_specs st;
                                   tick := S (tick st); sent := sent st |})
             /\ truthy p = true
             /\ mp = format_with sp sym
                       (fmul p (if is_buy then fadd f1 f0_02 else fsub f1 f0_02))
       | None =>
           exists p, get_current_price ex sym st
                     = (Ok p, {| _asset_specs := _asset_specs st;
                                 tick := S (tick st); sent := sent st |})
                     /\ some_truthy p = false
       end.
Proof.
  pose proof (reads_get_market_price ex sym is_buy st) as Hr.
  pose proof (get_current_price_run sym st) as Hp.
  set (st0 := {| _asset_specs := _asset_specs st; tick := S (tick st);
                 sent := sent st |}) in *.
  unfold get_market_price, try_except in *. rewrite (bind_ok _ _ _ _ _ Hp) in *.
  destruct (match info_all_mids ex (tick st) with
            | Ok (MidsDict mids) =>
                match mids !! sym with Some (Parsed p) => Some p | _ => None end
            | _ => None
            end) as [p|] eqn:Ep.
  - destruct (truthy p) eqn:Ht.
    + cbv zeta in *.
      destruct (format_price_value st0 sym
                  (if is_buy then fmul p (fadd f1 f0_02) else fmul p (fsub f1 f0_02)))
        as (sp & st1 & Hf & Hc & _).
      rewrite (bind_ok _ _ _ _ _ Hf) in *. unfold ret in *.
      eexists. exists st1. split; [reflexivity|]. split; [exact Hr|].
      exists sp, p. repeat split; auto. destruct is_buy; reflexivity.
    + unfold ret in *. eexists. eexists. split; [reflexivity|]. split; [exact Hr|].
      exists (Some p). split; [exact Hp|]. simpl. rewrite Ht. reflexivity.
  - unfold ret in *. eexists. eexists. split; [reflexivity|]. split; [exact Hr|].
    exists None. split; [exact Hp|reflexivity].
Qed.

(** X3. A market price that [get_market_price] returns is the mid price
    with 2% added for a buy and 2% taken off for a sell, formatted for the
    symbol; formatting it again changes nothing.  No order is submitted. *)
Theorem market_price_is_formatted (sym : string) (is_buy : bool)
    (st st1 : TraderState) (mp : float) :
  get_market_price ex sym is_buy st = (Ok (Some mp), st1) ->
  format_price ex mp sym st1 = (Ok mp, st1)
  /\ sent st1 = sent st
  /\ exists p st0,
       get_current_price ex sym st = (Ok (Some p), st0)
       /\ truthy p = true
       /\ format_price ex (fmul p (if is_buy then fadd f1 f0_02 else fsub f1 f0_02))
            sym st0 = (Ok mp, st1).
Proof.
  intros H.
  destruct (get_market_price_run sym is_buy st) as (r & st1' & E & Hr & Hm).
  rewrite H in E. inversion E; subst r st1'. clear E.
  destruct Hm as (sp & p & Hc & Hp & Ht & ->).
  split.
  { rewrite (format_price_cached st1 sp sym _ Hc), format_with_idem. reflexivity. }
  split; [apply Hr|].
  eexists p, _. split; [exact Hp|]. split; [exact Ht|].
  (* the formatting step of the call itself *)
  unfold get_market_price, try_except in H. rewrite (bind_ok _ _ _ _ _ Hp) in H.
  cbv beta iota zeta in H. rewrite Ht in H. cbv beta iota zeta in H.
  destruct (format_price_value
              {| _asset_specs := _asset_specs st; tick := S (tick st); sent := sent st |}
              sym (if is_buy then fmul p (fadd f1 f0_02) else fmul p (fsub f1 f0_02)))
    as (sp' & st2 & Hf & Hc' & _).
  rewrite (bind_ok _ _ _ _ _ Hf) in H. unfold ret in H.
  inversion H; subst st2.
  assert (sp' = sp) by congruence. subst sp'.
  destruct is_buy; exact Hf.
Qed.

(** With a loaded cache the sizing methods depend on the cache only. *)
Lemma get_min_order_size_cached (st st' : TraderState) (sp : gmap string AssetSpec)
    (sym : string) (price : float) :
  _asset_specs st = Some sp -> _asset_specs st' = Some sp ->
  snd (get_min_order_size ex sym price st) = st
  /\ fst (get_min_order_size ex sym price st)
     = fst (get_min_order_size ex sym price st').
Proof.
  intros H H'. unfold get_min_order_size, try_except.
  rewrite (bind_ok _ _ _ _ _ (get_asset_specs_cached ex st sp H)),
          (bind_ok _ _ _ _ _ (get_asset_specs_cached ex st' sp H')).
  destruct (sp !! sym); unfold bind, lift, ret, py_div;
    destruct (is_zero price); simpl; auto.
Qed.

Lemma validate_and_adjust_size_cached (st st' : TraderState)
    (sp : gmap string AssetSpec) (sym : string) (size price : float) :
  _asset_specs st = Some sp -> _asset_specs st' = Some sp ->
  snd (validate_and_adjust_size ex sym size price st) = st
  /\ fst (validate_and_adjust_size ex sym size price st)
     = fst (validate_and_adjust_size ex sym size price st').
Proof.
  intros H H'.
  destruct (get_min_order_size_cached st st' sp sym price H H') as [S1 F1].
  destruct (get_min_order_size_cached st' st sp sym price H' H) as [S2 _].
  unfold validate_and_adjust_size, try_except, bind.
  destruct (get_min_order_size ex sym price st) as [r1 s1].
  destruct (get_min_order_size ex sym price st') as [r2 s2].
  simpl in S1, S2, F1. subst s1 s2 r2.
  destruct r1 as [m|e]; [|unfold ret; simpl; auto].
  destruct (flt size m); [unfold ret; simpl; auto|].
  rewrite (get_asset_specs_cached ex st sp H), (get_asset_specs_cached ex st' sp H').
  destruct (sp !! sym); unfold lift, ret; simpl.
  - destruct (py_round size _); simpl; auto.
  - auto.
Qed.

Lemma validate_and_adjust_size_returns (sym : string) (size price : float) :
  returns (validate_and_adjust_size ex sym size price).
Proof. intros st. apply try_except_ret_total. Qed.

(** The price that [place_order] puts on the order. *)
Lemma order_price_run (sym : string) (is_buy : bool) (price : float)
    (ty : OrderType) (st : TraderState) :
  let block :=
    match ty with
    | Market =>
        do market_price <- get_market_price ex sym is_buy;
        match market_price with
        | Some mp => if truthy mp then ret mp else format_price ex price sym
        | None => format_price ex price sym
        end
    | Limit => format_price ex price sym
    end in
  exists pr sp sa,
    block st = (Ok pr, sa) /\ reads st sa /\ _asset_specs sa = Some sp
    /\ format_with sp sym pr = pr
    /\ match ty with
       | Limit => fst (format_price ex price sym st) = Ok pr
       | Market =>
           forall mp, fst (get_market_price ex sym is_buy st) = Ok (Some mp) ->
                      truthy mp = true -> pr = mp
       end.
Proof.
  intros block. subst block. destruct ty.
  - destruct (get_market_price_run sym is_buy st) as (r & s1 & E & Hr & Hm).
    rewrite (bind_ok _ _ _ _ _ E).
    assert (Hfallback :
      exists pr sp sa,
        format_price ex price sym s1 = (Ok pr, sa) /\ reads st sa
        /\ _asset_specs sa = Some sp /\ format_with sp sym pr = pr).
    { destruct (format_price_value s1 sym price) as (sp & sa & Hf & Hc & Hr').
      exists (format_with sp sym price), sp, sa.
      repeat split; auto; try apply (reads_trans _ _ _ Hr Hr').
      apply format_with_idem. }
    destruct r as [mp|].
    + destruct (truthy mp) eqn:Ht.
      * destruct Hm as (sp & p & Hc & _ & _ & ->).
        eexists. exists sp, s1. split; [reflexivity|].
        repeat split; auto; try apply Hr; try apply format_with_idem.
        intros mp' Hmp _. rewrite E in Hmp. cbn [fst] in Hmp. congruence.
      * destruct Hfallback as (pr & sp & sa & Hf & Hr' & Hc & Hfix).
        exists pr, sp, sa. repeat split; auto; try apply Hr'.
        intros mp' Hmp Ht'. rewrite E in Hmp. cbn [fst] in Hmp. congruence.
    + destruct Hfallback as (pr & sp & sa & Hf & Hr' & Hc & Hfix).
      exists pr, sp, sa. repeat split; auto; try apply Hr'.
      intros mp' Hmp. rewrite E in Hmp. discriminate.
  - destruct (format_price_value st sym price) as (sp & sa & Hf & Hc & Hr).
    exists (format_with sp sym price), sp, sa.
    repeat split; auto; try apply Hr; try apply format_with_idem.
    rewrite Hf. reflexivity.
Qed.

(** What [place_order] submits and returns. *)
Lemma place_order_run (sym : string) (is_buy : bool)
    (size price : float) (ty : OrderType) (st : TraderState) :
  exists req st1,
    snd (place_order ex sym is_buy size price ty st) = st1
    /\ sent st1 = sent st ++ [req]
    /\ o_symbol req = sym /\ o_is_buy req = is_buy
    /\ o_tif req = match ty with Market => Ioc | Limit => Gtc end
    /\ fst (place_order ex sym is_buy size price ty st)
       = Ok match exchange_order ex (pred (tick st1)) req with
            | Ok r => Some r
            | Raise _ => None
            end
    /\ format_price ex (o_price req) sym st1 = (Ok (o_price req), st1)
    /\ fst (validate_and_adjust_size ex sym size (o_price req) st1) = Ok (o_size req)
    /\ match ty with
       | Limit => fst (format_price ex price sym st) = Ok (o_price req)
       | Market =>
           forall mp, fst (get_market_price ex sym is_buy st) = Ok (Some mp) ->
                      truthy mp = true -> o_price req = mp
       end.
Proof.
  destruct (order_price_run sym is_buy price ty st)
    as (pr & sp & sa & Hpb & Hra & Hca & Hfix & Hprice).
  cbv zeta in Hpb.
  destruct (validate_and_adjust_size_returns sym size pr sa) as (sz & sb & Hv).
  pose proof (reads_validate_and_adjust_size ex sym size pr sa) as Hrb.
  rewrite Hv in Hrb. cbn [snd] in Hrb.
  assert (Hcb : _asset_specs sb = Some sp) by (apply Hrb, Hca).
  set (req := {| o_symbol := sym; o_is_buy := is_buy; o_size := sz; o_price := pr;
                 o_tif := match ty with Market => Ioc | Limit => Gtc end |}).
  set (sc := {| _asset_specs := _asset_specs sb; tick := S (tick sb);
                sent := sent sb ++ [req] |}).
  assert (Hrun : place_order ex sym is_buy size price ty st =
                 (Ok match exchange_order ex (tick sb) req with
                     | Ok r => Some r
                     | Raise _ => None
                     end, sc)).
  { unfold place_order, try_except.
    rewrite (bind_ok _ _ _ _ _ Hpb), (bind_ok _ _ _ _ _ Hv).
    unfold bind, submit, ret. fold req. fold sc.
    destruct (exchange_order ex (tick sb) req); reflexivity. }
  exists req, sc. rewrite Hrun. cbn [fst snd].
  split; [reflexivity|].
  split. { destruct Hra as [Ea _], Hrb as [Eb _]. simpl. rewrite Eb, Ea. reflexivity. }
  split; [reflexivity|]. split; [reflexivity|]. split; [reflexivity|].
  split; [reflexivity|].
  split. { change (o_price req) with pr.
           rewrite (format_price_cached sc sp sym pr Hcb), Hfix.
           reflexivity. }
  split; [|exact Hprice].
  change (o_price req) with pr. change (o_size req) with sz.
  destruct (validate_and_adjust_size_cached sc sa sp sym size pr Hcb Hca) as [_ ->].
  rewrite Hv. reflexivity.
Qed.

(** X4. [place_order] never raises and always submits exactly one order:
    for the symbol and side it was given, immediate-or-cancel for a market
    order and good-till-cancel for a limit order.  It returns the answer
    of the exchange, or [None] when the exchange raised.  The price on the
    order is a formatted price (formatting it again changes nothing): for
    a limit order the formatted price of the caller, for a market order
    the market price when there is one.  The size on the order is what
    [validate_and_adjust_size] gives for the caller's size at that price. *)
Theorem place_order_submits_once (sym : string) (is_buy : bool)
    (size price : float) (ty : OrderType) (st : TraderState) :
  exists req st1,
    snd (place_order ex sym is_buy size price ty st) = st1
    /\ sent st1 = sent st ++ [req]
    /\ o_symbol req = sym /\ o_is_buy req = is_buy
    /\ o_tif req = match ty with Market => Ioc | Limit => Gtc end
    /\ fst (place_order ex sym is_buy size price ty st)
       = Ok match exchange_order ex (pred (tick st1)) req with
            | Ok r => Some r
            | Raise _ => None
            end
    /\ format_price ex (o_price req) sym st1 = (Ok (o_price req), st1)
    /\ fst (validate_and_adjust_size ex sym size (o_price req) st1) = Ok (o_size req)
    /\ match ty with
       | Limit => fst (format_price ex price sym st) = Ok (o_price req)
       | Market =>
           forall mp, fst (get_market_price ex sym is_buy st) = Ok (Some mp) ->
                      truthy mp = true -> o_price req = mp
       end.
Proof. apply place_order_run. Qed.


Lemma get_position_returns (sym : string) : returns (get_position ex sym).
Proof. intros st. apply try_except_ret_total. Qed.

Lemma get_current_price_returns (sym : string) : returns (get_current_price ex sym).
Proof. intros st. apply try_except_ret_total. Qed.

Lemma get_market_price_returns (sym : string) (is_buy : bool) :
  returns (get_market_price ex sym is_buy).
Proof. intros st. apply try_except_ret_total. Qed.

Lemma format_price_returns (price : float) (sym : string) :
  returns (format_price ex price sym).
Proof. intros st. apply try_except_ret_total. Qed.

(** Both components of a run that returns and only reads. *)
Lemma run_reads {A} (m : M A) (st : TraderState) :
  returns m -> preserves reads m ->
  exists a st1, m st = (Ok a, st1) /\ reads st st1.
Proof.
  intros Hr Hp. destruct (Hr st) as (a & st1 & E).
  exists a, st1. split; [exact E|]. specialize (Hp st). rewrite E in Hp. exact Hp.
Qed.

(** What [close_position] submits and returns. *)
Lemma close_position_run (sym : string) (st : TraderState) :
  let r := close_position ex sym st in
  (fst r = Ok None /\ sent (snd r) = sent st)
  \/ exists pos p req,
       fst (get_position ex sym st) = Ok (Some pos) /\ szi pos = Parsed p
       /\ sent (snd r) = sent st ++ [req]
       /\ o_symbol req = sym /\ o_is_buy req = flt p f0 /\ o_tif req = Ioc
       /\ format_price ex (o_price req) sym (snd r) = (Ok (o_price req), snd r)
       /\ fst (validate_and_adjust_size ex sym (py_abs p) (o_price req) (snd r))
          = Ok (o_size req)
       /\ fst r = Ok match exchange_order ex (pred (tick (snd r))) req with
                     | Ok x => Some x
                     | Raise _ => None
                     end.
Proof.
  intros r. subst r.
  destruct (close_position ex sym st) as [res st'] eqn:Hc. cbn [fst snd].
  unfold close_position, try_except in Hc.
  destruct (run_reads (get_position ex sym) st (get_position_returns sym)
              (reads_get_position ex sym)) as (position & s1 & Hpos & R1).
  rewrite (bind_ok _ _ _ _ _ Hpos) in Hc. rewrite Hpos. cbn [fst].
  destruct position as [pos|];
    [|inversion Hc; subst; left; split; [reflexivity|exact (proj1 R1)]].
  destruct (szi pos) as [| |p] eqn:Hszi;
    try (unfold bind, lift, ret in Hc; simpl in Hc; inversion Hc; subst;
         left; split; [reflexivity|exact (proj1 R1)]).
  unfold bind at 1, lift at 1 in Hc. cbn [float_of_field] in Hc.
  cbv beta iota zeta in Hc.
  destruct (run_reads (get_market_price ex sym (flt p f0)) s1
              (get_market_price_returns sym _) (reads_get_market_price ex sym _))
    as (mp1 & s2 & Hm & R2).
  rewrite (bind_ok _ _ _ _ _ Hm) in Hc.
  match type of Hc with
  | context [bind ?blk _ s2] =>
      destruct (run_reads blk s2) as (mp2 & s3 & Hb & R3)
  end.
  { destruct (some_truthy mp1); [apply returns_ret|].
    apply returns_bind; [apply get_current_price_returns|intros mp].
    destruct (some_truthy mp); [|apply returns_ret].
    apply returns_bind; [apply format_price_returns|intros f; apply returns_ret]. }
  { pose proof (reads_get_current_price ex sym).
    pose proof (fun q => reads_format_price ex q sym). reads_auto. }
  rewrite (bind_ok _ _ _ _ _ Hb) in Hc.
  assert (R03 : reads st s3)
    by (apply (reads_trans _ _ _ R1), (reads_trans _ _ _ R2), R3).
  destruct mp2 as [mp|];
    [|inversion Hc; subst; left; split; [reflexivity|exact (proj1 R03)]].
  destruct (truthy mp);
    [|inversion Hc; subst; left; split; [reflexivity|exact (proj1 R03)]].
  right.
  destruct (place_order_run sym (flt p f0) (py_abs p) mp Market s3)
    as (req & s4 & Hs & Hsent & Hsym & Hside & Htif & Hres & Hfix & Hsize & _).
  destruct (place_order ex sym (flt p f0) (py_abs p) mp Market s3) as [r4 s4'] eqn:Hplace.
  cbn [fst snd] in Hs, Hres. subst s4' r4. inversion Hc; subst res st'.
  exists pos, p, req.
  repeat split; auto.
  rewrite Hsent. destruct R03 as [-> _]. reflexivity.
Qed.

(** X5. [close_position] never raises and submits at most one order.
    Either it submits nothing and returns [None], or the exchange lists
    a position in the symbol whose size parses and exactly one order is
    submitted: an immediate-or-cancel order for the symbol, a buy exactly
    when the held size is negative, at a formatted price, for the absolute
    held size as adjusted by [validate_and_adjust_size]; the result is
    then the answer of the exchange, or [None] when the exchange raised. *)
Theorem close_position_order (sym : string) (st : TraderState) :
  let r := close_position ex sym st in
  (fst r = Ok None /\ sent (snd r) = sent st)
  \/ exists pos p req,
       fst (get_position ex sym st) = Ok (Some pos) /\ szi pos = Parsed p
       /\ sent (snd r) = sent st ++ [req]
       /\ o_symbol req = sym /\ o_is_buy req = flt p f0 /\ o_tif req = Ioc
       /\ format_price ex (o_price req) sym (snd r) = (Ok (o_price req), snd r)
       /\ fst (validate_and_adjust_size ex sym (py_abs p) (o_price req) (snd r))
          = Ok (o_size req)
       /\ fst r = Ok match exchange_order ex (pred (tick (snd r))) req with
                     | Ok x => Some x
                     | Raise _ => None
                     end.
Proof. apply close_position_run. Qed.

End Orders.

(** ** Position sizing *)

Section Sizing.

Variable ex : Exchange.

(** The run of [calculate_position_size] at a price other than zero. *)
Lemma calculate_position_size_run (sym : string) (price percentage : float)
    (st : TraderState) :
  is_zero price = false ->
  exists usd size st1,
    calculate_position_size ex sym price percentage st = (Ok (usd, size), st1)
    /\ sent st1 = sent st
    /\ match get_vault_balance ex st with
       | (Ok (Some vi), s1) =>
           exists m,
             let wanted := fmul (total_account_value vi) (fdiv_ieee percentage f100) in
             let least := fmul m price in
             let amount := if flt wanted least then fmul least f1_1 else wanted in
             let s2 := snd (get_min_order_size ex sym price s1) in
             fst (get_min_order_size ex sym price s1) = Ok m
             /\ fst (validate_and_adjust_size ex sym (fdiv_ieee amount price) price s2)
                = Ok size
             /\ usd = fmul size price
       | _ => usd = f100 /\ size = fdiv_ieee f100 price
       end.
Proof.
  intros Hz.
  pose proof (reads_calculate_position_size ex sym price percentage st) as Hr.
  destruct (calculate_position_size ex sym price percentage st) as [res st1] eqn:Hc.
  cbn [snd] in Hr.
  unfold calculate_position_size, try_except in Hc.
  destruct (get_vault_balance_returns ex st) as (v & s1 & Hv).
  rewrite (bind_ok _ _ _ _ _ Hv) in Hc. rewrite Hv.
  destruct v as [vi|].
  - unfold bind at 1, lift at 1, py_div at 1 in Hc.
    change (is_zero f100) with false in Hc. cbv beta iota zeta in Hc.
    destruct (get_asset_specs_returns ex s1) as (sp & s2 & Hsp & _).
    destruct (get_min_order_size_returns ex s1 s2 sp sym price Hsp Hz) as [m Hm].
    rewrite (bind_ok _ _ _ _ _ Hm) in Hc.
    unfold bind at 1, lift at 1, py_div at 1 in Hc. rewrite Hz in Hc.
    cbv beta iota zeta in Hc.
    match type of Hc with
    | context [validate_and_adjust_size ex sym ?q price] =>
        destruct (validate_and_adjust_size_returns ex sym q price s2) as (sz & s3 & Hs)
    end.
    rewrite (bind_ok _ _ _ _ _ Hs) in Hc. unfold ret in Hc.
    inversion Hc; subst res st1.
    exists (fmul sz price), sz, s3.
    split; [reflexivity|]. split; [exact (proj1 Hr)|].
    exists m. cbv zeta. rewrite Hm. cbn [fst snd]. rewrite Hs. auto.
  - unfold bind, lift, py_div, ret in Hc. rewrite Hz in Hc.
    inversion Hc; subst res st1.
    exists f100, (fdiv_ieee f100 price), s1.
    split; [reflexivity|]. split; [exact (proj1 Hr)|]. split; reflexivity.
Qed.

(** X6. For a price other than zero [calculate_position_size] returns,
    whatever the exchange answers, and submits nothing.  Without a vault
    balance the pair is 100 dollars and [100 / price].  With one, the
    amount wanted is the account value times [percentage / 100], raised to
    1.1 times the minimum notional when it is below that minimum; the
    size is that amount divided by the price and passed through
    [validate_and_adjust_size], and the dollar amount returned is the
    size times the price. *)
Theorem calculate_position_size_returns (sym : string) (price percentage : float)
    (st : TraderState) :
  is_zero price = false ->
  exists usd size st1,
    calculate_position_size ex sym price percentage st = (Ok (usd, size), st1)
    /\ sent st1 = sent st
    /\ match get_vault_balance ex st with
       | (Ok (Some vi), s1) =>
           exists m,
             let wanted := fmul (total_account_value vi) (fdiv_ieee percentage f100) in
             let least := fmul m price in
             let amount := if flt wanted least then fmul least f1_1 else wanted in
             let s2 := snd (get_min_order_size ex sym price s1) in
             fst (get_min_order_size ex sym price s1) = Ok m
             /\ fst (validate_and_adjust_size ex sym (fdiv_ieee amount price) price s2)
                = Ok size
             /\ usd = fmul size price
       | _ => usd = f100 /\ size = fdiv_ieee f100 price
       end.
Proof. apply calculate_position_size_run. Qed.

(** X7. The part of the failure policy that holds: every method of the
    trader other than [get_min_order_size] and [calculate_position_size]
    returns a value for every argument, a zero price included, and for
    every answer or exception of the exchange. *)
Theorem trader_methods_return :
  returns (get_asset_specs ex)
  /\ (forall sym size price, returns (validate_and_adjust_size ex sym size price))
  /\ (forall price sym, returns (format_price ex price sym))
  /\ (forall sym, returns (get_current_price ex sym))
  /\ (forall sym is_buy, returns (get_market_price ex sym is_buy))
  /\ (forall sym is_buy size price ty, returns (place_order ex sym is_buy size price ty))
  /\ (forall sym, returns (get_position ex sym))
  /\ returns (get_vault_balance ex)
  /\ (forall sym, returns (close_position ex sym)).
Proof.
  repeat split; intros; intros st;
    try apply try_except_ret_total.
  destruct (get_asset_specs_returns ex st) as (sp & st1 & E & _). eauto.
Qed.

End Sizing.

(** ** The monitor's pass *)

Lemma dict_remove_idem {V} (k : string) (d : list (string * V)) :
  dict_remove k (dict_remove k d) = dict_remove k d.
Proof.
  induction d as [|[k' v] d IH]; simpl; [reflexivity|].
  destruct (String.eqb k' k) eqn:E; [exact IH|].
  simpl. rewrite E, IH. reflexivity.
Qed.

Lemma registry_within_refl (d : list (string * TrackedPosition)) : registry_within d d.
Proof. intros k v H. exact H. Qed.

Lemma registry_within_trans (a b c : list (string * TrackedPosition)) :
  registry_within a b -> registry_within b c -> registry_within a c.
Proof. intros H1 H2 k v H. auto. Qed.

Lemma dict_remove_length {V} (k : string) (d : list (string * V)) :
  (length (dict_remove k d) <= length d)%nat.
Proof.
  induction d as [|[k' v] d IH]; simpl; [lia|].
  destruct (String.eqb k' k); simpl; lia.
Qed.

Lemma registry_within_remove (k : string) (d : list (string * TrackedPosition)) :
  registry_within (dict_remove k d) d.
Proof.
  intros k' v H. destruct (String.eqb k k') eqn:E.
  - apply String.eqb_eq in E. subst k'. rewrite dict_get_remove in H. discriminate.
  - rewrite dict_get_remove_other in H; [exact H|].
    intros ->. rewrite String.eqb_refl in E. discriminate.
Qed.

Section EntryEffect.

Variables (signal_id sym : string).

Lemma entry_effect_refl (n : nat) (sv : Server) : entry_effect signal_id sym n sv sv.
Proof.
  split; [left; reflexivity|]. split; [reflexivity|].
  exists []. rewrite app_nil_r. simpl. repeat split; auto; lia.
Qed.

Lemma entry_effect_compose (n m : nat) (a b c : Server) :
  entry_effect signal_id sym n a b -> entry_effect signal_id sym m b c ->
  entry_effect signal_id sym (n + m) a c.
Proof.
  intros (A1 & F1 & new1 & O1 & L1 & P1) (A2 & F2 & new2 & O2 & L2 & P2).
  split.
  { destruct A1 as [A1|A1], A2 as [A2|A2]; rewrite A2, A1; auto.
    right. apply dict_remove_idem. }
  split; [congruence|].
  exists (new1 ++ new2). rewrite O2, O1, <- app_assoc, length_app.
  repeat split; auto; try lia. apply Forall_app. auto.
Qed.

Lemma entry_effect_weaken (n m : nat) (a b : Server) :
  (n <= m)%nat -> entry_effect signal_id sym n a b -> entry_effect signal_id sym m a b.
Proof.
  intros Hle (A & F & new & O & L & P).
  split; [exact A|]. split; [exact F|]. exists new. repeat split; auto. lia.
Qed.

(** A quiet step before, or after, a step that may submit. *)
Lemma entry_bind_left {A B} (n : nat) (m : Comp Server A) (k : A -> Comp Server B) :
  preserves (entry_effect signal_id sym 0) m ->
  (forall a, preserves (entry_effect signal_id sym n) (k a)) ->
  preserves (entry_effect signal_id sym n) (bind m k).
Proof.
  intros Hm Hk sv. unfold bind. specialize (Hm sv).
  destruct (m sv) as [[a|e] sv1]; cbn [snd] in *.
  - exact (entry_effect_compose 0 n _ _ _ Hm (Hk a sv1)).
  - apply (entry_effect_weaken 0 n); [lia|exact Hm].
Qed.

Lemma entry_bind_right {A B} (n : nat) (m : Comp Server A) (k : A -> Comp Server B) :
  preserves (entry_effect signal_id sym n) m ->
  (forall a, preserves (entry_effect signal_id sym 0) (k a)) ->
  preserves (entry_effect signal_id sym n) (bind m k).
Proof.
  intros Hm Hk sv. unfold bind. specialize (Hm sv).
  destruct (m sv) as [[a|e] sv1]; cbn [snd] in *; [|exact Hm].
  pose proof (entry_effect_compose n 0 _ _ _ Hm (Hk a sv1)) as H.
  rewrite Nat.add_0_r in H. exact H.
Qed.

Lemma entry_ret {A} (n : nat) (a : A) : preserves (entry_effect signal_id sym n) (ret a).
Proof. intros sv. apply entry_effect_refl. Qed.

Lemma entry_lift {A} (n : nat) (r : result A) :
  preserves (entry_effect signal_id sym n) (lift r).
Proof. intros sv. apply entry_effect_refl. Qed.

Lemma entry_monitor_trader_reads {A} (n : nat) (m : M A) :
  preserves reads m -> preserves (entry_effect signal_id sym n) (monitor_trader m).
Proof.
  intros Hm sv. unfold monitor_trader.
  specialize (Hm {| _asset_specs := monitor_specs sv; tick := calls sv;
                    sent := orders sv |}).
  destruct (m _) as [r ts]. cbn [snd] in *. destruct Hm as (Hs & _ & _).
  split; [left; reflexivity|]. split; [reflexivity|].
  exists []. simpl. rewrite app_nil_r. repeat split; auto. lia.
Qed.

Lemma entry_del_active_position (n : nat) :
  preserves (entry_effect signal_id sym n) (del_active_position signal_id).
Proof.
  intros sv. unfold del_active_position, dict_del.
  destruct (dict_get signal_id (active_positions sv)); [|apply entry_effect_refl].
  split; [right; reflexivity|]. split; [reflexivity|].
  exists []. simpl. rewrite app_nil_r. repeat split; auto. lia.
Qed.

Lemma entry_log_closing (n : nat) (s : string) (reason : CloseReason) :
  preserves (entry_effect signal_id sym n) (log_closing s reason).
Proof.
  intros sv. split; [left; reflexivity|]. split; [reflexivity|].
  exists []. simpl. rewrite app_nil_r. repeat split; auto. lia.
Qed.

End EntryEffect.

Section MonitorPass.

Variable ex : Exchange.

Lemma entry_close_position (signal_id sym : string) :
  preserves (entry_effect signal_id sym 1) (monitor_trader (close_position ex sym)).
Proof.
  intros sv. unfold monitor_trader.
  pose proof (close_position_run ex sym
                {| _asset_specs := monitor_specs sv; tick := calls sv;
                   sent := orders sv |}) as H. cbv zeta in H.
  destruct (close_position ex sym _) as [r ts]. cbn [fst snd] in *.
  split; [left; reflexivity|]. split; [reflexivity|].
  destruct H as [[_ Hs]|(pos & p & req & _ & _ & Hs & Hsym & _ & Htif & _)].
  - exists []. simpl in *. rewrite app_nil_r. repeat split; auto.
  - exists [req]. simpl in *. repeat split; auto.
Qed.

Lemma monitor_entry_effect (signal_id : string) (td : TrackedPosition) :
  preserves (entry_effect signal_id (symbol td) 1) (monitor_entry ex signal_id td).
Proof.
  unfold monitor_entry.
  apply entry_bind_left;
    [apply entry_monitor_trader_reads, reads_get_current_price|intros current_price].
  destruct current_price as [price|]; [|apply entry_ret].
  destruct (negb (truthy price)); [apply entry_ret|].
  apply entry_bind_left;
    [apply entry_monitor_trader_reads, reads_get_position|intros position].
  destruct position as [pos|]; [|apply entry_del_active_position].
  apply entry_bind_left.
  { unfold utc_now. apply entry_monitor_trader_reads. reads_auto. }
  intros now. apply entry_bind_left; [apply entry_lift|intros [[] reason]].
  - apply entry_bind_left.
    { destruct reason; [apply entry_log_closing|apply entry_ret]. }
    intros _. apply entry_bind_right; [apply entry_close_position|intros close_result].
    destruct (order_truthy close_result);
      [apply entry_del_active_position|apply entry_ret].
  - apply entry_ret.
Qed.

Lemma pass_effect_refl (items : list (string * TrackedPosition)) (sv : Server) :
  pass_effect items sv sv.
Proof.
  split; [apply registry_within_refl|]. split; [lia|]. split; [reflexivity|].
  exists []. rewrite app_nil_r. simpl. repeat split; auto. lia.
Qed.

Lemma for_each_effect (items : list (string * TrackedPosition)) :
  preserves (pass_effect items) (for_each ex items).
Proof.
  induction items as [|[id td] rest IH]; intros sv; simpl.
  - apply pass_effect_refl.
  - unfold bind. pose proof (monitor_entry_effect id td sv) as H1.
    destruct (monitor_entry ex id td sv) as [r sv1]. cbn [snd] in H1.
    destruct H1 as (A1 & F1 & new1 & O1 & L1 & P1).
    assert (Hfirst : Forall (fun req =>
                        o_tif req = Ioc
                        /\ exists id' td', In (id', td') ((id, td) :: rest)
                                           /\ o_symbol req = symbol td') new1).
    { eapply Forall_impl; [exact P1|]. intros req [Hs Ht].
      split; [exact Ht|]. exists id, td. split; [left; reflexivity|exact Hs]. }
    assert (Hreg : registry_within (active_positions sv1) (active_positions sv)).
    { destruct A1 as [->| ->];
        [apply registry_within_refl|apply registry_within_remove]. }
    assert (Hlen : (length (active_positions sv1) <= length (active_positions sv))%nat).
    { destruct A1 as [->| ->]; [lia|apply dict_remove_length]. }
    destruct r as [[]|e]; cbn [snd].
    + destruct (IH sv1) as (A2 & N2 & F2 & new2 & O2 & L2 & P2).
      split; [exact (registry_within_trans _ _ _ A2 Hreg)|].
      split; [lia|]. split; [congruence|].
      exists (new1 ++ new2). rewrite O2, O1, <- app_assoc, length_app.
      repeat split; auto; [simpl; lia|].
      apply Forall_app. split; [exact Hfirst|].
      eapply Forall_impl; [exact P2|]. intros req (Ht & id' & td' & Hin & Hs).
      split; [exact Ht|]. exists id', td'. split; [right; exact Hin|exact Hs].
    + split; [exact Hreg|]. split; [exact Hlen|]. split; [exact F1|].
      exists new1. repeat split; auto. simpl. lia.
Qed.

(** X8. A pass of the monitor adds nothing to the registry and alters
    no entry: what the registry holds afterwards it held before, and it
    holds no more entries than before.  The
    monitoring flag is as it was.  The pass submits at most one order for
    each entry it started with, each an immediate-or-cancel order for the
    symbol of one of those entries.  All this holds also when the pass is
    ended by an exception. *)
Theorem monitor_cycle_effect (sv : Server) :
  let sv' := monitor_cycle ex sv in
  registry_within (active_positions sv') (active_positions sv)
  /\ (length (active_positions sv') <= length (active_positions sv))%nat
  /\ monitoring_active sv' = monitoring_active sv
  /\ exists new,
       orders sv' = orders sv ++ new
       /\ (length new <= length (active_positions sv))%nat
       /\ Forall (fun req =>
                    o_tif req = Ioc
                    /\ exists id td, In (id, td) (active_positions sv)
                                     /\ o_symbol req = symbol td) new.
Proof.
  intros sv'. subst sv'. unfold monitor_cycle.
  destruct (monitoring_active sv) eqn:Hflag.
  - pose proof (for_each_effect (active_positions sv) sv) as H.
    unfold try_except.
    destruct (for_each ex (active_positions sv) sv) as [[[]|e] sv1];
      cbn [snd] in *; rewrite <- Hflag; exact H.
  - rewrite <- Hflag. apply pass_effect_refl.
Qed.

End MonitorPass.

Section MonitorEntry.

Variable ex : Exchange.

Lemma monitor_trader_reads {A} (m : M A) (sv : Server) :
  preserves reads m ->
  orders (snd (monitor_trader m sv)) = orders sv.
Proof.
  intros Hm. unfold monitor_trader.
  specialize (Hm {| _asset_specs := monitor_specs sv; tick := calls sv;
                    sent := orders sv |}).
  destruct (m _) as [r ts]. cbn [snd] in *. exact (proj1 Hm).
Qed.

(** X9. When the price of a tracked position is available but the
    exchange no longer lists a position in its symbol, the monitor deletes
    the entry and nothing else: no order is submitted, no close is
    logged, and the other entries stay as they are. *)
Theorem monitor_entry_position_gone (sv sv1 sv2 : Server) (signal_id : string)
    (td : TrackedPosition) (price : float) :
  dict_get signal_id (active_positions sv) = Some td ->
  monitor_trader (get_current_price ex (symbol td)) sv = (Ok (Some price), sv1) ->
  truthy price = true ->
  monitor_trader (get_position ex (symbol td)) sv1 = (Ok None, sv2) ->
  let final := snd (monitor_entry ex signal_id td sv) in
  fst (monitor_entry ex signal_id td sv) = Ok tt
  /\ active_positions final = dict_remove signal_id (active_positions sv)
  /\ dict_get signal_id (active_positions final) = None
  /\ (forall k, k <> signal_id ->
        dict_get k (active_positions final) = dict_get k (active_positions sv))
  /\ orders final = orders sv
  /\ closing final = closing sv
  /\ calls final = calls sv2.
Proof.
  intros Hin Hp Ht Hpos final.
  pose proof (monitor_trader_frame (get_current_price ex (symbol td)) sv) as F1.
  pose proof (monitor_trader_reads (get_current_price ex (symbol td)) sv
                (reads_get_current_price ex _)) as O1.
  rewrite Hp in F1, O1. cbn [snd] in F1, O1. destruct F1 as (A1 & C1 & _).
  pose proof (monitor_trader_frame (get_position ex (symbol td)) sv1) as F2.
  pose proof (monitor_trader_reads (get_position ex (symbol td)) sv1
                (reads_get_position ex _)) as O2.
  rewrite Hpos in F2, O2. cbn [snd] in F2, O2. destruct F2 as (A2 & C2 & _).
  assert (Hentry : monitor_entry ex signal_id td sv =
            set_active_positions (dict_remove signal_id (active_positions sv)) sv2).
  { unfold monitor_entry, bind. rewrite Hp, Ht. change (negb true) with false.
    cbv beta iota. rewrite Hpos. cbv beta iota.
    unfold del_active_position, dict_del. rewrite A2, A1, Hin. reflexivity. }
  subst final. rewrite Hentry. cbn [fst snd set_active_positions active_positions
                                      orders closing calls].
  split; [reflexivity|]. split; [reflexivity|].
  split; [apply dict_get_remove|].
  split; [intros k Hk; apply dict_get_remove_other; exact Hk|].
  split; [congruence|]. split; [congruence|reflexivity].
Qed.

End MonitorEntry.

Section ExitWithoutClose.

Variable ex : Exchange.

(** C5. A tracked position whose deadline is a naive datetime is never
    closed by the monitor, whatever exit condition holds: with the price
    available, the position live and a price condition met, the
    comparison of the deadline with the aware [now] raises before
    [close_position] is reached.  Nothing is sent to the exchange after
    the clock is read, no close is logged and the entry stays. *)
Theorem exit_condition_without_close (sv sv1 sv2 : Server) (signal_id : string)
    (td : TrackedPosition) (price : float) (pos : AssetPosition)
    (reason : CloseReason) (wall : Z) :
  monitor_trader (get_current_price ex (symbol td)) sv = (Ok (Some price), sv1) ->
  truthy price = true ->
  monitor_trader (get_position ex (symbol td)) sv1 = (Ok (Some pos), sv2) ->
  check_price_exit (is_buy td) price (tp1 td) (tp2 td) (sl td) = (true, Some reason) ->
  max_exit_time td = Naive wall ->
  let final := snd (monitor_entry ex signal_id td sv) in
  fst (monitor_entry ex signal_id td sv) = Raise TypeError
  /\ orders final = orders sv
  /\ closing final = closing sv
  /\ active_positions final = active_positions sv
  /\ calls final = S (calls sv2).
Proof.
  intros Hp Ht Hpos Hexit Hnaive final.
  assert (Ho1 : orders sv1 = orders sv).
  { pose proof (monitor_trader_reads (get_current_price ex (symbol td)) sv
                  (reads_get_current_price ex (symbol td))) as F.
    rewrite Hp in F. exact F. }
  assert (Ho2 : orders sv2 = orders sv1).
  { pose proof (monitor_trader_reads (get_position ex (symbol td)) sv1
                  (reads_get_position ex (symbol td))) as F.
    rewrite Hpos in F. exact F. }
  pose proof (monitor_trader_frame (get_current_price ex (symbol td)) sv) as F1.
  rewrite Hp in F1. cbn [snd] in F1. destruct F1 as (Ha1 & Hc1 & _).
  pose proof (monitor_trader_frame (get_position ex (symbol td)) sv1) as F2.
  rewrite Hpos in F2. cbn [snd] in F2. destruct F2 as (Ha2 & Hc2 & _).
  assert (Hrun : monitor_entry ex signal_id td sv
                 = (Raise TypeError, snd (utc_now ex sv2))).
  { unfold monitor_entry. rewrite (bind_ok _ _ _ _ _ Hp). rewrite Ht. cbn [negb].
    rewrite (bind_ok _ _ _ _ _ Hpos).
    unfold bind at 1. unfold utc_now at 1, monitor_trader, bind, call, ret.
    cbn [fst snd]. unfold bind, lift, check_exit. rewrite Hexit, Hnaive.
    reflexivity. }
  subst final. rewrite Hrun. cbn [fst snd].
  unfold utc_now, monitor_trader, bind, call, ret. cbn.
  repeat split; congruence.
Qed.

End ExitWithoutClose.

(** ** The webhook, continued *)

Section IntakeEffects.

Variable float_of_string : string -> option float.
Variable fromisoformat : string -> option pydatetime.
Variable ex : Exchange.
Variable environ : Environ.

Local Abbreviation validate := (validate_signal float_of_string fromisoformat).
Local Abbreviation receive := (receive_signal float_of_string fromisoformat ex environ).

(** The run of [execute_signal]: it never raises; before the order it
    only reads, and the order is the one that [place_order] submits. *)
Lemma execute_signal_run (sg : Signal) (st : TraderState) :
  exists res st',
    execute_signal float_of_string ex environ sg st = (Ok res, st')
    /\ ((sent st' = sent st
         /\ exists status kind, res = inl (status, kind) /\ (status = 400 \/ status = 500))
        \/ exists req price,
             sent st' = sent st ++ [req]
             /\ o_symbol req = s_symbol sg /\ o_is_buy req = s_is_buy sg
             /\ o_tif req = Ioc
             /\ (if feq (s_current_price sg) f0
                 then fst (get_current_price ex (s_symbol sg)
                             {| _asset_specs := _asset_specs st; tick := S (tick st);
                                sent := sent st |}) = Ok (Some price)
                      /\ truthy price = true
                 else price = s_current_price sg)
             /\ match res with
                | inr pl =>
                    p_order_result pl = OrderDict (Some "ok"%string)
                    /\ p_entry_price pl = price
                | inl (status, kind) => status = 500
                end).
Proof.
  unfold execute_signal.
  (* the constructor *)
  assert (Hinit :
    try_except (do_ call (trader_init ex); ret true) (fun _ => ret false) st
    = (Ok (is_ok (trader_init ex (tick st))),
       {| _asset_specs := _asset_specs st; tick := S (tick st); sent := sent st |})).
  { unfold try_except, bind, call, ret. destruct (trader_init ex (tick st)); reflexivity. }
  set (s1 := {| _asset_specs := _asset_specs st; tick := S (tick st);
                sent := sent st |}) in *.
  rewrite (bind_ok _ _ _ _ _ Hinit).
  destruct (is_ok (trader_init ex (tick st))); cbn [negb];
    [|unfold ret; eexists; eexists; split; [reflexivity|left; split; eauto 6]].
  (* the price *)
  match goal with
  | |- context [bind ?blk _ s1] =>
      assert (Hpriced : exists pr s2, blk s1 = (Ok pr, s2) /\ reads s1 s2
                /\ match pr with
                   | inr price =>
                       if feq (s_current_price sg) f0
                       then fst (get_current_price ex (s_symbol sg) s1) = Ok (Some price)
                            /\ truthy price = true
                       else price = s_current_price sg
                   | inl (status, _) => status = 400
                   end)
  end.
  { destruct (feq (s_current_price sg) f0).
    - pose proof (get_current_price_run ex (s_symbol sg) s1) as Hp.
      pose proof (reads_get_current_price ex (s_symbol sg) s1) as Hr.
      unfold try_except. rewrite (bind_ok _ _ _ _ _ Hp). rewrite Hp in Hr |- *.
      cbn [snd fst] in *.
      destruct (match info_all_mids ex (tick s1) with
                | Ok (MidsDict mids) =>
                    match mids !! s_symbol sg with Some (Parsed p) => Some p | _ => None end
                | _ => None
                end) as [p|]; unfold ret.
      + destruct (truthy p) eqn:Ht; eexists; eexists; (split; [reflexivity|]);
          split; auto.
      + eexists; eexists; (split; [reflexivity|]); split; auto.
    - unfold ret. eexists; eexists; (split; [reflexivity|]).
      split; [apply reads_refl|reflexivity]. }
  destruct Hpriced as (pr & s2 & Hpr & R12 & Hprice).
  rewrite (bind_ok _ _ _ _ _ Hpr).
  assert (R02 : sent s2 = sent st) by (rewrite (proj1 R12); reflexivity).
  destruct pr as [[status kind]|price];
    [unfold ret; eexists; eexists; split; [reflexivity|left; split; eauto 6]|].
  (* the size *)
  match goal with
  | |- context [bind ?blk _ s2] =>
      assert (Hsized : exists sz s3, blk s2 = (Ok sz, s3) /\ reads s2 s3
                /\ match sz with inl (status, _) => status = 500 | inr _ => True end)
  end.
  { pose proof (reads_calculate_position_size ex (s_symbol sg) price) as Hc.
    unfold try_except, bind, lift, ret.
    destruct (risk_percentage float_of_string environ) as [pct|e];
      [|eexists; eexists; split; [reflexivity|split; [apply reads_refl|reflexivity]]].
    specialize (Hc pct s2).
    destruct (calculate_position_size ex (s_symbol sg) price pct s2) as [[sizes|e] s3];
      cbn [snd] in Hc; eexists; eexists; (split; [reflexivity|]); split; auto. }
  destruct Hsized as (sz & s3 & Hsz & R23 & Hst3).
  rewrite (bind_ok _ _ _ _ _ Hsz).
  assert (R03 : sent s3 = sent st) by (rewrite (proj1 R23); exact R02).
  destruct sz as [[status kind]|[position_size_usd position_size]];
    [unfold ret; eexists; eexists; split; [reflexivity|left; split; eauto 6]|].
  (* the order *)
  destruct (place_order_run ex (s_symbol sg) (s_is_buy sg) position_size price Market s3)
    as (req & s4 & Hs & Hsent & Hsym & Hside & Htif & Hres & _).
  destruct (place_order ex (s_symbol sg) (s_is_buy sg) position_size price Market s3)
    as [r4 s4'] eqn:Hplace.
  cbn [fst snd] in Hs, Hres. subst s4' r4.
  unfold try_except. rewrite (bind_ok _ _ _ _ _ Hplace).
  assert (Hreq : sent s4 = sent st ++ [req]) by (rewrite Hsent, R03; reflexivity).
  destruct (exchange_order ex (pred (tick s4)) req) as [[| |status]|e]; unfold ret;
    try (eexists; eexists; split; [reflexivity|right];
         exists req, price; repeat split; auto; fail).
  destruct (bool_decide (status = Some "ok"%string)) eqn:Hok; unfold ret;
    eexists; eexists; (split; [reflexivity|right]);
    exists req, price; repeat split; auto.
  apply bool_decide_eq_true in Hok. subst status. reflexivity.
Qed.

(** What a request does to the server. *)
Lemma receive_signal_run (payload : json) (sv : Server) :
  let reply := fst (receive payload sv) in
  let sv' := snd (receive payload sv) in
  match reply with
  | Error status kind =>
      active_positions sv' = active_positions sv
      /\ monitoring_active sv' = monitoring_active sv
      /\ (status = 400 -> orders sv' = orders sv)
      /\ (status = 400 \/ status = 500)
      /\ (orders sv' = orders sv
          \/ exists req sg,
               fst (validate payload tt) = Ok (inr sg)
               /\ orders sv' = orders sv ++ [req]
               /\ o_symbol req = s_symbol sg /\ o_is_buy req = s_is_buy sg
               /\ o_tif req = Ioc)
  | Success acc =>
      monitoring_active sv' = true
      /\ r_order_result acc = OrderDict (Some "ok"%string)
      /\ exists req sg,
           fst (validate payload tt) = Ok (inr sg)
           /\ orders sv' = orders sv ++ [req]
           /\ o_symbol req = s_symbol sg /\ o_is_buy req = s_is_buy sg
           /\ o_tif req = Ioc
           /\ (if feq (s_current_price sg) f0
               then fst (get_current_price ex (s_symbol sg)
                           {| _asset_specs := None; tick := S (calls sv);
                              sent := orders sv |}) = Ok (Some (r_entry_price acc))
                    /\ truthy (r_entry_price acc) = true
               else r_entry_price acc = s_current_price sg)
  end.
Proof.
  intros reply sv'. subst reply sv'.
  destruct (receive payload sv) as [reply sv'] eqn:Hr. cbn [fst snd].
  unfold receive_signal, handle_signal in Hr. unfold bind at 1, lift at 1 in Hr.
  destruct (fst (validate payload tt)) as [[[status kind]|sg]|e] eqn:Hv.
  - (* a validation reply *)
    cbn [ret] in Hr. inversion Hr; subst reply sv'.
    assert (Hs : status = 400).
    { unfold validate_signal in Hv.
      destruct (negb (json_truthy payload)); [inversion Hv; reflexivity|].
      destruct payload; try (inversion Hv; reflexivity).
      destruct (first_missing _); [inversion Hv; reflexivity|].
      unfold bind at 1 in Hv.
      match type of Hv with
      | context [try_except_parse ?b (fun e => ret (inl (400, (?k e)))) tt] =>
          pose proof (try_except_parse_cases b k) as Hb;
          destruct (try_except_parse b _ tt) as [[[r|basic]|e] u1] eqn:E1
      end; cbn [fst] in Hb, Hv; try discriminate.
      { destruct Hb as [Hb|[e ->]]; [|inversion Hv; reflexivity].
        unfold bind in Hb.
        destruct (extract_basic float_of_string (JObj fields) tt) as [[b|e] u];
          discriminate. }
      destruct basic as [[[[[msg sym] t1] t2] s] cp].
      unfold bind at 1 in Hv.
      match type of Hv with
      | context [try_except_parse ?b (fun e => ret (inl (400, (?k e)))) u1] =>
          destruct u1;
          pose proof (try_except_parse_cases b k) as Hb2;
          destruct (try_except_parse b _ tt) as [[[r|t]|e] u2] eqn:E2
      end; cbn [fst] in Hb2, Hv; try discriminate.
      { destruct Hb2 as [Hb2|[e ->]]; [|inversion Hv; reflexivity].
        unfold bind in Hb2.
        destruct (extract_max_exit_time fromisoformat (JObj fields) tt) as [[b|e] u3];
          discriminate. }
      destruct (String.eqb msg "buy" || String.eqb msg "sell")%bool;
        inversion Hv; reflexivity. }
    subst status. repeat split; auto.
  - (* a validated signal *)
    destruct (load_config environ) as [[]|e].
    2:{ cbn [ret] in Hr. inversion Hr; subst reply sv'. repeat split; auto. }
    unfold bind at 1 in Hr. unfold request_trader at 1 in Hr.
    destruct (execute_signal_run sg (new_trader (calls sv) (orders sv)))
      as (res & ts & Hx & Heff).
    rewrite Hx in Hr. cbn [sent new_trader] in Heff.
    destruct Heff as [[Hsent (status & kind & -> & Hst)]|(req & price & Hsent & Hsym & Hside & Htif & Hprice & Hres)].
    + (* answered before any order *)
      cbn [ret] in Hr. inversion Hr; subst reply sv'.
      cbn [active_positions monitoring_active orders].
      repeat split; auto.
    + destruct res as [[status kind]|pl].
      * subst status. cbn [ret] in Hr. inversion Hr; subst reply sv'.
        cbn [active_positions monitoring_active orders].
        repeat split; auto; [discriminate|].
        right. exists req, sg. auto.
      * destruct Hres as [Hok Hentry].
        unfold register, bind, request_trader, call, new_trader, lift,
          set_active_positions, ret, start_monitoring in Hr.
        cbn [fst snd active_positions monitoring_active orders calls tick sent] in Hr.
        destruct (py_int (time_time ex (tick ts))) as [seconds|e].
        -- cbn [fst snd active_positions monitoring_active orders] in Hr.
           destruct (monitoring_active sv) eqn:Hflag;
             inversion Hr; subst reply sv';
             cbn [active_positions monitoring_active orders r_order_result
                  r_entry_price];
             (split; [reflexivity|]); (split; [exact Hok|]);
             exists req, sg; rewrite Hentry; repeat split; auto.
        -- inversion Hr; subst reply sv'.
           cbn [active_positions monitoring_active orders].
           repeat split; auto; [discriminate|].
           right. exists req, sg. auto.
  - cbn [ret] in Hr. inversion Hr; subst reply sv'. repeat split; auto.
Qed.

(** X10. A request submits at most one order.  The order is an
    immediate-or-cancel order for the symbol and the side of the validated
    signal.  A request answered with status 400 submitted nothing, and a
    request answered with success submitted its order and was told by the
    exchange that the status is ok. *)
Theorem request_submits_at_most_one_order (payload : json) (sv : Server) :
  let reply := fst (receive payload sv) in
  let sv' := snd (receive payload sv) in
  (orders sv' = orders sv
   \/ exists req sg,
        fst (validate payload tt) = Ok (inr sg)
        /\ orders sv' = orders sv ++ [req]
        /\ o_symbol req = s_symbol sg /\ o_is_buy req = s_is_buy sg
        /\ o_tif req = Ioc)
  /\ (forall kind, reply = Error 400 kind -> orders sv' = orders sv)
  /\ (forall acc, reply = Success acc ->
        r_order_result acc = OrderDict (Some "ok"%string)
        /\ exists req, orders sv' = orders sv ++ [req]).
Proof.
  intros reply sv'. pose proof (receive_signal_run payload sv) as H.
  cbv zeta in H. fold reply sv' in H.
  destruct reply as [status kind|acc].
  - destruct H as (_ & _ & H400 & _ & Hord).
    split; [exact Hord|]. split; [|discriminate].
    intros kind' E. inversion E; subst. auto.
  - destruct H as (_ & Hok & req & sg & Hv & Hord & Hsym & Hside & Htif & _).
    split; [right; exists req, sg; auto|]. split; [discriminate|].
    intros acc' E. inversion E; subst. eauto.
Qed.

(** X11. A request that is answered with an error registers nothing:
    the registry and the monitoring flag are as they were, whatever was
    sent to the exchange before the error.  A request that succeeds
    leaves the flag set, and changes the registry under its own
    identifier only.  The flag is never cleared. *)
Theorem failed_request_registers_nothing (payload : json) (sv : Server) :
  let reply := fst (receive payload sv) in
  let sv' := snd (receive payload sv) in
  match reply with
  | Error status kind =>
      active_positions sv' = active_positions sv
      /\ monitoring_active sv' = monitoring_active sv
      /\ (status = 400 \/ status = 500)
  | Success acc =>
      monitoring_active sv' = true
      /\ is_Some (dict_get (r_signal_id acc) (active_positions sv'))
      /\ forall k, k <> r_signal_id acc ->
                   dict_get k (active_positions sv') = dict_get k (active_positions sv)
  end
  /\ (monitoring_active sv = true -> monitoring_active sv' = true).
Proof.
  intros reply sv'. pose proof (receive_signal_run payload sv) as H.
  cbv zeta in H. fold reply sv' in H.
  destruct reply as [status kind|acc] eqn:Hreply.
  - destruct H as (Ha & Hf & _ & Hst & _). repeat split; auto. congruence.
  - destruct H as (Hf & _). split; [|auto]. split; [exact Hf|].
    assert (Hr : receive payload sv = (Success acc, sv')).
    { subst reply sv'. destruct (receive payload sv); cbn [fst snd] in *. congruence. }
    destruct (receive_signal_success float_of_string fromisoformat ex environ
                payload sv sv' acc Hr) as (sg & seconds & _ & _ & _ & Hreg).
    rewrite Hreg. split.
    + rewrite dict_get_set. eauto.
    + intros k Hk. apply dict_get_set_other. exact Hk.
Qed.

(** X12. The entry price of a request that succeeds: the "Current
    Price" of the payload when that is not zero, and otherwise (the field
    absent, [0] or [-0.0]) the mid price that the exchange gave for the
    symbol, which is then not zero. *)
Theorem entry_price_of_request (payload : json) (sv sv' : Server) (acc : Accepted) :
  receive payload sv = (Success acc, sv') ->
  exists sg,
    fst (validate payload tt) = Ok (inr sg)
    /\ if feq (s_current_price sg) f0
       then fst (get_current_price ex (s_symbol sg)
                   {| _asset_specs := None; tick := S (calls sv);
                      sent := orders sv |}) = Ok (Some (r_entry_price acc))
            /\ truthy (r_entry_price acc) = true
       else r_entry_price acc = s_current_price sg.
Proof.
  intros Hr. pose proof (receive_signal_run payload sv) as H.
  cbv zeta in H. rewrite Hr in H. cbn [fst snd] in H.
  destruct H as (_ & _ & req & sg & Hv & _ & _ & _ & _ & Hprice).
  exists sg. split; [exact Hv|exact Hprice].
Qed.

(** X13. The answers given before anything is parsed or fetched, each
    leaving the server as it was: a payload that is falsy (null, false, 0,
    an empty string, list or object) is "No JSON data provided"; any other
    payload that is not an object is "Invalid data format"; an object
    without one of the required fields is "Missing required field", naming
    the first one missing in the order of the list.  The configuration is
    looked at only after the payload is validated. *)
Theorem early_replies (payload : json) (sv : Server) :
  (json_truthy payload = false ->
     receive payload sv = (Error 400 No_JSON_data_provided, sv))
  /\ (json_truthy payload = true -> (forall fields, payload <> JObj fields) ->
      receive payload sv = (Error 400 Invalid_data_format, sv))
  /\ (forall fields field,
        payload = JObj fields -> json_truthy payload = true ->
        first_missing payload = Some field ->
        receive payload sv = (Error 400 (Missing_required_field field), sv)
        /\ json_get field payload = None
        /\ exists before after,
             required_fields = before ++ field :: after
             /\ forall f, In f before -> json_get f payload <> None)
  /\ (forall sg e,
        fst (validate payload tt) = Ok (inr sg) -> load_config environ = Raise e ->
        receive payload sv = (Error 500 Configuration_error, sv)).
Proof.
  split; [|split; [|split]].
  - intros Hf. unfold receive_signal, handle_signal, validate_signal.
    rewrite Hf. reflexivity.
  - intros Ht Hobj. unfold receive_signal, handle_signal, validate_signal.
    rewrite Ht. destruct payload; try reflexivity. exfalso. eapply Hobj. reflexivity.
  - intros fields field -> Ht Hm. split.
    { unfold receive_signal, handle_signal, validate_signal.
      rewrite Ht, Hm. reflexivity. }
    unfold first_missing in Hm.
    revert Hm. generalize required_fields. intros l.
    induction l as [|f l IH]; cbn [List.find]; [discriminate|].
    destruct (json_get f (JObj fields)) as [v|] eqn:Hf.
    + intros Hm. destruct (IH Hm) as (Hnone & before & after & -> & Hb).
      split; [exact Hnone|]. exists (f :: before), after. split; [reflexivity|].
      intros f' [<-|Hin]; [congruence|auto].
    + intros E. inversion E; subst f. split; [exact Hf|].
      exists [], l. split; [reflexivity|]. intros f' [].
  - intros sg e Hv Hc. unfold receive_signal, handle_signal, bind, lift.
    rewrite Hv, Hc. reflexivity.
Qed.

(** X14. A payload with all required fields whose "Signal Message", or
    whose "Token Mentioned" after a string message, is not a string is
    answered with status 500, not 400: the [AttributeError] of [.lower()]
    or [.upper()] is not among the exceptions that the parsing step
    turns into a 400.  The server is left as it was. *)
Theorem non_string_field_is_a_server_error (fields : list (string * json))
    (v : json) (sv : Server) :
  first_missing (JObj fields) = None ->
  (forall s, v <> JStr s) ->
  dict_get "Signal Message" fields = Some v
  \/ (exists m, dict_get "Signal Message" fields = Some (JStr m))
     /\ dict_get "Token Mentioned" fields = Some v ->
  receive (JObj fields) sv = (Error 500 (Unhandled AttributeError), sv).
Proof.
  intros Hm Hv Hcase.
  assert (Ht : json_truthy (JObj fields) = true).
  { destruct fields; [|reflexivity].
    destruct Hcase as [H|[_ H]]; discriminate. }
  assert (Hbasic : extract_basic float_of_string (JObj fields) tt
                   = (Raise AttributeError, tt)).
  { unfold extract_basic, bind, lift, json_item.
    destruct Hcase as [H|[[m Hmsg] H]].
    - rewrite H. destruct v; try reflexivity. exfalso. eapply Hv. reflexivity.
    - rewrite Hmsg. cbn [py_str_lower]. rewrite H.
      destruct v; try reflexivity. exfalso. eapply Hv. reflexivity. }
  unfold receive_signal, handle_signal, validate_signal.
  rewrite Ht, Hm. cbn [negb].
  unfold bind at 2. unfold try_except_parse at 1. unfold bind at 2.
  rewrite Hbasic. reflexivity.
Qed.

End IntakeEffects.

Section Direction.

Variable float_of_string : string -> option float.
Variable fromisoformat : string -> option pydatetime.
Variable ex : Exchange.
Variable environ : Environ.

Local Abbreviation validate := (validate_signal float_of_string fromisoformat).
Local Abbreviation receive := (receive_signal float_of_string fromisoformat ex environ).







End Direction.

(** ** Signal identifiers *)

Lemma append_nil (t : string) : ("" ++ t)%string = t.
Proof. reflexivity. Qed.

Lemma append_cons (c : ascii) (s t : string) :
  (String c s ++ t)%string = String c (s ++ t).
Proof. reflexivity. Qed.

Lemma has_char_app (c : ascii) (s t : string) :
  has_char c (s ++ t) = has_char c s || has_char c t.
Proof.
  induction s as [|c' s IH]; [reflexivity|].
  rewrite append_cons. simpl. rewrite IH. apply orb_assoc.
Qed.

Lemma string_of_uint_digits (d : Decimal.uint) :
  has_char "_" (NilEmpty.string_of_uint d) = false.
Proof. induction d; simpl; auto. Qed.

Lemma str_of_int_no_underscore (n : Z) : has_char "_" (str_of_int n) = false.
Proof.
  unfold str_of_int, NilZero.string_of_int, NilZero.string_of_uint.
  destruct (Z.to_int n) as [d|d]; destruct d; simpl;
    try reflexivity; apply string_of_uint_digits.
Qed.

Lemma str_of_int_inj (n n' : Z) : str_of_int n = str_of_int n' -> n = n'.
Proof.
  unfold str_of_int. intros H. apply DecimalZ.to_int_inj.
  assert (Hp : forall z, NilZero.int_of_string (NilZero.string_of_int (Z.to_int z))
                         = Some (Z.to_int z)).
  { intros z. apply NilZero.isi; destruct z as [|p|p]; simpl; try discriminate;
      intros E; inversion E as [E']; exact (DecimalPos.Unsigned.to_uint_nonnil p E'). }
  pose proof (Hp n) as H1. rewrite H, Hp in H1. congruence.
Qed.

(** The part before the last underscore and the part after it
    determine each other. *)
Lemma underscore_split (s1 s2 t1 t2 : string) :
  has_char "_" t1 = false -> has_char "_" t2 = false ->
  (s1 ++ "_" ++ t1 = s2 ++ "_" ++ t2)%string -> s1 = s2 /\ t1 = t2.
Proof.
  intros H1 H2. revert s2. induction s1 as [|c1 s1 IH]; intros [|c2 s2] E;
    rewrite ?append_cons, ?append_nil in E.
  - inversion E. auto.
  - inversion E; subst.
    rewrite has_char_app in H1. simpl in H1.
    rewrite orb_true_r in H1. discriminate.
  - inversion E; subst.
    rewrite has_char_app in H2. simpl in H2.
    rewrite orb_true_r in H2. discriminate.
  - inversion E as [[Hc Ht]].
    assert (Ht' : (s1 ++ "_" ++ t1 = s2 ++ "_" ++ t2)%string)
      by (rewrite ?append_cons, ?append_nil; exact Ht).
    destruct (IH s2 Ht') as [-> ->]. auto.
Qed.

Lemma signal_id_inj (sym1 sym2 : string) (n1 n2 : Z) :
  (sym1 ++ "_" ++ str_of_int n1 = sym2 ++ "_" ++ str_of_int n2)%string ->
  sym1 = sym2 /\ n1 = n2.
Proof.
  intros E.
  destruct (underscore_split _ _ _ _ (str_of_int_no_underscore n1)
              (str_of_int_no_underscore n2) E) as [-> Hn].
  split; [reflexivity|apply str_of_int_inj, Hn].
Qed.

(** [upper] keeps a string within ASCII, and outside it. *)
Lemma is_ascii_upper (s : string) : is_ascii (upper s) = is_ascii s.
Proof.
  induction s as [|c s IH]; [reflexivity|].
  unfold upper in *. cbn [str_map is_ascii]. rewrite IH. f_equal.
  destruct c as [[] [] [] [] [] [] [] []]; reflexivity.
Qed.

Section Identifiers.

Variable float_of_string : string -> option float.
Variable fromisoformat : string -> option pydatetime.
Variable ex : Exchange.
Variable environ : Environ.

(** X15. Two requests that succeed one after the other, for different
    symbols of ASCII characters or with clock readings in different whole
    seconds, get different identifiers, and the registry then tracks both
    positions. *)
Theorem distinct_requests_are_both_tracked (payload1 payload2 : json)
    (sv0 sv1 sv2 : Server) (acc1 acc2 : Accepted) (sg1 sg2 : Signal) :
  receive_signal float_of_string fromisoformat ex environ payload1 sv0
    = (Success acc1, sv1) ->
  receive_signal float_of_string fromisoformat ex environ payload2 sv1
    = (Success acc2, sv2) ->
  fst (validate_signal float_of_string fromisoformat payload1 tt) = Ok (inr sg1) ->
  fst (validate_signal float_of_string fromisoformat payload2 tt) = Ok (inr sg2) ->
  (is_ascii (s_symbol sg1) = true /\ is_ascii (s_symbol sg2) = true
   /\ s_symbol sg1 <> s_symbol sg2)
  \/ py_int (request_clock ex sv1) <> py_int (request_clock ex sv2) ->
  r_signal_id acc1 <> r_signal_id acc2
  /\ dict_get (r_signal_id acc1) (active_positions sv2)
     = Some (tracked sg1 (r_entry_price acc1) (r_order_result acc1))
  /\ dict_get (r_signal_id acc2) (active_positions sv2)
     = Some (tracked sg2 (r_entry_price acc2) (r_order_result acc2)).
Proof.
  intros H1 H2 Hv1 Hv2 Hdiff.
  apply receive_signal_success in H1. apply receive_signal_success in H2.
  destruct H1 as (sg1' & n1 & Hv1' & Hn1 & Hid1 & Hreg1).
  destruct H2 as (sg2' & n2 & Hv2' & Hn2 & Hid2 & Hreg2).
  rewrite Hv1 in Hv1'. rewrite Hv2 in Hv2'.
  inversion Hv1'; inversion Hv2'; subst sg1' sg2'.
  assert (Hne : r_signal_id acc1 <> r_signal_id acc2).
  { rewrite Hid1, Hid2. intros E. apply signal_id_inj in E as [Hs Hn].
    destruct Hdiff as [(_ & _ & Hd)|Hd]; [exact (Hd Hs)|].
    apply Hd. unfold request_clock. rewrite Hn1, Hn2, Hn. reflexivity. }
  split; [exact Hne|]. rewrite Hreg2. split.
  - rewrite dict_get_set_other by exact Hne. rewrite Hreg1. apply dict_get_set.
  - apply dict_get_set.
Qed.

End Identifiers.

(** ** The diagnostic routes *)

Lemma untouched_refl (sv : Server) : untouched sv sv.
Proof. unfold untouched. auto. Qed.

Lemma untouched_trans (a b c : Server) : untouched a b -> untouched b c -> untouched a c.
Proof.
  unfold untouched. intros (A1 & F1 & O1 & C1 & M1) (A2 & F2 & O2 & C2 & M2).
  repeat split; congruence.
Qed.

Lemma request_trader_reads {A} (m : M A) :
  preserves reads m -> preserves untouched (request_trader m).
Proof.
  intros Hm sv. unfold request_trader.
  specialize (Hm (new_trader (calls sv) (orders sv))).
  destruct (m _) as [r ts]. cbn [snd] in *. destruct Hm as (Hs & _ & _).
  unfold untouched. simpl. auto.
Qed.

Section RouteProperties.

Variable ex : Exchange.
Variable environ : Environ.

Lemma reads_position_examples (pcts : list Z) (btc_price : float) :
  preserves reads (Routes.position_examples ex pcts btc_price).
Proof.
  induction pcts as [|pct rest IH]; simpl.
  - reads_auto.
  - pose proof (fun p => reads_calculate_position_size ex "BTC" btc_price p).
    reads_auto.
Qed.

Lemma reads_price_tests (symbol : string) (test_prices : list float) :
  preserves reads (Routes.price_tests ex symbol test_prices).
Proof.
  induction test_prices as [|p rest IH]; simpl.
  - reads_auto.
  - pose proof (fun q => reads_format_price ex q symbol).
    pose proof (fun b => reads_get_market_price ex symbol b).
    reads_auto.
Qed.

Lemma reads_sample_asset_info (symbols : list string) (sp : gmap string AssetSpec) :
  preserves reads (Routes.sample_asset_info ex symbols sp).
Proof.
  induction symbols as [|symbol rest IH]; simpl.
  - reads_auto.
  - pose proof (reads_get_current_price ex symbol).
    pose proof (fun q => reads_format_price ex q symbol).
    pose proof (fun b => reads_get_market_price ex symbol b).
    pose proof (fun p => reads_get_min_order_size ex symbol p).
    reads_auto.
Qed.

Ltac route_untouched :=
  apply (preserves_try_except untouched untouched_trans);
  [ apply (preserves_bind untouched untouched_trans);
    [ apply (preserves_lift untouched untouched_refl)
    | intros _; apply request_trader_reads ]
  | intros e; apply (preserves_ret untouched untouched_refl) ].

(** X16. The diagnostic routes only read.  Each of [/vault-balance],
    [/asset-specs] and [/test-price/<symbol>] answers (an exception
    becomes a 500 reply) and leaves the registry, the monitoring flag and
    the monitor's trader as they were; none of them submits an order,
    whatever the exchange answers. *)
Theorem diagnostic_routes_read_only (sv : Server) :
  (exists reply sv', Routes.get_vault_balance ex environ sv = (Ok reply, sv')
                     /\ untouched sv sv')
  /\ (exists reply sv', Routes.get_asset_specs ex environ sv = (Ok reply, sv')
                        /\ untouched sv sv')
  /\ (forall symbol,
        exists reply sv', Routes.test_price_formatting ex environ symbol sv
                          = (Ok reply, sv')
                          /\ untouched sv sv').
Proof.
  assert (Hvault : preserves untouched (Routes.get_vault_balance ex environ)).
  { unfold Routes.get_vault_balance. route_untouched.
    pose proof (reads_get_vault_balance ex). pose proof (reads_get_current_price ex "BTC").
    pose proof (fun l p => reads_position_examples l p). reads_auto. }
  assert (Hspecs : preserves untouched (Routes.get_asset_specs ex environ)).
  { unfold Routes.get_asset_specs. route_untouched.
    pose proof (reads_get_asset_specs ex).
    pose proof (fun l sp => reads_sample_asset_info l sp). reads_auto. }
  assert (Hprice : forall symbol,
            preserves untouched (Routes.test_price_formatting ex environ symbol)).
  { intros symbol. unfold Routes.test_price_formatting. route_untouched.
    pose proof (reads_get_asset_specs ex). pose proof (reads_get_current_price ex symbol).
    pose proof (fun l => reads_price_tests symbol l). reads_auto. }
  assert (Hfinish : forall A (route : Comp Server A),
            returns route -> preserves untouched route ->
            exists reply sv', route sv = (Ok reply, sv') /\ untouched sv sv').
  { intros A route Hr Hu. destruct (Hr sv) as (reply & sv' & E).
    exists reply, sv'. split; [exact E|]. specialize (Hu sv). rewrite E in Hu. exact Hu. }
  split; [|split; [|intros symbol]]; apply Hfinish; auto;
    apply returns_try_except; intros e; apply returns_ret.
Qed.

End RouteProperties.

(** ** The accuracy of the formatted price *)

Section Accuracy.
Open Scope Q_scope.

Lemma pow2_m52_small : pow2 (-52) <= 1 # 1000000000000000.
Proof. unfold pow2. vm_compute. discriminate. Qed.

Lemma pow2_m1074_split : pow2 (-1074) == pow2 (-1022) * pow2 (-52).
Proof. unfold pow2. rewrite <- bpow_add by reflexivity. reflexivity. Qed.

Lemma max_float_below_pow10 : inject_Z max_float <= pow10 309 * (1 # 2).
Proof.
  pose proof (pow10_Z 309 ltac:(lia)) as E.
  assert (H : inject_Z (max_float * 2) <= inject_Z (10 ^ 309)).
  { rewrite <- Zle_Qle. apply Z.leb_le. vm_compute. reflexivity. }
  rewrite injZ_mul in H. change (inject_Z 2) with 2 in H. lra.
Qed.

(** The spacing of the floats around [q]. *)
Lemma ulp_le (q : Q) :
  0 < q -> pow2 (gexp2 q) <= q * pow2 (-52) + pow2 (-1074).
Proof.
  intros Hq. pose proof (pow2_pos (-52)) as H52.
  pose proof (pow2_pos (-1074)) as Hmin.
  destruct (gexp2_cases q) as [[E _]|[E _]]; rewrite E.
  - nra.
  - pose proof (ilog2_spec q Hq) as [L _].
    assert (S : pow2 (ilog2 q - 52) == pow2 (ilog2 q) * pow2 (-52)).
    { unfold pow2. rewrite <- bpow_add by reflexivity. reflexivity. }
    rewrite S. nra.
Qed.

Lemma r5_err (q : Q) :
  r5 q - pow10 (gexp10 q) * (1 # 2) <= q <= r5 q + pow10 (gexp10 q) * (1 # 2).
Proof.
  unfold r5, gexp10, pow10.
  apply (fround_err 10 two_le_10).
Qed.

(** Five significant digits keep a value within one part in 20000. *)
Lemma r5_close (v : Q) :
  0 < v -> r5 v - v * (1 # 20000) <= v <= r5 v + v * (1 # 20000).
Proof.
  intros Hv. pose proof (r5_err v) as H. rewrite gexp10_eq in H.
  pose proof (ilog10_spec v Hv) as [L _].
  assert (S : pow10 (ilog10 v - 4) == pow10 (ilog10 v) * (1 # 10000)).
  { unfold pow10. change (1 # 10000) with (10 ^ (-4)).
    rewrite <- bpow_add by reflexivity. reflexivity. }
  lra.
Qed.

Lemma nearest_sign (s : bool) (q : Q) : sign_of (nearest s q) = s.
Proof.
  unfold nearest, assemble. destruct (Qle_bool q 0); [reflexivity|].
  cbv zeta. destruct (_ <=? 0)%Z; [reflexivity|].
  destruct (_ =? _)%Z; destruct (_ <=? 971)%Z; reflexivity.
Qed.

(** A finite result of [nearest] has the value of the rounding. *)
Lemma nearest_value (s : bool) (q : Q) :
  0 <= q -> is_finite (nearest s q) = true -> mag (nearest s q) == fl q.
Proof.
  intros Hq Hf. pose proof (fl_nonneg q Hq) as Hn.
  destruct (nearest s q) as [s'|s'| |s' m e] eqn:E; try discriminate Hf.
  - simpl mag. destruct (Qlt_le_dec 0 q) as [Hp|Hp].
    + rewrite nearest_pos in E by exact Hp. unfold assemble in E.
      destruct (significand q <=? 0)%Z eqn:E0.
      * apply Z.leb_le in E0. rewrite fl_significand in *.
        pose proof (pow2_pos (gexp2 q)) as Hc.
        assert (inject_Z (significand q) <= 0).
        { change 0 with (inject_Z 0). rewrite <- Zle_Qle. exact E0. }
        nra.
      * destruct (_ =? _)%Z; destruct (_ <=? 971)%Z; discriminate E.
    + pose proof (fl_nonpos q Hp). lra.
  - apply nearest_finite in E. apply E.
Qed.

(** A float in range differs from the value it rounds by half a spacing. *)
Lemma nearest_close (s : bool) (q : Q) :
  0 <= q -> is_finite (nearest s q) = true ->
  q - (q * pow2 (-52) + pow2 (-1074)) * (1 # 2) <= mag (nearest s q)
  /\ mag (nearest s q) <= q + (q * pow2 (-52) + pow2 (-1074)) * (1 # 2).
Proof.
  intros Hq Hf. pose proof (nearest_value s q Hq Hf) as E.
  pose proof (pow2_pos (-52)) as H52. pose proof (pow2_pos (-1074)) as Hmin.
  destruct (Qlt_le_dec 0 q) as [Hp|Hp].
  - pose proof (fl_err q) as He. pose proof (ulp_le q Hp) as Hu. qlra.
  - pose proof (fl_nonpos q Hp). pose proof (fl_nonneg q Hq). nra.
Qed.

(** The printed price is within six parts in 100000 of a normal price. *)
Lemma fmt5g_close (p : float) :
  pow2 (-1022) <= mag p -> is_finite (fmt5g p) = true ->
  mag p - mag p * (6 # 100000) <= mag (fmt5g p)
  /\ mag (fmt5g p) <= mag p + mag p * (6 # 100000).
Proof.
  intros Hv Hf. pose proof (pow2_pos (-1022)) as Hn.
  destruct p as [s|s| |s m e]; try (change (pow2 (-1022) <= 0) in Hv; lra).
  rewrite fmt5g_finite in Hf. rewrite fmt5g_finite. set (v := mag (S754_finite s m e)) in *.
  assert (Hv0 : 0 < v) by lra.
  pose proof (r5_pos v Hv0) as HA. pose proof (r5_close v Hv0) as HC.
  destruct (nearest_close s (r5 v) ltac:(lra) Hf) as [L U].
  pose proof pow2_m52_small as He. pose proof (pow2_pos (-52)) as He0.
  pose proof pow2_m1074_split as Ht.
  set (A := r5 v) in *. set (y := mag (nearest s A)) in *.
  set (e52 := pow2 (-52)) in *. set (t := pow2 (-1074)) in *.
  set (n := pow2 (-1022)) in *.
  assert (Ht' : t <= v * e52) by nra.
  assert (HAe : A * e52 <= 2 * v * e52) by nra.
  assert (Hve : v * e52 <= v * (1 # 1000000000000000)) by nra.
  lra.
Qed.

Lemma fmt5g_sign (p : float) : sign_of (fmt5g p) = sign_of p.
Proof. destruct p; try reflexivity. apply nearest_sign. Qed.

Lemma rounded_price_sign (k : Z) (y : float) :
  sign_of (rounded_price k y) = sign_of y.
Proof.
  unfold rounded_price, py_round. destruct y as [s|s| |s m e]; try reflexivity.
  destruct (323 <? k)%Z; [reflexivity|]. destruct (k <? -308)%Z; [reflexivity|].
  pose proof (nearest_sign s (round_places k (mag (S754_finite s m e)))) as H.
  destruct (nearest _ _); exact H || reflexivity.
Qed.

(** Rounding to [k] decimals moves a price in range by at most half a
    unit of the last decimal and half a spacing of the floats. *)
Lemma rounded_price_close (k : Z) (y : float) :
  mag y <= inject_Z max_float -> is_finite (rounded_price k y) = true ->
  let g := pow10 (- k) in
  let d := g * (1 # 2)
           + ((mag y + g * (1 # 2)) * pow2 (-52) + pow2 (-1074)) * (1 # 2) in
  mag y - d <= mag (rounded_price k y) /\ mag (rounded_price k y) <= mag y + d.
Proof.
  intros Hr Hf g d.
  pose proof (pow10_pos (- k)) as Hg. fold g in Hg.
  pose proof (pow2_pos (-52)) as He0. pose proof (pow2_pos (-1074)) as Ht0.
  pose proof (mag_nonneg y) as Hy.
  assert (Hd : mag y * pow2 (-52) >= 0) by nra.
  assert (Hd' : g * pow2 (-52) >= 0) by nra.
  assert (Hd0 : 0 <= d) by (unfold d; lra).
  assert (Hsame : rounded_price k y = y ->
            mag y - d <= mag (rounded_price k y)
            /\ mag (rounded_price k y) <= mag y + d).
  { intros ->. lra. }
  destruct y as [s|s| |s m e]; try (apply Hsame; reflexivity).
  set (x := S754_finite s m e) in *.
  destruct (323 <? k)%Z eqn:K1.
  { apply Hsame. unfold rounded_price, py_round, x. rewrite K1. reflexivity. }
  destruct (k <? -308)%Z eqn:K2.
  { assert (E : rounded_price k x = S754_zero s).
    { unfold rounded_price, py_round, x. rewrite K1, K2. reflexivity. }
    rewrite E. change (mag (S754_zero s)) with 0. apply Z.ltb_lt in K2.
    assert (pow10 309 <= g) by (apply bpow_le; [reflexivity|lia]).
    pose proof max_float_below_pow10. unfold d. lra. }
  unfold x in Hf |- *. rewrite (rounded_price_finite s m e k K1 K2) in *. fold x in Hf |- *.
  set (B := rgrid (pow10 (- k)) (mag x)) in *.
  pose proof (rgrid_err g (mag x) Hg) as HB. change (rgrid g (mag x)) with B in HB.
  unfold Qdiv in HB. change (/ 2) with (1 # 2) in HB.
  pose proof (rgrid_nonneg g (mag x) Hg Hy) as HB0.
  change (rgrid g (mag x)) with B in HB0.
  destruct (nearest s B) as [s'|s'| |s' m' e'] eqn:E.
  - pose proof (nearest_close s B HB0) as HN. rewrite E in HN.
    specialize (HN eq_refl). change (mag (S754_zero s')) with 0 in HN.
    assert (B * pow2 (-52) <= (mag x + g * (1 # 2)) * pow2 (-52)) by nra.
    unfold d. change (mag (S754_zero s')) with 0. lra.
  - lra.
  - discriminate Hf.
  - pose proof (nearest_close s B HB0) as HN. rewrite E in HN.
    specialize (HN eq_refl).
    assert (B * pow2 (-52) <= (mag x + g * (1 # 2)) * pow2 (-52)) by nra.
    unfold d. lra.
Qed.

(** The price formatted for a cache [sp]. *)
Lemma format_with_close (sp : gmap string AssetSpec) (sym : string) (p : float) :
  pow2 (-1022) <= mag p -> is_finite (format_with sp sym p) = true ->
  Qabs (mag (format_with sp sym p) - mag p)
  <= mag p * (1 # 10000)
     + match sp !! sym with
       | Some spec =>
           pow10 (- ((if (10000 <=? asset_id spec)%Z then 8 else 6)
                     - Z.of_N (sz_decimals spec)))
       | None => 0
       end.
Proof.
  intros Hv Hf. pose proof (pow2_pos (-1022)) as Hn.
  apply Qabs_Qle_condition. unfold format_with in *.
  destruct (sp !! sym) as [spec|].
  - set (k := ((if (10000 <=? asset_id spec)%Z then 8 else 6)
               - Z.of_N (sz_decimals spec))%Z) in *.
    assert (Hfin : is_finite (fmt5g p) = true).
    { destruct (fmt5g p) as [s|s| |s m e] eqn:E; try reflexivity.
      - unfold rounded_price, py_round in Hf. discriminate Hf.
      - unfold rounded_price, py_round in Hf. discriminate Hf. }
    destruct (fmt5g_close p Hv Hfin) as [L U].
    destruct (rounded_price_close k (fmt5g p) (fmt5g_in_range p) Hf) as [L' U'].
    cbv zeta in L', U'.
    pose proof (pow10_pos (- k)) as Hg.
    pose proof pow2_m52_small as He. pose proof (pow2_pos (-52)) as He0.
    pose proof pow2_m1074_split as Ht.
    set (v := mag p) in *. set (y := mag (fmt5g p)) in *.
    set (z := mag (rounded_price k (fmt5g p))) in *.
    set (g := pow10 (- k)) in *.
    set (e52 := pow2 (-52)) in *. set (t := pow2 (-1074)) in *.
    set (n := pow2 (-1022)) in *.
    assert (Ht' : t <= v * e52) by nra.
    assert (Hye : y * e52 <= 2 * v * e52) by nra.
    assert (Hve : v * e52 <= v * (1 # 1000000000000000)) by nra.
    assert (Hge : g * e52 <= g * (1 # 1000000000000000)) by nra.
    split; lra.
  - destruct (fmt5g_close p Hv Hf) as [L U]. split; lra.
Qed.

End Accuracy.

Section PriceAccuracy.
Variable ex : Exchange.
Open Scope Q_scope.

(** X17. [format_price] of a price of normal size (a finite float of
    magnitude at least 2^-1022) returns a float of the same sign which,
    when finite, differs from the price by at most one part in 10000
    of the price plus, for a symbol of the cache, one unit of the last
    decimal kept for that symbol. *)
Theorem format_price_accuracy (st : TraderState) (sym : string) (p : float) :
  pow2 (-1022) <= mag p ->
  exists r sp st1,
    format_price ex p sym st = (Ok r, st1)
    /\ get_asset_specs ex st = (Ok sp, st1)
    /\ sign_of r = sign_of p
    /\ (is_finite r = true ->
        Qabs (mag r - mag p)
        <= mag p * (1 # 10000)
           + match sp !! sym with
             | Some spec =>
                 pow10 (- ((if (10000 <=? asset_id spec)%Z then 8 else 6)
                           - Z.of_N (sz_decimals spec)))
             | None => 0
             end).
Proof.
  intros Hv.
  destruct (get_asset_specs_returns ex st) as (sp & st1 & E & _).
  exists (format_with sp sym p), sp, st1.
  split; [exact (format_price_run ex st st1 sp sym p E)|].
  split; [exact E|]. split.
  - unfold format_with. destruct (sp !! sym).
    + rewrite rounded_price_sign. apply fmt5g_sign.
    + apply fmt5g_sign.
  - apply format_with_close, Hv.
Qed.

End PriceAccuracy.

(** ** The properties on the sample run *)

Lemma get_min_order_size_spec_witness :
  get_asset_specs Sample.exchange Sample.trader = (Ok Sample.specs, Sample.loaded)
  /\ is_zero Sample.price_50000 = false
  /\ get_min_order_size Sample.exchange "BTC" Sample.price_50000 Sample.trader =
       (Ok match Sample.specs !! "BTC"%string with
           | Some spec =>
               py_max (pow10_neg (sz_decimals spec)) (fdiv_ieee f10 Sample.price_50000)
           | None => py_max (fdiv_ieee f10 Sample.price_50000) f0_0001
           end, Sample.loaded).
Proof.
  split; [vm_compute; reflexivity|]. split; [reflexivity|].
  apply (get_min_order_size_spec Sample.exchange Sample.trader Sample.loaded
           Sample.specs "BTC" Sample.price_50000).
  - vm_compute. reflexivity.
  - reflexivity.
Defined.

Lemma tp2_reason_unreachable_witness :
  (is_buy (Sample.position (Aware 2000)) = true
   /\ fle (tp1 (Sample.position (Aware 2000))) (tp2 (Sample.position (Aware 2000))) = true)
  /\ check_exit (Sample.position (Aware 2000)) (of_Z 125) (Aware 1000)
       = Ok (true, Some TP1_hit)
  /\ Some TP1_hit <> Some TP2_hit.
Proof.
  split; [split; reflexivity|]. split; [reflexivity|].
  apply (tp2_reason_unreachable (Sample.position (Aware 2000)) (of_Z 125)
           (Aware 1000) true (Some TP1_hit)).
  - left. split; reflexivity.
  - reflexivity.
Defined.

Lemma monitor_entry_close_witness :
  let ex := Sample.exchange in
  let td := Sample.position (Aware 2000) in
  let id := "BTC_1700000000"%string in
  let sv3 := snd (log_closing (symbol td) TP1_hit (snd (utc_now ex Sample.after_position))) in
  let final := snd (monitor_entry ex id td Sample.watched) in
  exists close_result sv4,
    monitor_trader (close_position ex (symbol td)) sv3 = (Ok close_result, sv4)
    /\ fst (monitor_entry ex id td Sample.watched) = Ok tt
    /\ calls final = calls sv4 /\ orders final = orders sv4
    /\ active_positions final =
         (if order_truthy close_result
          then dict_remove id (active_positions Sample.watched)
          else active_positions Sample.watched)
    /\ dict_get id (active_positions final) =
         (if order_truthy close_result then None else Some td).
Proof.
  intros ex td id.
  apply (monitor_entry_close ex Sample.watched Sample.after_price
           Sample.after_position id td Sample.price_111
           {| coin := "BTC"; szi := Parsed Sample.size_0_5 |} TP1_hit).
  - reflexivity.
  - vm_compute. reflexivity.
  - reflexivity.
  - vm_compute. reflexivity.
  - vm_compute. reflexivity.
Defined.

Lemma same_second_overwrites_witness :
  let acc1 := Sample.accepted Sample.first_answer in
  let acc2 := Sample.accepted Sample.second_answer in
  let sg1 := Sample.validated (Sample.payload "buy" Sample.utc_deadline) in
  let sg2 := Sample.validated (Sample.payload "Buy" Sample.utc_deadline) in
  let sv1 := snd Sample.first_answer in
  let sv2 := snd Sample.second_answer in
  r_signal_id acc1 = r_signal_id acc2
  /\ dict_get (r_signal_id acc1) (active_positions sv1)
     = Some (tracked sg1 (r_entry_price acc1) (r_order_result acc1))
  /\ dict_get (r_signal_id acc1) (active_positions sv2)
     = Some (tracked sg2 (r_entry_price acc2) (r_order_result acc2))
  /\ length (active_positions sv2) = length (active_positions sv1)
  /\ (forall k, k <> r_signal_id acc1 ->
        dict_get k (active_positions sv2) = dict_get k (active_positions sv1)).
Proof.
  intros acc1 acc2 sg1 sg2 sv1 sv2.
  apply (same_second_overwrites Sample.float_of_string Sample.fromisoformat
           Sample.exchange Sample.environ
           (Sample.payload "buy" Sample.utc_deadline)
           (Sample.payload "Buy" Sample.utc_deadline)
           Sample.idle sv1 sv2 acc1 acc2 sg1 sg2).
  - vm_compute. reflexivity.
  - vm_compute. reflexivity.
  - vm_compute. reflexivity.
  - vm_compute. reflexivity.
  - vm_compute. reflexivity.
  - vm_compute. reflexivity.
Defined.

Lemma validate_and_adjust_size_spec_witness :
  (get_asset_specs Sample.exchange Sample.trader = (Ok Sample.specs, Sample.loaded)
   /\ is_zero Sample.price_50000 = false
   /\ valid_binary prec emax Sample.size_0_123456 = true)
  /\ adjusted_as_specified Sample.exchange Sample.specs "BTC"
       Sample.size_0_123456 Sample.price_50000 Sample.trader
  /\ snd (validate_and_adjust_size Sample.exchange "BTC"
            Sample.size_0_123456 Sample.price_50000 Sample.trader) = Sample.loaded.
Proof.
  split; [split; [vm_compute; reflexivity|split; reflexivity]|].
  apply (validate_and_adjust_size_spec Sample.exchange Sample.trader Sample.loaded
           Sample.specs "BTC" Sample.size_0_123456 Sample.price_50000).
  - vm_compute. reflexivity.
  - reflexivity.
  - reflexivity.
Defined.

(** At a zero price the minimum order size raises and the size comes
    back as it was given, not rounded to the five decimals of the symbol. *)
Lemma validate_and_adjust_size_zero_price :
  fst (validate_and_adjust_size Sample.exchange "BTC" Sample.size_0_123456 f0
         Sample.trader) = Ok Sample.size_0_123456
  /\ ~ adjusted_as_specified Sample.exchange Sample.specs "BTC"
         Sample.size_0_123456 f0 Sample.trader.
Proof.
  assert (Hrun : fst (validate_and_adjust_size Sample.exchange "BTC"
                        Sample.size_0_123456 f0 Sample.trader)
                 = Ok Sample.size_0_123456) by (vm_compute; reflexivity).
  split; [exact Hrun|].
  intros (r & Hr & H). rewrite Hrun in Hr.
  assert (Hmin : fst (get_min_order_size Sample.exchange "BTC" f0 Sample.trader)
                 = Raise ZeroDivisionError) by (vm_compute; reflexivity).
  rewrite Hmin in H. unfold rounded_size in H.
  assert (Hsym : Sample.specs !! "BTC"%string
                 = Some {| asset_id := 0; sz_decimals := 5; max_leverage := 40;
                           only_isolated := false |}) by (vm_compute; reflexivity).
  rewrite Hsym in H. cbn [sz_decimals] in H.
  assert (Hround : py_round Sample.size_0_123456 (Z.of_N 5) = Ok Sample.size_0_12346)
    by (vm_compute; reflexivity).
  rewrite Hround in H. injection Hr as <-. injection H as H.
  vm_compute in H. discriminate H.
Qed.

Lemma format_price_spec_witness :
  get_asset_specs Sample.exchange Sample.trader = (Ok Sample.specs, Sample.loaded)
  /\ py_round (fmt5g Sample.price_50123_456) (6 - 5) = Ok Sample.price_50123
  /\ format_price Sample.exchange Sample.price_50123_456 "BTC" Sample.trader
     = (Ok Sample.price_50123, Sample.loaded).
Proof.
  split; [vm_compute; reflexivity|]. split; [vm_compute; reflexivity|].
  pose proof (format_price_spec Sample.exchange Sample.trader Sample.loaded
                Sample.specs "BTC" Sample.price_50123_456) as H.
  assert (Hsym : Sample.specs !! "BTC"%string
                 = Some {| asset_id := 0; sz_decimals := 5; max_leverage := 40;
                           only_isolated := false |}) by (vm_compute; reflexivity).
  rewrite Hsym in H. cbv zeta in H.
  apply H.
  - vm_compute. reflexivity.
  - vm_compute. reflexivity.
Defined.

(** ** The further properties on the sample run *)

Lemma asset_specs_of_universe_witness :
  (_asset_specs Sample.trader = None
   /\ info_meta Sample.exchange (tick Sample.trader) = Ok (Some Sample.universe)
   /\ get_asset_specs Sample.exchange Sample.trader = (Ok Sample.specs, Sample.loaded))
  /\ match Sample.specs !! "ETH"%string with
     | Some spec =>
         exists (i : nat) a,
           Sample.universe !! i = Some a /\ ma_name a = Some "ETH"%string
           /\ asset_id spec = Z.of_nat i
           /\ sz_decimals spec = default 4%N (ma_szDecimals a)
           /\ forall (j : nat) a', (i < j)%nat -> Sample.universe !! j = Some a' ->
                                   ma_name a' <> Some "ETH"%string
     | None => forall a, In a Sample.universe -> ma_name a <> Some "ETH"%string
     end.
Proof.
  split; [split; [reflexivity|split; [reflexivity|vm_compute; reflexivity]]|].
  apply (asset_specs_of_universe Sample.exchange Sample.trader Sample.loaded
           Sample.universe Sample.specs "ETH").
  - reflexivity.
  - reflexivity.
  - intros a [<-|[<-|[]]]; discriminate.
  - vm_compute. reflexivity.
Defined.

Lemma market_price_is_formatted_witness :
  Scenario.buy_answer = (Ok (Some Scenario.buy_price), snd Scenario.buy_answer)
  /\ format_price Sample.exchange Scenario.buy_price "BTC" (snd Scenario.buy_answer)
     = (Ok Scenario.buy_price, snd Scenario.buy_answer)
  /\ sent (snd Scenario.buy_answer) = sent Sample.trader.
Proof.
  split; [vm_compute; reflexivity|].
  destruct (market_price_is_formatted Sample.exchange "BTC" true Sample.trader
              (snd Scenario.buy_answer) Scenario.buy_price) as (Hfix & Hsent & _).
  - vm_compute. reflexivity.
  - split; [exact Hfix|exact Hsent].
Defined.

Lemma calculate_position_size_returns_witness :
  is_zero Sample.price_50000 = false
  /\ exists usd size st1,
       calculate_position_size Sample.exchange "BTC" Sample.price_50000 (of_Z 10)
         Sample.trader = (Ok (usd, size), st1)
       /\ sent st1 = sent Sample.trader.
Proof.
  split; [reflexivity|].
  destruct (calculate_position_size_returns Sample.exchange "BTC" Sample.price_50000
              (of_Z 10) Sample.trader) as (usd & size & st1 & Hrun & Hsent & _).
  - reflexivity.
  - exists usd, size, st1. split; [exact Hrun|exact Hsent].
Defined.

Lemma monitor_entry_position_gone_witness :
  let ex := Scenario.flat_exchange in
  let td := Sample.position (Aware 2000) in
  let id := "BTC_1700000000"%string in
  let final := snd (monitor_entry ex id td Sample.watched) in
  fst (monitor_entry ex id td Sample.watched) = Ok tt
  /\ active_positions final = dict_remove id (active_positions Sample.watched)
  /\ dict_get id (active_positions final) = None
  /\ (forall k, k <> id ->
        dict_get k (active_positions final) = dict_get k (active_positions Sample.watched))
  /\ orders final = orders Sample.watched
  /\ closing final = closing Sample.watched
  /\ calls final = calls Scenario.flat_after_position.
Proof.
  intros ex td id.
  apply (monitor_entry_position_gone ex Sample.watched Scenario.flat_after_price
           Scenario.flat_after_position id td Sample.price_111).
  - reflexivity.
  - vm_compute. reflexivity.
  - reflexivity.
  - vm_compute. reflexivity.
Defined.

Lemma entry_price_of_request_witness :
  Sample.first_answer = (Success (Sample.accepted Sample.first_answer),
                         snd Sample.first_answer)
  /\ r_entry_price (Sample.accepted Sample.first_answer) = of_Z 100.
Proof.
  split; [vm_compute; reflexivity|].
  destruct (entry_price_of_request Sample.float_of_string Sample.fromisoformat
              Sample.exchange Sample.environ (Sample.payload "buy" Sample.utc_deadline)
              Sample.idle (snd Sample.first_answer)
              (Sample.accepted Sample.first_answer)) as (sg & Hsg & Hprice).
  - vm_compute. reflexivity.
  - assert (E : sg = Sample.validated (Sample.payload "buy" Sample.utc_deadline)).
    { assert (Hv : fst (validate_signal Sample.float_of_string Sample.fromisoformat
                          (Sample.payload "buy" Sample.utc_deadline) tt)
                   = Ok (inr (Sample.validated (Sample.payload "buy" Sample.utc_deadline))))
        by (vm_compute; reflexivity).
      rewrite Hv in Hsg. inversion Hsg. reflexivity. }
    subst sg.
    assert (Hne : feq (s_current_price
                         (Sample.validated (Sample.payload "buy" Sample.utc_deadline))) f0
                  = false) by (vm_compute; reflexivity).
    rewrite Hne in Hprice. rewrite Hprice. vm_compute. reflexivity.
Defined.

Lemma non_string_field_is_a_server_error_witness :
  first_missing (JObj Scenario.numeric_message) = None
  /\ dict_get "Signal Message" Scenario.numeric_message = Some (JInt 1)
  /\ Sample.handle (JObj Scenario.numeric_message) Sample.idle
     = (Error 500 (Unhandled AttributeError), Sample.idle).
Proof.
  split; [reflexivity|]. split; [reflexivity|].
  apply (non_string_field_is_a_server_error Sample.float_of_string Sample.fromisoformat
           Sample.exchange Sample.environ Scenario.numeric_message (JInt 1) Sample.idle).
  - reflexivity.
  - intros s. discriminate.
  - left. reflexivity.
Defined.

Lemma distinct_requests_are_both_tracked_witness :
  let acc1 := Sample.accepted Sample.first_answer in
  let acc2 := Sample.accepted Scenario.eth_answer in
  let sg1 := Sample.validated (Sample.payload "buy" Sample.utc_deadline) in
  let sg2 := Sample.validated Scenario.payload_eth in
  let sv2 := snd Scenario.eth_answer in
  r_signal_id acc1 <> r_signal_id acc2
  /\ dict_get (r_signal_id acc1) (active_positions sv2)
     = Some (tracked sg1 (r_entry_price acc1) (r_order_result acc1))
  /\ dict_get (r_signal_id acc2) (active_positions sv2)
     = Some (tracked sg2 (r_entry_price acc2) (r_order_result acc2)).
Proof.
  intros acc1 acc2 sg1 sg2 sv2.
  apply (distinct_requests_are_both_tracked Sample.float_of_string Sample.fromisoformat
           Sample.exchange Sample.environ
           (Sample.payload "buy" Sample.utc_deadline) Scenario.payload_eth
           Sample.idle (snd Sample.first_answer) sv2 acc1 acc2 sg1 sg2).
  - vm_compute. reflexivity.
  - vm_compute. reflexivity.
  - vm_compute. reflexivity.
  - vm_compute. reflexivity.
  - left. split; [reflexivity|]. split; [reflexivity|]. vm_compute. discriminate.
Defined.

Lemma format_price_accuracy_witness :
  (pow2 (-1022) <= mag Sample.price_50123_456)%Q
  /\ exists r,
       fst (format_price Sample.exchange Sample.price_50123_456 "BTC" Sample.trader)
       = Ok r
       /\ sign_of r = false
       /\ (Qabs (mag r - mag Sample.price_50123_456)
           <= mag Sample.price_50123_456 * (1 # 10000) + (1 # 10))%Q.
Proof.
  assert (Hn : (pow2 (-1022) <= mag Sample.price_50123_456)%Q)
    by (vm_compute; discriminate).
  split; [exact Hn|].
  destruct (format_price_accuracy Sample.exchange Sample.trader "BTC"
              Sample.price_50123_456 Hn) as (r & sp & st1 & Hrun & Hsp & Hsign & Hclose).
  exists r. split; [rewrite Hrun; reflexivity|]. split; [exact Hsign|].
  assert (E : sp = Sample.specs).
  { assert (Hs : get_asset_specs Sample.exchange Sample.trader
                 = (Ok Sample.specs, Sample.loaded)) by (vm_compute; reflexivity).
    rewrite Hs in Hsp. inversion Hsp. reflexivity. }
  subst sp.
  assert (Hsym : Sample.specs !! "BTC"%string
                 = Some {| asset_id := 0; sz_decimals := 5; max_leverage := 40;
                           only_isolated := false |}) by (vm_compute; reflexivity).
  rewrite Hsym in Hclose. apply Hclose.
  assert (Hr : fst (format_price Sample.exchange Sample.price_50123_456 "BTC"
                      Sample.trader) = Ok Sample.price_50123)
    by (vm_compute; reflexivity).
  rewrite Hrun in Hr. inversion Hr. reflexivity.
Defined.

Lemma exit_condition_without_close_witness :
  let td := Sample.position (Naive 2000) in
  let final := snd (monitor_entry Sample.exchange "BTC_1700000000" td
                      Edge.naive_server) in
  check_price_exit (is_buy td) Sample.price_111 (tp1 td) (tp2 td) (sl td)
    = (true, Some TP1_hit)
  /\ fst (monitor_entry Sample.exchange "BTC_1700000000" td Edge.naive_server)
     = Raise TypeError
  /\ orders final = orders Edge.naive_server
  /\ closing final = closing Edge.naive_server
  /\ active_positions final = active_positions Edge.naive_server
  /\ calls final = S (calls Edge.naive_after_position).
Proof.
  intros td final. split; [reflexivity|].
  apply (exit_condition_without_close Sample.exchange Edge.naive_server
           Edge.naive_after_price Edge.naive_after_position
           "BTC_1700000000" td Sample.price_111
           {| coin := "BTC"; szi := Parsed Sample.size_0_5 |} TP1_hit 2000).
  - vm_compute. reflexivity.
  - reflexivity.
  - vm_compute. reflexivity.
  - reflexivity.
  - reflexivity.
Defined.


